(** * TallyBridge v1.3: marketplace CSV reports to Tally XML

    A shallow embedding of the core of the application:
    - [services/tallyXmlGenerator.ts]: [sanitize], [formatDateForTally],
      [generateTallyXml];
    - the [App] component: [parseCSV], [allHeaders], [getSampleData],
      [validationResults], [hasCriticalErrors], [suggestedLedgers],
      [handleFileUpload], [removeFile], [startMapping], [processMapping],
      [clearMappings], [toggleRow], [handleLedgerOverride];
    - [types.ts]: [MarketplaceTransaction], [ColumnMapping], [AppStep].

    The JavaScript built-ins the program calls are modelled first, in
    module [Js].  A JavaScript number is an IEEE 754 binary64 value; it is
    modelled by [spec_float] of the Standard Library at precision 53 and
    maximal exponent 1024.  A JavaScript string is modelled by [string], one
    character per code unit (code units above 255 are outside the model). *)

From stdpp Require Import gmap strings list fin_maps.
From Stdlib Require Import ZArith Lia Ascii String DecimalString Sorted
  Floats.SpecFloat.

(** * The JavaScript run-time model *)

Module Js.

(** ** Characters and strings *)

Definition code (c : ascii) : N := N_of_ascii c.

Definition isDigit (c : ascii) : bool :=
  ((48 <=? code c) && (code c <=? 57))%N.

Definition isUpper (c : ascii) : bool :=
  ((65 <=? code c) && (code c <=? 90))%N.

(** WhiteSpace and LineTerminator code points below 256: the characters
    [String.prototype.trim] removes and [parseFloat] skips. *)
Definition isWhiteSpace (c : ascii) : bool :=
  match code c with
  | 9 | 10 | 11 | 12 | 13 | 32 | 160 => true
  | _ => false
  end%N.

Definition chr (n : N) : ascii := ascii_of_N n.

Definition dq : string := String (chr 34) EmptyString.
Definition nl : string := String (chr 10) EmptyString.

Fixpoint rev_onto (s acc : string) : string :=
  match s with
  | EmptyString => acc
  | String c s' => rev_onto s' (String c acc)
  end.

Definition reverse (s : string) : string := rev_onto s EmptyString.

Fixpoint trimStart (s : string) : string :=
  match s with
  | EmptyString => EmptyString
  | String c s' => if isWhiteSpace c then trimStart s' else s
  end.

Definition trimEnd (s : string) : string := reverse (trimStart (reverse s)).

(** [str.trim()] *)
Definition trim (s : string) : string := trimEnd (trimStart s).

(** [str.split(sep)] for a one-character separator: never the empty list. *)
Fixpoint split (sep : ascii) (s : string) : list string :=
  match s with
  | EmptyString => [EmptyString]
  | String c s' =>
      if Ascii.eqb c sep then EmptyString :: split sep s'
      else match split sep s' with
           | h :: t => String c h :: t
           | [] => [String c EmptyString]
           end
  end.

(** [str.split(/\r?\n/)]: a line feed, or a carriage return directly
    followed by a line feed, ends a piece. *)
Fixpoint splitLines (s : string) : list string :=
  match s with
  | EmptyString => [EmptyString]
  | String c s' =>
      if Ascii.eqb c (chr 10) then EmptyString :: splitLines s'
      else if Ascii.eqb c (chr 13) && (match s' with
                                       | String d _ => Ascii.eqb d (chr 10)
                                       | EmptyString => false
                                       end)
      then splitLines s'
      else match splitLines s' with
           | h :: t => String c h :: t
           | [] => [String c EmptyString]
           end
  end.

Fixpoint filterChars (p : ascii -> bool) (s : string) : string :=
  match s with
  | EmptyString => EmptyString
  | String c s' => if p c then String c (filterChars p s') else filterChars p s'
  end.

(** [arr.join(sep)] *)
Fixpoint join (sep : string) (l : list string) : string :=
  match l with
  | [] => EmptyString
  | [x] => x
  | x :: l' => x +:+ sep +:+ join sep l'
  end.

(** [arr.indexOf(x)] on an array of strings; [None] stands for [-1]. *)
Fixpoint indexOf (l : list string) (x : string) : option nat :=
  match l with
  | [] => None
  | y :: l' => if String.eqb y x then Some 0%nat
               else match indexOf l' x with
                    | Some i => Some (S i)
                    | None => None
                    end
  end.

(** [arr.includes(x)] *)
Definition includes {A} `{EqDecision A} (l : list A) (x : A) : bool :=
  bool_decide (x ∈ l).

(** [str.padStart(n, "0")] *)
Definition padStart0 (n : nat) (s : string) : string :=
  string_of_list_ascii (repeat (chr 48) (n - String.length s)) +:+ s.

(** The truth value of a string or [undefined] ([None]): only [undefined]
    and the empty string are falsy. *)
Definition truthyStr (o : option string) : bool :=
  match o with
  | Some (String _ _) => true
  | _ => false
  end.

(** [a || b] where [a] is a string or [undefined] and [b] a string *)
Definition orStr (a : option string) (b : string) : string :=
  match a with
  | Some (String c s) => String c s
  | _ => b
  end.

(** ** Numbers *)

Definition number : Type := spec_float.
Definition prec : Z := 53.
Definition emax : Z := 1024.

Definition NaN : number := S754_nan.
Definition zero : number := S754_zero false.

(** The number nearest to an integer (ties to even). *)
Definition ofZ (z : Z) : number := binary_normalize prec emax z 0 false.

Definition isNaN (x : number) : bool :=
  match x with S754_nan => true | _ => false end.

Definition isFinite (x : number) : bool :=
  match x with S754_nan | S754_infinity _ => false | _ => true end.

(** ToBoolean on numbers: [+0], [-0] and [NaN] are falsy. *)
Definition truthy (x : number) : bool :=
  match x with S754_zero _ | S754_nan => false | _ => true end.

(** [a || b] on numbers *)
Definition orNum (a b : number) : number := if truthy a then a else b.

(** [x > y] *)
Definition gt (x y : number) : bool := SFltb y x.

(** [x / y] and [x - y] *)
Definition div (x y : number) : number := SFdiv prec emax x y.
Definition sub (x y : number) : number := SFsub prec emax x y.

(** SameValueZero, the equality of [Set]: [NaN] equals itself and the two
    zeros are equal. *)
Definition sameValueZero (x y : number) : bool :=
  SFeqb x y || (isNaN x && isNaN y).

(** The number nearest to [m * 10^e], negated when [sign] is set. *)
Definition ofDecimal (sign : bool) (m : N) (e : Z) : number :=
  match m with
  | N0 => S754_zero sign
  | Npos p =>
      let x := if (0 <=? e)%Z
               then binary_normalize prec emax (Zpos p * 10 ^ e) 0 false
               else SFdiv prec emax (S754_finite false p 0)
                      (S754_finite false (Z.to_pos (10 ^ (- e))) 0) in
      if sign then SFopp x else x
  end.

(** *** Reading numbers: [parseFloat] and [Number(...)] *)

Fixpoint spanDigits (s : string) : string * string :=
  match s with
  | String c s' =>
      if isDigit c then let '(ds, r) := spanDigits s' in (String c ds, r)
      else (EmptyString, s)
  | EmptyString => (EmptyString, EmptyString)
  end.

Fixpoint digitsToN (acc : N) (s : string) : N :=
  match s with
  | EmptyString => acc
  | String c s' => digitsToN (10 * acc + (code c - 48))%N s'
  end.

Fixpoint dropChars (n : nat) (s : string) : string :=
  match n, s with
  | S n', String _ s' => dropChars n' s'
  | _, _ => s
  end.

Definition scanExponent (s : string) : Z * string :=
  match s with
  | String c s1 =>
      if (code c =? 101)%N || (code c =? 69)%N then
        let '(sgn, s2) :=
          match s1 with
          | String d r => if (code d =? 43)%N then (false, r)
                          else if (code d =? 45)%N then (true, r)
                          else (false, s1)
          | EmptyString => (false, s1)
          end in
        let '(ds, s3) := spanDigits s2 in
        match ds with
        | EmptyString => (0%Z, s)
        | _ => let v := Z.of_N (digitsToN 0 ds) in
               ((if sgn then - v else v)%Z, s3)
        end
      else (0%Z, s)
  | EmptyString => (0%Z, s)
  end.

(** The longest prefix that is a StrUnsignedDecimalLiteral, with its value
    and what follows it. *)
Definition scanUnsigned (sign : bool) (s : string) : option (number * string) :=
  if String.prefix "Infinity" s then Some (S754_infinity sign, dropChars 8 s)
  else
    let '(ip, s1) := spanDigits s in
    let '(fp, s2) :=
      match s1 with
      | String c r => if (code c =? 46)%N then spanDigits r else (EmptyString, s1)
      | EmptyString => (EmptyString, s1)
      end in
    match ip, fp with
    | EmptyString, EmptyString => None
    | _, _ =>
        let '(ex, s3) := scanExponent s2 in
        Some (ofDecimal sign (digitsToN 0 (ip +:+ fp))
                (ex - Z.of_nat (String.length fp)), s3)
    end.

Definition scanDecimal (s : string) : option (number * string) :=
  match s with
  | String c r => if (code c =? 43)%N then scanUnsigned false r
                  else if (code c =? 45)%N then scanUnsigned true r
                  else scanUnsigned false s
  | EmptyString => None
  end.

(** [parseFloat(s)] *)
Definition parseFloat (s : string) : number :=
  match scanDecimal (trimStart s) with
  | Some (x, _) => x
  | None => NaN
  end.

Definition digitIn (radix : N) (c : ascii) : option N :=
  let n := code c in
  let v := if isDigit c then Some (n - 48)%N
           else if ((97 <=? n) && (n <=? 102))%N then Some (n - 87)%N
           else if ((65 <=? n) && (n <=? 70))%N then Some (n - 55)%N
           else None in
  match v with
  | Some d => if (d <? radix)%N then Some d else None
  | None => None
  end.

Fixpoint radixValue (radix : N) (acc : N) (s : string) : option N :=
  match s with
  | EmptyString => Some acc
  | String c s' => match digitIn radix c with
                   | Some d => radixValue radix (radix * acc + d)%N s'
                   | None => None
                   end
  end.

(** NonDecimalIntegerLiteral: [0x..], [0o..], [0b..] *)
Definition scanNonDecimal (s : string) : option number :=
  match s with
  | String z (String x (String c r)) =>
      if (code z =? 48)%N then
        let radix := match code x with
                     | 120 | 88 => Some 16
                     | 111 | 79 => Some 8
                     | 98 | 66 => Some 2
                     | _ => None
                     end%N in
        match radix with
        | Some rd => match radixValue rd 0 (String c r) with
                     | Some v => Some (ofZ (Z.of_N v))
                     | None => None
                     end
        | None => None
        end
      else None
  | _ => None
  end.

(** [Number(s)]: the whole trimmed string must be a numeric literal. *)
Definition toNumber (s : string) : number :=
  match trim s with
  | EmptyString => zero
  | t => match scanNonDecimal t with
         | Some x => x
         | None => match scanDecimal t with
                   | Some (x, EmptyString) => x
                   | _ => NaN
                   end
         end
  end.

(** *** Writing numbers: [Number.prototype.toString] and [toFixed] *)

Definition stringOfN (n : N) : string := NilZero.string_of_uint (N.to_uint n).

Definition stringOfZ (z : Z) : string :=
  match z with
  | Zneg p => "-" +:+ stringOfN (Npos p)
  | _ => stringOfN (Z.to_N z)
  end.

Definition zeros (n : Z) : string :=
  string_of_list_ascii (repeat (chr 48) (Z.to_nat n)).

(** The exact value [m * 2^e] of a finite number as a fraction. *)
Definition ratOf (m : positive) (e : Z) : Z * Z :=
  if (0 <=? e)%Z then (Zpos m * 2 ^ e, 1)%Z else (Zpos m, 2 ^ (- e))%Z.

(** The least [j' >= j] with [xn * 10^j' >= xd]. *)
Fixpoint firstPow (fuel : nat) (xn xd j : Z) : Z :=
  match fuel with
  | O => j
  | S f => if (xd <=? xn * 10 ^ j)%Z then j else firstPow f xn xd (j + 1)%Z
  end.

(** The [n] with [10^(n-1) <= xn/xd < 10^n]. *)
Definition decimalExponent (fuel : nat) (xn xd : Z) : Z :=
  if (xd <=? xn)%Z
  then Z.of_nat (String.length (stringOfN (Z.to_N (xn / xd))))
  else (1 - firstPow fuel xn xd 1)%Z.

(** [|s * 10^p - xn/xd|] as a fraction. *)
Definition distance (xn xd s p : Z) : Z * Z :=
  if (0 <=? p)%Z then (Z.abs (s * 10 ^ p * xd - xn), xd)%Z
  else (Z.abs (s * xd - xn * 10 ^ (- p)), xd * 10 ^ (- p))%Z.

(** The [k]-digit decimals [s * 10^(n-k)] that read back as [x]. *)
Definition candidates (x : number) (xn xd n0 k : Z) : list (Z * Z) :=
  flat_map (fun n =>
    let p := (n - k)%Z in
    let t := if (0 <=? p)%Z then (xn / (xd * 10 ^ p))%Z
             else (xn * 10 ^ (- p) / xd)%Z in
    filter (fun c : Z * Z =>
              (10 ^ (k - 1) <=? c.1)%Z && (c.1 <? 10 ^ k)%Z
              && SFeqb (ofDecimal false (Z.to_N c.1) p) x)
           [(t, n); ((t + 1)%Z, n)])
    [n0; (n0 + 1)%Z].

(** Of two candidates the one nearer to [x]; the even one on a tie. *)
Definition nearer (xn xd k : Z) (a b : Z * Z) : Z * Z :=
  let '(an, ad) := distance xn xd a.1 (a.2 - k) in
  let '(bn, bd) := distance xn xd b.1 (b.2 - k) in
  match (an * bd ?= bn * ad)%Z with
  | Lt => a
  | Gt => b
  | Eq => if Z.even a.1 then a else b
  end.

(** The digits [s], the exponent [n] and the digit count [k] of
    Number::toString: [k] is as small as possible. *)
Fixpoint shortest (fuel : nat) (x : number) (xn xd n0 k : Z) : Z * Z * Z :=
  match fuel with
  | O => ((xn * 10 ^ (k - n0) / xd)%Z, n0, k)
  | S f => match candidates x xn xd n0 k with
           | [] => shortest f x xn xd n0 (k + 1)%Z
           | c :: cs => let b := fold_left (nearer xn xd k) cs c in (b.1, b.2, k)
           end
  end.

Definition substr (from len : Z) (s : string) : string :=
  String.substring (Z.to_nat from) (Z.to_nat len) s.

Definition formatDigits (digits : string) (n k : Z) : string :=
  if ((k <=? n) && (n <=? 21))%Z then digits +:+ zeros (n - k)
  else if ((0 <? n) && (n <=? 21))%Z
  then substr 0 n digits +:+ "." +:+ substr n (k - n) digits
  else if ((-6 <? n) && (n <=? 0))%Z then "0." +:+ zeros (- n) +:+ digits
  else
    let e := (n - 1)%Z in
    let es := (if (e <? 0)%Z then "-" else "+") +:+ stringOfN (Z.abs_N e) in
    if (k =? 1)%Z then digits +:+ "e" +:+ es
    else substr 0 1 digits +:+ "." +:+ substr 1 (k - 1) digits +:+ "e" +:+ es.

(** [String(x)], [x.toString()] and the interpolation of a number in a
    template literal. *)
Definition toString (x : number) : string :=
  match x with
  | S754_nan => "NaN"
  | S754_zero _ => "0"
  | S754_infinity s => if s then "-Infinity" else "Infinity"
  | S754_finite s m e =>
      let '(xn, xd) := ratOf m e in
      let n0 := decimalExponent (S (Z.to_nat (- e))) xn xd in
      let '(sd, n, k) := shortest 17 (S754_finite false m e) xn xd n0 1 in
      (if s then "-" else "") +:+ formatDigits (stringOfN (Z.to_N sd)) n k
  end.

Definition fixedDigits (f : nat) (n : Z) : string :=
  let ds := padStart0 (S f) (stringOfN (Z.to_N n)) in
  let k := String.length ds in
  match f with
  | O => ds
  | _ => String.substring 0 (k - f) ds +:+ "." +:+ String.substring (k - f) f ds
  end.

(** [x.toFixed(f)]: the decimal with [f] fraction digits nearest to [x],
    the larger one on a tie. *)
Definition toFixed (f : nat) (x : number) : string :=
  match x with
  | S754_zero _ => fixedDigits f 0
  | S754_finite s m e =>
      let '(xn, xd) := ratOf m e in
      if (10 ^ 21 * xd <=? xn)%Z then toString x
      else (if s then "-" else "")
           +:+ fixedDigits f ((2 * xn * 10 ^ Z.of_nat f + xd) / (2 * xd))%Z
  | _ => toString x
  end.

(** ** Dates

    How [Date.parse] reads a string that is not in the ISO format, and the
    time zone of [getFullYear], [getMonth] and [getDate], depend on the
    engine and the host: both are parameters of the model.  [dateParse]
    gives the time value in milliseconds ([None] stands for [NaN], an
    invalid date) and [dateLocal] the local year, month (from 0) and day of
    the month of a time value. *)

Class DateEngine : Type := {
  dateParse : string -> option Z;
  dateLocal : Z -> Z * Z * Z
}.

(** [new Date(str)]: a missing argument value gives an invalid date. *)
Definition newDate `{DateEngine} (str : option string) : option Z :=
  match str with
  | Some s => dateParse s
  | None => None
  end.

End Js.

(** * types.ts *)

(** [keyof ColumnMapping], in the order of the object literal that
    initialises and clears the mapping: the order of [Object.keys]. *)
Module Key.

Inductive t : Type :=
| date | invoiceNo | customerName | state | taxableValue | igst | cgst | sgst
| totalAmount | gstRate | productName | quantity.

#[global] Instance eq_dec : EqDecision t.
Proof. solve_decision. Defined.

Definition name (k : t) : string :=
  match k with
  | date => "date"
  | invoiceNo => "invoiceNo"
  | customerName => "customerName"
  | state => "state"
  | taxableValue => "taxableValue"
  | igst => "igst"
  | cgst => "cgst"
  | sgst => "sgst"
  | totalAmount => "totalAmount"
  | gstRate => "gstRate"
  | productName => "productName"
  | quantity => "quantity"
  end.

Definition all : list t :=
  [date; invoiceNo; customerName; state; taxableValue; igst; cgst; sgst;
   totalAmount; gstRate; productName; quantity].

End Key.

(** The text fields are declared [string]; a cell read past the end of a
    short row is [undefined] at run time and [processMapping] stores it as
    it is, so the model gives them the type [option string], [None] standing
    for [undefined]. *)
Module MarketplaceTransaction.

Record t : Type := mk {
  date : option string;
  invoiceNo : option string;
  customerName : option string;
  state : option string;
  taxableValue : Js.number;
  igst : Js.number;
  cgst : Js.number;
  sgst : Js.number;
  totalAmount : Js.number;
  gstRate : Js.number;
  productName : option string;
  quantity : Js.number
}.

End MarketplaceTransaction.

Module ColumnMapping.

Record t : Type := mk {
  date : string;
  invoiceNo : string;
  customerName : string;
  state : string;
  taxableValue : string;
  igst : string;
  cgst : string;
  sgst : string;
  totalAmount : string;
  gstRate : string;
  productName : string;
  quantity : string
}.

(** [mapping[key]] *)
Definition get (m : t) (k : Key.t) : string :=
  match k with
  | Key.date => date m
  | Key.invoiceNo => invoiceNo m
  | Key.customerName => customerName m
  | Key.state => state m
  | Key.taxableValue => taxableValue m
  | Key.igst => igst m
  | Key.cgst => cgst m
  | Key.sgst => sgst m
  | Key.totalAmount => totalAmount m
  | Key.gstRate => gstRate m
  | Key.productName => productName m
  | Key.quantity => quantity m
  end.

(** The blank mapping of the initial state and of [clearMappings]. *)
Definition blank : t := mk "" "" "" "" "" "" "" "" "" "" "" "".

End ColumnMapping.

Inductive AppStep : Type := UPLOAD | MAPPING | REVIEW | EXPORT.

(** * services/tallyXmlGenerator.ts *)

Module TallyXmlGenerator.
Import Js.

(** The replacement function of [sanitize]: [str.replace] applies it to
    each occurrence of the five characters of the class (less-than,
    greater-than, ampersand, apostrophe, double quote); every other
    character is kept. *)
Definition escape (c : ascii) : string :=
  if Ascii.eqb c "<" then "&lt;"
  else if Ascii.eqb c ">" then "&gt;"
  else if Ascii.eqb c "&" then "&amp;"
  else if Ascii.eqb c "'" then "&apos;"
  else if Ascii.eqb c (chr 34) then "&quot;"
  else String c EmptyString.

Fixpoint replaceEach (f : ascii -> string) (s : string) : string :=
  match s with
  | EmptyString => EmptyString
  | String c s' => f c +:+ replaceEach f s'
  end.

Definition sanitize (str : option string) : string :=
  match str with
  | Some (String c s) => replaceEach escape (String c s)
  | _ => EmptyString
  end.

Section Generator.
Context `{DateEngine}.

Definition formatDateForTally (dateStr : option string) : string :=
  match newDate dateStr with
  | None => "20240401"
  | Some t =>
      let '(y, m, d) := dateLocal t in
      stringOfZ y +:+ padStart0 2 (stringOfZ (m + 1)) +:+ padStart0 2 (stringOfZ d)
  end.

(** [ledgerOverrides] is a plain object used as a map from default ledger
    names to replacement names. *)
Definition getLedgerName (ledgerOverrides : gmap string string)
    (defaultName : string) : string :=
  let customName := ledgerOverrides !! defaultName in
  sanitize (Some (match customName with
                  | Some c => if truthyStr customName
                                 && negb (String.eqb (trim c) EmptyString)
                              then c else defaultName
                  | None => defaultName
                  end)).

(** The template literals of [generateTallyXml], as functions of the values
    they interpolate. *)
Definition xmlProlog : string :=
  "<?xml version=" +:+ dq +:+ "1.0" +:+ dq +:+ "?>" +:+
  nl +:+ "<ENVELOPE>" +:+
  nl +:+ "  <HEADER>" +:+
  nl +:+ "    <TALLYREQUEST>Import Data</TALLYREQUEST>" +:+
  nl +:+ "  </HEADER>" +:+
  nl +:+ "  <BODY>" +:+
  nl +:+ "    <IMPORTDATA>" +:+
  nl +:+ "      <REQUESTDESC>" +:+
  nl +:+ "        <REPORTNAME>Vouchers</REPORTNAME>" +:+
  nl +:+ "        <STATICVARIABLES>" +:+
  nl +:+ "          <SVCURRENTCOMPANY>Ecommerce Sales</SVCURRENTCOMPANY>" +:+
  nl +:+ "        </STATICVARIABLES>" +:+
  nl +:+ "      </REQUESTDESC>" +:+
  nl +:+ "      <REQUESTDATA>".

Definition voucherHead (voucherDate invoiceNo partyName stateName totalVal
    salesLedger taxableVal productName unitRate qty : string) : string :=
  nl +:+ "        <TALLYMESSAGE xmlns:UDF=" +:+ dq +:+ "TallyUDF" +:+ dq +:+ ">" +:+
  nl +:+ "          <VOUCHER VCHTYPE=" +:+ dq +:+ "Sales" +:+ dq +:+ " ACTION=" +:+ dq +:+ "Create" +:+ dq +:+ " OBJVIEW=" +:+ dq +:+ "Accounting Voucher View" +:+ dq +:+ ">" +:+
  nl +:+ "            <DATE>" +:+ voucherDate +:+ "</DATE>" +:+
  nl +:+ "            <VOUCHERTYPENAME>Sales</VOUCHERTYPENAME>" +:+
  nl +:+ "            <REFERENCE>" +:+ invoiceNo +:+ "</REFERENCE>" +:+
  nl +:+ "            <PARTYLEDGERNAME>" +:+ partyName +:+ "</PARTYLEDGERNAME>" +:+
  nl +:+ "            <STATENAME>" +:+ stateName +:+ "</STATENAME>" +:+
  nl +:+ "            <FBTPAYMENTTYPE>Default</FBTPAYMENTTYPE>" +:+
  nl +:+ "            <PERSISTEDVIEW>Accounting Voucher View</PERSISTEDVIEW>" +:+
  nl +:+ "            " +:+
  nl +:+ "            <!-- Dr Party -->" +:+
  nl +:+ "            <ALLLEDGERENTRIES.LIST>" +:+
  nl +:+ "              <LEDGERNAME>" +:+ partyName +:+ "</LEDGERNAME>" +:+
  nl +:+ "              <ISDEEMEDPOSITIVE>Yes</ISDEEMEDPOSITIVE>" +:+
  nl +:+ "              <AMOUNT>-" +:+ totalVal +:+ "</AMOUNT>" +:+
  nl +:+ "            </ALLLEDGERENTRIES.LIST>" +:+
  nl +:+
  nl +:+ "            <!-- Cr Sales with Inventory -->" +:+
  nl +:+ "            <ALLLEDGERENTRIES.LIST>" +:+
  nl +:+ "              <LEDGERNAME>" +:+ salesLedger +:+ "</LEDGERNAME>" +:+
  nl +:+ "              <ISDEEMEDPOSITIVE>No</ISDEEMEDPOSITIVE>" +:+
  nl +:+ "              <AMOUNT>" +:+ taxableVal +:+ "</AMOUNT>" +:+
  nl +:+ "              <INVENTORYENTRIES.LIST>" +:+
  nl +:+ "                <STOCKITEMNAME>" +:+ productName +:+ "</STOCKITEMNAME>" +:+
  nl +:+ "                <ISDEEMEDPOSITIVE>No</ISDEEMEDPOSITIVE>" +:+
  nl +:+ "                <RATE>" +:+ unitRate +:+ "</RATE>" +:+
  nl +:+ "                <AMOUNT>" +:+ taxableVal +:+ "</AMOUNT>" +:+
  nl +:+ "                <ACTUALQTY>" +:+ qty +:+ " Nos</ACTUALQTY>" +:+
  nl +:+ "                <BILLEDQTY>" +:+ qty +:+ " Nos</BILLEDQTY>" +:+
  nl +:+ "              </INVENTORYENTRIES.LIST>" +:+
  nl +:+ "            </ALLLEDGERENTRIES.LIST>".

(** One credit entry for a tax ledger: the text of the IGST template, which
    the CGST and SGST template repeats twice. *)
Definition taxEntry (ledger amount : string) : string :=
  nl +:+ "            <ALLLEDGERENTRIES.LIST>" +:+
  nl +:+ "              <LEDGERNAME>" +:+ ledger +:+ "</LEDGERNAME>" +:+
  nl +:+ "              <ISDEEMEDPOSITIVE>No</ISDEEMEDPOSITIVE>" +:+
  nl +:+ "              <AMOUNT>" +:+ amount +:+ "</AMOUNT>" +:+
  nl +:+ "            </ALLLEDGERENTRIES.LIST>".

Definition voucherClose : string :=
  nl +:+ "          </VOUCHER>" +:+
  nl +:+ "        </TALLYMESSAGE>".

Definition xmlEpilog : string :=
  nl +:+ "      </REQUESTDATA>" +:+
  nl +:+ "    </IMPORTDATA>" +:+
  nl +:+ "  </BODY>" +:+
  nl +:+ "</ENVELOPE>".

(** The constants that the [forEach] callback computes from [tx], each as
    a function of the transaction (and of the overrides for the ledger
    names). *)
Definition voucherDate (tx : MarketplaceTransaction.t) : string :=
  formatDateForTally (MarketplaceTransaction.date tx).

Definition invoiceNo (tx : MarketplaceTransaction.t) : string :=
  sanitize (MarketplaceTransaction.invoiceNo tx).

Definition partyName (tx : MarketplaceTransaction.t) : string :=
  sanitize (Some (orStr (MarketplaceTransaction.customerName tx) "Cash")).

Definition stateName (tx : MarketplaceTransaction.t) : string :=
  sanitize (Some (orStr (MarketplaceTransaction.state tx) "Maharashtra")).

Definition productName (tx : MarketplaceTransaction.t) : string :=
  sanitize (Some (orStr (MarketplaceTransaction.productName tx) "General Item")).

Definition qty (tx : MarketplaceTransaction.t) : number :=
  orNum (MarketplaceTransaction.quantity tx) (ofZ 1).

Definition taxableVal (tx : MarketplaceTransaction.t) : string :=
  toFixed 2 (MarketplaceTransaction.taxableValue tx).

Definition igstVal (tx : MarketplaceTransaction.t) : string :=
  toFixed 2 (MarketplaceTransaction.igst tx).

Definition cgstVal (tx : MarketplaceTransaction.t) : string :=
  toFixed 2 (MarketplaceTransaction.cgst tx).

Definition sgstVal (tx : MarketplaceTransaction.t) : string :=
  toFixed 2 (MarketplaceTransaction.sgst tx).

Definition totalVal (tx : MarketplaceTransaction.t) : string :=
  toFixed 2 (MarketplaceTransaction.totalAmount tx).

(** [tx.gstRate || 18] *)
Definition rate (tx : MarketplaceTransaction.t) : number :=
  orNum (MarketplaceTransaction.gstRate tx) (ofZ 18).

Section Ledgers.
Variable ledgerOverrides : gmap string string.

Definition salesLedger (tx : MarketplaceTransaction.t) : string :=
  getLedgerName ledgerOverrides ("Sales @ " +:+ toString (rate tx) +:+ "%").

Definition igstLedger (tx : MarketplaceTransaction.t) : string :=
  getLedgerName ledgerOverrides ("Output IGST @ " +:+ toString (rate tx) +:+ "%").

Definition cgstLedger (tx : MarketplaceTransaction.t) : string :=
  getLedgerName ledgerOverrides
    ("Output CGST @ " +:+ toString (div (rate tx) (ofZ 2)) +:+ "%").

Definition sgstLedger (tx : MarketplaceTransaction.t) : string :=
  getLedgerName ledgerOverrides
    ("Output SGST @ " +:+ toString (div (rate tx) (ofZ 2)) +:+ "%").

(** The body of the [forEach] callback: what one transaction appends to
    [xml]. *)
Definition appendVoucher (xml : string) (tx : MarketplaceTransaction.t)
    : string :=
  let xml :=
    xml +:+ voucherHead (voucherDate tx) (invoiceNo tx) (partyName tx)
              (stateName tx) (totalVal tx) (salesLedger tx) (taxableVal tx)
              (productName tx)
              (toFixed 2 (div (MarketplaceTransaction.taxableValue tx) (qty tx)))
              (toString (qty tx)) in
  let xml :=
    if gt (MarketplaceTransaction.igst tx) zero
    then xml +:+ taxEntry (igstLedger tx) (igstVal tx)
    else xml in
  let xml :=
    if gt (MarketplaceTransaction.cgst tx) zero
    then xml +:+ (taxEntry (cgstLedger tx) (cgstVal tx)
                  +:+ taxEntry (sgstLedger tx) (sgstVal tx))
    else xml in
  xml +:+ voucherClose.

End Ledgers.

Definition generateTallyXml (transactions : list MarketplaceTransaction.t)
    (ledgerOverrides : gmap string string) : string :=
  fold_left (appendVoucher ledgerOverrides) transactions xmlProlog +:+ xmlEpilog.

End Generator.
End TallyXmlGenerator.

(** * The App component *)

Module FileData.

Record t : Type := mk {
  name : string;
  headers : list string;
  rawData : list (list string)
}.

End FileData.

(** An entry of [suggestedLedgers]. *)
Module Ledger.

Record t : Type := mk {
  name : string;
  type : string;
  rate : Js.number
}.

End Ledger.

Module App.
Import Js.

(** [cell.replace(/^"|"$/g, '')]: one double quote is removed at the start
    and one at the end of what is left. *)
Definition stripQuotes (cell : string) : string :=
  let s := match cell with
           | String c r => if Ascii.eqb c (chr 34) then r else cell
           | EmptyString => cell
           end in
  match reverse s with
  | String c r => if Ascii.eqb c (chr 34) then reverse r else s
  | EmptyString => s
  end.

Definition parseCSV (csvText : string) : list (list string) :=
  let lines := splitLines csvText in
  filter (fun line : list string => (1 < List.length line)%nat)
    (map (fun line => map (fun cell => stripQuotes (trim cell)) (split "," line))
       lines).

Definition REQUIRED_FIELDS : list Key.t :=
  [Key.date; Key.invoiceNo; Key.customerName; Key.taxableValue;
   Key.totalAmount; Key.gstRate; Key.productName; Key.quantity].

Definition NUMERIC_FIELDS : list Key.t :=
  [Key.taxableValue; Key.igst; Key.cgst; Key.sgst; Key.totalAmount;
   Key.gstRate; Key.quantity].

Definition DATE_FIELDS : list Key.t := [Key.date].

(** The characters that [val.replace(/[^0-9.-]+/g, "")] keeps. *)
Definition numericChar (c : ascii) : bool :=
  isDigit c || (code c =? 46)%N || (code c =? 45)%N.

Definition stripNonNumeric (val : string) : string := filterChars numericChar val.

(** [k.replace(/([A-Z])/g, ' $1')] *)
Definition humanize (k : string) : string :=
  TallyXmlGenerator.replaceEach
    (fun c => if isUpper c then String " " (String c EmptyString)
              else String c EmptyString) k.

(** A file chosen in the upload control: its name and its text. *)
Record File : Type := mkFile {
  fileName : string;
  fileText : string
}.

Record State : Type := mkState {
  step : AppStep;
  uploadedFiles : list FileData.t;
  mapping : ColumnMapping.t;
  transactions : list MarketplaceTransaction.t;
  isProcessing : bool;
  expandedRowIndex : option nat;
  ledgerOverrides : gmap string string
}.

Definition initialState : State :=
  mkState UPLOAD [] ColumnMapping.blank [] false None ∅.

(** Sample cells of the first file that has the header; the cells a short
    row does not have are [undefined] and are filtered out. *)
Fixpoint getSampleData (uploadedFiles : list FileData.t) (header : string)
    (count : nat) : list string :=
  match uploadedFiles with
  | [] => []
  | file :: rest =>
      match indexOf (FileData.headers file) header with
      | Some idx =>
          omap (fun row : list string => row !! idx)
            (take count (FileData.rawData file))
      | None => getSampleData rest header count
      end
  end.

Record Validation : Type := mkValidation {
  errors : gmap string string;
  warnings : gmap string string;
  samples : gmap string (list string)
}.

(** [usedHeaders], a [Map] from a header to the fields mapped to it, in
    insertion order: [get(header).push(key)] after the entry was created
    if it was missing. *)
Fixpoint pushUsed (header : string) (key : Key.t)
    (used : list (string * list Key.t)) : list (string * list Key.t) :=
  match used with
  | [] => [(header, [key])]
  | (h, ks) :: rest =>
      if String.eqb h header then (h, ks ++ [key]) :: rest
      else (h, ks) :: pushUsed header key rest
  end.

Definition looksNumeric (val : string) : bool :=
  match val with
  | EmptyString => true
  | _ => let num := stripNonNumeric val in
         negb (isNaN (parseFloat num)) && isFinite (toNumber num)
  end.

Definition looksDate `{DateEngine} (val : string) : bool :=
  match val with
  | EmptyString => true
  | _ => match dateParse val with Some _ => true | None => false end
  end.

Section Validation.
Context `{DateEngine}.
Variable mapping : ColumnMapping.t.
Variable uploadedFiles : list FileData.t.

(** The body of the first [forEach], over [Object.keys(mapping)]. *)
Definition checkKey (acc : Validation * list (string * list Key.t))
    (key : Key.t) : Validation * list (string * list Key.t) :=
  let '(v, usedHeaders) := acc in
  let header := ColumnMapping.get mapping key in
  if includes REQUIRED_FIELDS key && negb (truthyStr (Some header)) then
    (mkValidation
       (<[Key.name key := "This field is required for Tally import."]> (errors v))
       (warnings v) (samples v), usedHeaders)
  else if truthyStr (Some header) then
    let usedHeaders := pushUsed header key usedHeaders in
    let sampleValues := getSampleData uploadedFiles header 3 in
    let samples := <[Key.name key := sampleValues]> (samples v) in
    let warnings :=
      if includes NUMERIC_FIELDS key && (0 <? List.length sampleValues)%nat
         && negb (forallb looksNumeric sampleValues)
      then <[Key.name key := "Values in some files don't look like numbers."]>
             (warnings v)
      else warnings v in
    let warnings :=
      if includes DATE_FIELDS key && (0 <? List.length sampleValues)%nat
         && negb (forallb looksDate sampleValues)
      then <[Key.name key := "Values in some files don't look like valid dates."]>
             warnings
      else warnings in
    (mkValidation (errors v) warnings samples, usedHeaders)
  else acc.

Definition duplicateMessage (header : string) (keys : list Key.t)
    (key : Key.t) : string :=
  "Duplicate mapping: " +:+ dq +:+ header +:+ dq +:+ " is also used for "
  +:+ join ", "
        (map (fun k => humanize (Key.name k))
           (filter (fun k => k ≠ key) keys))
  +:+ ".".

(** The body of [usedHeaders.forEach]. *)
Definition flagDuplicates (errors : gmap string string)
    (entry : string * list Key.t) : gmap string string :=
  let '(header, keys) := entry in
  if (1 <? List.length keys)%nat
  then fold_left
         (fun errs key => <[Key.name key := duplicateMessage header keys key]> errs)
         keys errors
  else errors.

Definition validationResults : Validation :=
  let '(v, usedHeaders) :=
    fold_left checkKey Key.all (mkValidation ∅ ∅ ∅, []) in
  mkValidation (fold_left flagDuplicates usedHeaders (errors v))
    (warnings v) (samples v).

(** [Object.keys(validationResults.errors).length > 0] *)
Definition hasCriticalErrors : bool :=
  (0 <? size (errors validationResults))%nat.

End Validation.
(** [Array.prototype.sort(compareFn)] as a stable insertion sort: an element
    goes before the first one that [compareFn] places after it (a positive
    result; [NaN] counts as zero). *)
Fixpoint insertSorted {A} (compareFn : A -> A -> number) (x : A) (l : list A)
    : list A :=
  match l with
  | [] => [x]
  | y :: l' => if gt (compareFn y x) zero then x :: y :: l'
               else y :: insertSorted compareFn x l'
  end.

Definition sort {A} (compareFn : A -> A -> number) (l : list A) : list A :=
  fold_left (fun acc x => insertSorted compareFn x acc) l [].

(** [rates.add(x)] on a [Set] of numbers kept in insertion order. *)
Definition setAdd (rates : list number) (x : number) : list number :=
  if existsb (sameValueZero x) rates then rates else rates ++ [x].

(** The set [rates] after the [forEach] over the transactions. *)
Definition collectRates (transactions : list MarketplaceTransaction.t)
    : list number :=
  fold_left
    (fun rates t =>
       if gt (MarketplaceTransaction.gstRate t) zero
       then setAdd rates (MarketplaceTransaction.gstRate t)
       else rates)
    transactions [].

Definition suggestedLedgers (transactions : list MarketplaceTransaction.t)
    : list Ledger.t :=
  let hasIgst :=
    existsb (fun t => gt (MarketplaceTransaction.igst t) zero) transactions in
  let hasCgstSgst :=
    existsb (fun t => gt (MarketplaceTransaction.cgst t) zero
                      || gt (MarketplaceTransaction.sgst t) zero) transactions in
  let rates := collectRates transactions in
  fold_left
    (fun ledgers rate =>
       let ledgers :=
         ledgers ++ [Ledger.mk ("Sales @ " +:+ toString rate +:+ "%")
                       "Sales Ledger" rate] in
       let ledgers :=
         if hasIgst
         then ledgers ++ [Ledger.mk ("Output IGST @ " +:+ toString rate +:+ "%")
                            "Tax Ledger" rate]
         else ledgers in
       if hasCgstSgst
       then ledgers ++ [Ledger.mk ("Output CGST @ " +:+ toString (div rate (ofZ 2)) +:+ "%")
                          "Tax Ledger" rate;
                        Ledger.mk ("Output SGST @ " +:+ toString (div rate (ofZ 2)) +:+ "%")
                          "Tax Ledger" rate]
       else ledgers)
    (sort (fun a b => sub a b) rates) [].

(** The loop of [handleFileUpload]: a file whose text parses to no line
    at all is skipped. *)
Definition ingest (files : list File) : list FileData.t :=
  fold_left
    (fun newFiles file =>
       let data := parseCSV (fileText file) in
       match data with
       | first :: rest => newFiles ++ [FileData.mk (fileName file) first rest]
       | [] => newFiles
       end)
    files [].

Definition handleFileUpload (files : list File) (st : State) : State :=
  match files with
  | [] => st
  | _ => mkState (step st) (uploadedFiles st ++ ingest files) (mapping st)
           (transactions st) false (expandedRowIndex st) (ledgerOverrides st)
  end.

(** [getVal]: the cell under the header mapped to [field]; the empty string
    when the file has no such header, [undefined] ([None]) when the row is
    too short. *)
Definition getVal (mapping : ColumnMapping.t) (file : FileData.t)
    (row : list string) (field : Key.t) : option string :=
  let header := ColumnMapping.get mapping field in
  match indexOf (FileData.headers file) header with
  | Some idx => row !! idx
  | None => Some EmptyString
  end.

(** [parseFloat(val.replace(/[^0-9.-]+/g, ...)) || 0]; on [undefined] the
    call of [replace] throws a TypeError, rendered by [None]. *)
Definition parseFloatSafe (val : option string) : option number :=
  match val with
  | Some v => Some (orNum (parseFloat (stripNonNumeric v)) zero)
  | None => None
  end.

(** The callback of [file.rawData.map]: one transaction per row, or the
    TypeError of [parseFloatSafe]. *)
Definition buildTransaction (mapping : ColumnMapping.t) (file : FileData.t)
    (row : list string) : option MarketplaceTransaction.t :=
  let getVal := getVal mapping file row in
  taxableValue ← parseFloatSafe (getVal Key.taxableValue);
  igst ← parseFloatSafe (getVal Key.igst);
  cgst ← parseFloatSafe (getVal Key.cgst);
  sgst ← parseFloatSafe (getVal Key.sgst);
  totalAmount ← parseFloatSafe (getVal Key.totalAmount);
  gstRate ← parseFloatSafe (getVal Key.gstRate);
  quantity ← parseFloatSafe (getVal Key.quantity);
  Some (MarketplaceTransaction.mk
          (getVal Key.date) (getVal Key.invoiceNo) (getVal Key.customerName)
          (getVal Key.state) taxableValue igst cgst sgst totalAmount gstRate
          (Some (orStr (getVal Key.productName) "General Item"))
          (orNum quantity (ofZ 1))).

(** [allProcessed] after the [forEach] over the uploaded files. *)
Definition buildAll (mapping : ColumnMapping.t) (uploadedFiles : list FileData.t)
    : option (list MarketplaceTransaction.t) :=
  fold_left
    (fun acc file =>
       allProcessed ← acc;
       fileTransactions ← mapM (buildTransaction mapping file) (FileData.rawData file);
       Some (allProcessed ++ fileTransactions))
    uploadedFiles (Some []).

Section Handlers.
Context `{DateEngine}.

(** [processMapping] returns at once while the mapping has errors;
    [None] is the uncaught TypeError of a row too short for a numeric
    field. *)
Definition processMapping (st : State) : option State :=
  if hasCriticalErrors (mapping st) (uploadedFiles st) then Some st
  else
    allProcessed ← buildAll (mapping st) (uploadedFiles st);
    Some (mkState REVIEW (uploadedFiles st) (mapping st) allProcessed false
            None (ledgerOverrides st)).

(** The document that [handleDownload] offers. *)
Definition exportXml (st : State) : string :=
  TallyXmlGenerator.generateTallyXml (transactions st) (ledgerOverrides st).

End Handlers.

(** [headerSet.add(h)] on a [Set] of strings kept in insertion order. *)
Definition addHeader (headerSet : list string) (h : string) : list string :=
  if includes headerSet h then headerSet else headerSet ++ [h].

(** [allHeaders]: the headers of all the uploaded files, each once, in the
    order in which the files bring them. *)
Definition allHeaders (uploadedFiles : list FileData.t) : list string :=
  fold_left
    (fun headerSet f => fold_left addHeader (FileData.headers f) headerSet)
    uploadedFiles [].

(** [arr.filter((_, i) => p(i))], the elements counted from [i]. *)
Fixpoint filterIndex {A} (p : nat -> bool) (i : nat) (l : list A) : list A :=
  match l with
  | [] => []
  | x :: l' => if p i then x :: filterIndex p (S i) l'
               else filterIndex p (S i) l'
  end.

Definition removeFile (index : nat) (st : State) : State :=
  mkState (step st)
    (filterIndex (fun i => negb (i =? index)%nat) 0 (uploadedFiles st))
    (mapping st) (transactions st) (isProcessing st) (expandedRowIndex st)
    (ledgerOverrides st).

(** services/geminiService.ts, [identifyHeaders]: the answer of the remote
    model is no part of the program; [response] is the mapping parsed from
    it, [None] when the call or the parsing throws, which the function
    catches. *)
Definition identifyHeaders (response : option ColumnMapping.t) : ColumnMapping.t :=
  match response with
  | Some aiMapping => aiMapping
  | None => ColumnMapping.blank
  end.

(** [startMapping], given what the awaited call settles to: [None] is a
    rejected promise, caught by the handler. *)
Definition startMapping (settled : option ColumnMapping.t) (st : State) : State :=
  match uploadedFiles st with
  | [] => st
  | _ :: _ =>
      match settled with
      | Some aiMapping =>
          mkState MAPPING (uploadedFiles st) aiMapping (transactions st) false
            (expandedRowIndex st) (ledgerOverrides st)
      | None =>
          mkState MAPPING (uploadedFiles st) (mapping st) (transactions st) false
            (expandedRowIndex st) (ledgerOverrides st)
      end
  end.

Definition clearMappings (st : State) : State :=
  mkState (step st) (uploadedFiles st) ColumnMapping.blank (transactions st)
    (isProcessing st) (expandedRowIndex st) (ledgerOverrides st).

Definition toggleRow (index : nat) (st : State) : State :=
  mkState (step st) (uploadedFiles st) (mapping st) (transactions st)
    (isProcessing st)
    (if bool_decide (expandedRowIndex st = Some index) then None else Some index)
    (ledgerOverrides st).

(** [{...prev, [defaultName]: customName}] *)
Definition handleLedgerOverride (defaultName customName : string) (st : State)
    : State :=
  mkState (step st) (uploadedFiles st) (mapping st) (transactions st)
    (isProcessing st) (expandedRowIndex st)
    (<[defaultName := customName]> (ledgerOverrides st)).

(** The value of the input of a ledger in the preparation guide:
    [ledgerOverrides[ledger.name] || ledger.name]. *)
Definition ledgerInputValue (ledgerOverrides : gmap string string)
    (ledger : Ledger.t) : string :=
  orStr (ledgerOverrides !! Ledger.name ledger) (Ledger.name ledger).

End App.

(** * A date engine for the examples

    It reads the ISO date-only form [YYYY-MM-DD], which every engine reads
    as midnight UTC, takes every other string for an invalid date, and runs
    in the UTC time zone. *)

Module IsoUtc.
Import Js.

Definition daysFromCivil (y m d : Z) : Z :=
  let y' := if (m <=? 2)%Z then (y - 1)%Z else y in
  let era := (y' / 400)%Z in
  let yoe := (y' - era * 400)%Z in
  let doy := ((153 * (m + (if (2 <? m)%Z then -3 else 9)) + 2) / 5 + d - 1)%Z in
  let doe := (yoe * 365 + yoe / 4 - yoe / 100 + doy)%Z in
  (era * 146097 + doe - 719468)%Z.

Definition civilFromDays (z : Z) : Z * Z * Z :=
  let z := (z + 719468)%Z in
  let era := (z / 146097)%Z in
  let doe := (z - era * 146097)%Z in
  let yoe := ((doe - doe / 1460 + doe / 36524 - doe / 146096) / 365)%Z in
  let doy := (doe - (365 * yoe + yoe / 4 - yoe / 100))%Z in
  let mp := ((5 * doy + 2) / 153)%Z in
  let d := (doy - (153 * mp + 2) / 5 + 1)%Z in
  let m := if (mp <? 10)%Z then (mp + 3)%Z else (mp - 9)%Z in
  ((if (m <=? 2)%Z then yoe + era * 400 + 1 else yoe + era * 400)%Z, m, d).

Definition msPerDay : Z := 86400000.

Definition allDigits (s : string) : bool :=
  String.eqb (filterChars isDigit s) s.

Definition parse (s : string) : option Z :=
  let ys := String.substring 0 4 s in
  let ms := String.substring 5 2 s in
  let ds := String.substring 8 2 s in
  if (String.length s =? 10)%nat
     && String.eqb (String.substring 4 1 s) "-"
     && String.eqb (String.substring 7 1 s) "-"
     && allDigits ys && allDigits ms && allDigits ds
  then
    let y := Z.of_N (digitsToN 0 ys) in
    let m := Z.of_N (digitsToN 0 ms) in
    let d := Z.of_N (digitsToN 0 ds) in
    if ((1 <=? m) && (m <=? 12) && (1 <=? d))%Z
       && bool_decide (civilFromDays (daysFromCivil y m d) = (y, m, d))
    then Some (daysFromCivil y m d * msPerDay)%Z
    else None
  else None.

(** The local fields of a time value; months count from 0. *)
Definition localFields (t : Z) : Z * Z * Z :=
  let '(y, m, d) := civilFromDays (t / msPerDay) in (y, (m - 1)%Z, d).

Definition engine : DateEngine := {|
  dateParse := parse;
  dateLocal := localFields
|}.

End IsoUtc.

(** * Vocabulary of the properties *)

Module Spec.
Import Js.

Definition isZero (x : number) : bool :=
  match x with S754_zero _ => true | _ => false end.

(** [needle] occurs somewhere in [hay]. *)
Fixpoint occurs (needle hay : string) : bool :=
  String.prefix needle hay
  || match hay with
     | String _ rest => occurs needle rest
     | EmptyString => false
     end.

(** A text is escaped when it holds no less-than sign, greater-than sign,
    apostrophe or double quote, and each of its ampersands opens one of the
    five entities. *)
Fixpoint isEscaped (s : string) : bool :=
  match s with
  | EmptyString => true
  | String c rest =>
      if Ascii.eqb c "<" || Ascii.eqb c ">" || Ascii.eqb c "'"
         || Ascii.eqb c (chr 34)
      then false
      else if Ascii.eqb c "&"
      then (String.prefix "lt;" rest || String.prefix "gt;" rest
            || String.prefix "amp;" rest || String.prefix "apos;" rest
            || String.prefix "quot;" rest) && isEscaped rest
      else isEscaped rest
  end.

(** Reading the five entities back. *)
Fixpoint unescape (s : string) : string :=
  match s with
  | EmptyString => EmptyString
  | String c rest =>
      if Ascii.eqb c "&" then
        if String.prefix "lt;" rest
        then String "<" (unescape (dropChars 3 rest))
        else if String.prefix "gt;" rest
        then String ">" (unescape (dropChars 3 rest))
        else if String.prefix "amp;" rest
        then String "&" (unescape (dropChars 4 rest))
        else if String.prefix "apos;" rest
        then String "'" (unescape (dropChars 5 rest))
        else if String.prefix "quot;" rest
        then String (chr 34) (unescape (dropChars 5 rest))
        else String c (unescape rest)
      else String c (unescape rest)
  end.

(** The text that one transaction contributes to the document. *)
Definition voucher `{DateEngine} (ledgerOverrides : gmap string string)
    (tx : MarketplaceTransaction.t) : string :=
  TallyXmlGenerator.appendVoucher ledgerOverrides EmptyString tx.

(** The ledgers of one rate, in the words of the specification: the sales
    ledger always, the IGST ledger under the first flag, the CGST and SGST
    ledgers at half the rate under the second. *)
Definition ledgersFor (hasIgst hasCgstSgst : bool) (rate : number)
    : list Ledger.t :=
  [Ledger.mk ("Sales @ " +:+ toString rate +:+ "%") "Sales Ledger" rate]
  ++ (if hasIgst
      then [Ledger.mk ("Output IGST @ " +:+ toString rate +:+ "%") "Tax Ledger" rate]
      else [])
  ++ (if hasCgstSgst
      then [Ledger.mk ("Output CGST @ " +:+ toString (div rate (ofZ 2)) +:+ "%")
              "Tax Ledger" rate;
            Ledger.mk ("Output SGST @ " +:+ toString (div rate (ofZ 2)) +:+ "%")
              "Tax Ledger" rate]
      else []).

Definition hasIgst (transactions : list MarketplaceTransaction.t) : bool :=
  existsb (fun t => gt (MarketplaceTransaction.igst t) zero) transactions.

Definition hasCgstSgst (transactions : list MarketplaceTransaction.t) : bool :=
  existsb (fun t => gt (MarketplaceTransaction.cgst t) zero
                    || gt (MarketplaceTransaction.sgst t) zero) transactions.

(** A number is a binary64 value when its mantissa and exponent are in
    range. *)
Definition isBinary64 (x : number) : bool := valid_binary prec emax x.

(** The rest of the vocabulary names what the proofs follow through the
    loops of the program. *)

(** What one file contributes to [newFiles]. *)
Definition contribution (file : App.File) : list FileData.t :=
  match App.parseCSV (App.fileText file) with
  | first :: rest => [FileData.mk (App.fileName file) first rest]
  | [] => []
  end.

Definition requiredMessage : string := "This field is required for Tally import.".

(** What [checkKey] does to [errors] and [usedHeaders]: neither depends on
    the samples, the warnings or the date engine. *)
Definition checkKeyErrors (mapping : ColumnMapping.t)
    (acc : gmap string string * list (string * list Key.t)) (key : Key.t)
    : gmap string string * list (string * list Key.t) :=
  let header := ColumnMapping.get mapping key in
  if includes App.REQUIRED_FIELDS key && negb (truthyStr (Some header))
  then (<[Key.name key := requiredMessage]> acc.1, acc.2)
  else if truthyStr (Some header) then (acc.1, App.pushUsed header key acc.2)
  else acc.

(** The fields mapped to [header] in [usedHeaders]. *)
Fixpoint usedBy (header : string) (used : list (string * list Key.t))
    : list Key.t :=
  match used with
  | [] => []
  | (h, ks) :: rest => if String.eqb h header then ks else usedBy header rest
  end.

(** The headers of [usedHeaders] are distinct and none is empty. *)
Definition wellKeyed (used : list (string * list Key.t)) : Prop :=
  NoDup (used.*1) /\ "" ∉ (used.*1).

(** The fields mapped to [header], in the order of the keys. *)
Definition colliders (mapping : ColumnMapping.t) (header : string) : list Key.t :=
  filter (fun k => ColumnMapping.get mapping k = header) Key.all.

(** The numbers that the rates can be: positive binary64 values. *)
Definition rateLike (x : number) : Prop :=
  gt x zero = true /\ isBinary64 x = true.

Definition ascending : number -> number -> Prop :=
  fun x y => SFltb x y = true.

(** Later elements differ from earlier ones, in the sense of [Set]. *)
Definition distinctRates (l : list number) : Prop :=
  ForallOrdPairs (fun a b => sameValueZero b a = false) l.

(** [d] is the number of binary digits of [m >= 0]. *)
Definition digitsOf (m d : Z) : Prop :=
  ((m = 0 /\ d = 0) \/ (0 < d /\ 2 ^ (d - 1) <= m < 2 ^ d))%Z.

(** The exponent [e] is the one of the format for the mantissa [m]. *)
Definition canonical (m e : Z) : Prop := fexp prec emax (Zdigits2 m + e)%Z = e.

(** The character [c] does not occur in [s]. *)
Fixpoint lacks (c : ascii) (s : string) : bool :=
  match s with
  | EmptyString => true
  | String d rest => negb (Ascii.eqb d c) && lacks c rest
  end.

(** The number of places of [hay] at which [needle] starts. *)
Fixpoint count (needle hay : string) : nat :=
  ((if String.prefix needle hay then 1 else 0)
   + match hay with
     | String _ rest => count needle rest
     | EmptyString => 0
     end)%nat.

(** The number of occurrences of the character [c] in [s]. *)
Fixpoint countChar (c : ascii) (s : string) : nat :=
  match s with
  | EmptyString => 0%nat
  | String d rest => ((if Ascii.eqb d c then 1 else 0) + countChar c rest)%nat
  end.

(** The rows of the uploaded files, each with its file, in the order of
    the files and of their rows. *)
Definition rowsOf (files : list FileData.t) : list (FileData.t * list string) :=
  flat_map (fun file => map (pair file) (FileData.rawData file)) files.

Definition numericWarning : string := "Values in some files don't look like numbers.".
Definition dateWarning : string := "Values in some files don't look like valid dates.".

(** The warning that the samples of a mapped field give rise to. *)
Definition warningOf `{DateEngine} (key : Key.t) (sampleValues : list string)
    : option string :=
  if bool_decide (key ∈ App.DATE_FIELDS) && (0 <? List.length sampleValues)%nat
     && negb (forallb App.looksDate sampleValues)
  then Some dateWarning
  else if bool_decide (key ∈ App.NUMERIC_FIELDS) && (0 <? List.length sampleValues)%nat
          && negb (forallb App.looksNumeric sampleValues)
  then Some numericWarning
  else None.

(** The number of ledger entries of the voucher of a transaction: the
    debit of the party, the credit of the sales ledger and the tax
    entries. *)
Definition entriesOf (tx : MarketplaceTransaction.t) : nat :=
  (2 + (if gt (MarketplaceTransaction.igst tx) zero then 1 else 0)
   + (if gt (MarketplaceTransaction.cgst tx) zero then 2 else 0))%nat.

(** The keys of a record indexed by the fields of the mapping are names
    of fields. *)
Definition fieldKeyed {V} (m : gmap string V) : Prop :=
  forall s, is_Some (m !! s) -> exists k, s = Key.name k.

(** The errors of the blank mapping. *)
Definition blankErrors : gmap string string :=
  list_to_map (map (fun k => (Key.name k, requiredMessage)) App.REQUIRED_FIELDS).

(** Every character of [s] satisfies [p]. *)
Fixpoint allChars (p : ascii -> bool) (s : string) : bool :=
  match s with
  | EmptyString => true
  | String c rest => p c && allChars p rest
  end.

(** The numbers of a transaction. *)
Definition numbersOf (tx : MarketplaceTransaction.t) : list number :=
  [MarketplaceTransaction.taxableValue tx; MarketplaceTransaction.igst tx;
   MarketplaceTransaction.cgst tx; MarketplaceTransaction.sgst tx;
   MarketplaceTransaction.totalAmount tx; MarketplaceTransaction.gstRate tx;
   MarketplaceTransaction.quantity tx].

(** Every data row of every file has a cell under each header. *)
Definition fullRows (files : list FileData.t) : Prop :=
  Forall (fun file =>
            Forall (fun row : list string =>
                      (List.length (FileData.headers file) <= List.length row)%nat)
              (FileData.rawData file)) files.

(** The cells of a line of the report. *)
Definition cellsOf (line : string) : list string :=
  map (fun cell => App.stripQuotes (trim cell)) (split "," line).

(** A file entry that the upload can have made: a header row and data
    rows of two cells or more each. *)
Definition tabular (source : FileData.t) : Prop :=
  (2 <= List.length (FileData.headers source))%nat
  /\ Forall (fun row : list string => (2 <= List.length row)%nat)
       (FileData.rawData source).

(** The entry that the upload makes of a file: none when [parseCSV] finds
    no row in its text. *)
Definition sourceOf (file : App.File) : option FileData.t :=
  match App.parseCSV (App.fileText file) with
  | first :: rest => Some (FileData.mk (App.fileName file) first rest)
  | [] => None
  end.

(** A text without any of the five characters that [sanitize] replaces. *)
Definition plain (s : string) : bool :=
  lacks "<" s && lacks ">" s && lacks "&" s && lacks "'" s && lacks (chr 34) s.

(** The local fields of a date with a year of four digits. *)
Definition fourDigitYear (fields : Z * Z * Z) : Prop :=
  let '(y, m, d) := fields in
  (1000 <= y <= 9999 /\ 0 <= m <= 11 /\ 1 <= d <= 31)%Z.

(** Whether [needle] starts at the head of a text that begins with
    [text] is settled by [text] alone: either [needle] starts there, or the
    two differ at some place. *)
Definition settled (needle text : string) : bool :=
  String.prefix needle text || negb (String.prefix text needle).

(** Every end of [text] settles where [needle] starts. *)
Fixpoint selfContained (needle text : string) : bool :=
  match text with
  | EmptyString => true
  | String _ rest => settled needle text && selfContained needle rest
  end.

(** The tags of a kind in the voucher of a transaction: one opening and
    one closing VOUCHER tag, and the opening tags of the ledger entries. *)
Definition tagsIn (needle : string) (tx : MarketplaceTransaction.t) : nat :=
  if String.eqb needle "<ALLLEDGERENTRIES.LIST" then entriesOf tx else 1%nat.

(** The tags that the properties count. *)
Definition countedTags : list string :=
  ["<VOUCHER "; "</VOUCHER>"; "<ALLLEDGERENTRIES.LIST"; "<PARTYLEDGERNAME>";
   "<STATENAME>"; "<ISDEEMEDPOSITIVE>Yes"].

(** The lines of the voucher that name the party and its state: the
    PARTYLEDGERNAME and STATENAME elements and the entry that debits the
    party, as the template has them, with the texts that it inserts. *)
Definition partyLines (partyName stateName totalVal : string) : string :=
  nl +:+ "            <PARTYLEDGERNAME>" +:+ partyName +:+ "</PARTYLEDGERNAME>" +:+
  nl +:+ "            <STATENAME>" +:+ stateName +:+ "</STATENAME>" +:+
  nl +:+ "            <FBTPAYMENTTYPE>Default</FBTPAYMENTTYPE>" +:+
  nl +:+ "            <PERSISTEDVIEW>Accounting Voucher View</PERSISTEDVIEW>" +:+
  nl +:+ "            " +:+
  nl +:+ "            <!-- Dr Party -->" +:+
  nl +:+ "            <ALLLEDGERENTRIES.LIST>" +:+
  nl +:+ "              <LEDGERNAME>" +:+ partyName +:+ "</LEDGERNAME>" +:+
  nl +:+ "              <ISDEEMEDPOSITIVE>Yes</ISDEEMEDPOSITIVE>" +:+
  nl +:+ "              <AMOUNT>-" +:+ totalVal +:+ "</AMOUNT>" +:+
  nl +:+ "            </ALLLEDGERENTRIES.LIST>".

End Spec.

(** * Examples *)

Module Examples.
Import Js App.

Definition txSgstOnly : MarketplaceTransaction.t :=
  MarketplaceTransaction.mk (Some "2024-04-15") (Some "INV001") (Some "Alice")
    (Some "Goa") (ofZ 1000) zero zero (ofZ 90) (ofZ 1090) (ofZ 18)
    (Some "Widget") (ofZ 1).
Definition txNegativeRate : MarketplaceTransaction.t :=
  MarketplaceTransaction.mk (Some "2024-04-15") (Some "INV002") (Some "Bob")
    (Some "Goa") (ofZ 1000) zero zero zero (ofZ 1000) (ofZ (-5))
    (Some "Widget") (ofZ 1).

Definition scenarioMapping : ColumnMapping.t :=
  ColumnMapping.mk "Date" "Invoice No" "Name" "" "Taxable Value" "IGST" "" ""
    "Invoice Amount" "Rate" "Item" "Qty".
Definition scenarioHeaders : list string :=
  ["Date"; "Invoice No"; "Name"; "Taxable Value"; "IGST"; "Rate"; "Qty";
   "Item"; "Invoice Amount"].
Definition scenarioRow : list string :=
  ["2024-04-15"; "INV001"; "Alice"; "1000"; "180"; "18"; "2"; "Widget"; "18000"].
Definition scenarioFile : FileData.t :=
  FileData.mk "report.csv" scenarioHeaders [scenarioRow].
Definition scenarioTransaction : MarketplaceTransaction.t :=
  MarketplaceTransaction.mk (Some "2024-04-15") (Some "INV001") (Some "Alice")
    (Some "") (ofZ 1000) (ofZ 180) zero zero (ofZ 18000) (ofZ 18)
    (Some "Widget") (ofZ 2).
Definition negativeQtyFile : FileData.t :=
  FileData.mk "returns.csv" scenarioHeaders
    [["2024-04-15"; "INV001"; "Alice"; "1000"; "180"; "18"; "-3"; "Widget"; "18000"]].
Definition emptyFile : File := mkFile "empty.csv" "".

Definition txIgst : MarketplaceTransaction.t :=
  MarketplaceTransaction.mk (Some "2024-04-15") (Some "INV001") (Some "Alice")
    (Some "Goa") (ofZ 1000) (ofZ 180) zero zero (ofZ 1180) (ofZ 18)
    (Some "Widget") (ofZ 1).
Definition txCgstSgst : MarketplaceTransaction.t :=
  MarketplaceTransaction.mk (Some "2024-04-16") (Some "INV002") (Some "Bob")
    (Some "Maharashtra") (ofZ 1000) zero (ofZ 90) (ofZ 90) (ofZ 1180) (ofZ 18)
    (Some "Widget") (ofZ 1).

Definition duplicateMapping : ColumnMapping.t :=
  ColumnMapping.mk "Date" "Invoice No" "Name" "Name" "Taxable Value" "IGST" ""
    "" "Invoice Amount" "Rate" "Name" "Qty".

(** A return: the amounts are below zero. *)
Definition txRefund : MarketplaceTransaction.t :=
  MarketplaceTransaction.mk (Some "2024-04-20") (Some "CN001") (Some "Alice")
    (Some "Goa") (ofZ (-1000)) (ofZ (-180)) zero zero (ofZ (-1180)) (ofZ 18)
    (Some "Widget") (ofZ 1).

End Examples.

(** * Properties *)

#[local] Arguments String.append : simpl nomatch.

Ltac case_eqb :=
  match goal with
  | |- context [String.eqb ?a ?b] => destruct (String.eqb_spec a b); subst
  end.

Section StringFacts.
Import Js TallyXmlGenerator Spec.

(** ** Strings *)

Lemma append_nil_r (s : string) : s +:+ "" = s.
Proof. induction s as [|c s IH]; cbn; [done | by f_equal]. Qed.

Lemma append_assoc (a b c : string) : (a +:+ b) +:+ c = a +:+ (b +:+ c).
Proof. induction a as [|x a IH]; cbn; [done | by f_equal]. Qed.

Lemma prefix_append (p s : string) : String.prefix p (p +:+ s) = true.
Proof.
  induction p as [|c p IH]; cbn; [by destruct s |].
  destruct (ascii_dec c c); [exact IH | done].
Qed.

Lemma occurs_prefix (needle hay : string) :
  String.prefix needle hay = true -> Spec.occurs needle hay = true.
Proof. intros Hp. destruct hay; cbn [Spec.occurs]; rewrite Hp; done. Qed.

Lemma occurs_append (needle pre post : string) :
  Spec.occurs needle (pre +:+ needle +:+ post) = true.
Proof.
  induction pre as [|c pre IH]; cbn.
  - apply occurs_prefix, prefix_append.
  - rewrite IH. apply orb_true_r.
Qed.

(** ** sanitize *)

Lemma escape_other (c : ascii) :
  Ascii.eqb c "<" = false -> Ascii.eqb c ">" = false ->
  Ascii.eqb c "&" = false -> Ascii.eqb c "'" = false ->
  Ascii.eqb c (chr 34) = false -> escape c = String c "".
Proof. unfold escape. by intros -> -> -> -> ->. Qed.

(** The five special characters, or any other one. *)
Lemma special_cases (c : ascii) :
  c = "<"%char \/ c = ">"%char \/ c = "&"%char \/ c = "'"%char \/ c = chr 34
  \/ (Ascii.eqb c "<" = false /\ Ascii.eqb c ">" = false
      /\ Ascii.eqb c "&" = false /\ Ascii.eqb c "'" = false
      /\ Ascii.eqb c (chr 34) = false).
Proof.
  destruct (Ascii.eqb_spec c "<"); [tauto |].
  destruct (Ascii.eqb_spec c ">"); [tauto |].
  destruct (Ascii.eqb_spec c "&"); [tauto |].
  destruct (Ascii.eqb_spec c "'"); [tauto |].
  destruct (Ascii.eqb_spec c (chr 34)); tauto.
Qed.

Lemma isEscaped_escape (c : ascii) (s : string) :
  Spec.isEscaped (escape c +:+ s) = Spec.isEscaped s.
Proof.
  destruct (special_cases c) as [-> | [-> | [-> | [-> | [-> | H]]]]];
    try (destruct s; reflexivity).
  destruct H as (H1 & H2 & H3 & H4 & H5).
  rewrite escape_other by done.
  cbn [String.append Spec.isEscaped]. by rewrite H1, H2, H3, H4, H5.
Qed.

Lemma isEscaped_replaceEach (s : string) :
  Spec.isEscaped (replaceEach escape s) = true.
Proof.
  induction s as [|c s IH]; [done |].
  cbn [replaceEach]. by rewrite isEscaped_escape.
Qed.

Lemma isEscaped_sanitize (o : option string) : Spec.isEscaped (sanitize o) = true.
Proof.
  destruct o as [[|c s]|]; try done.
  unfold sanitize. apply isEscaped_replaceEach.
Qed.

Lemma unescape_escape (c : ascii) (s : string) :
  Spec.unescape (escape c +:+ s) = String c (Spec.unescape s).
Proof.
  destruct (special_cases c) as [-> | [-> | [-> | [-> | [-> | H]]]]];
    try (destruct s; reflexivity).
  destruct H as (H1 & H2 & H3 & H4 & H5).
  rewrite escape_other by done.
  cbn [String.append Spec.unescape]. by rewrite H3.
Qed.

Lemma unescape_replaceEach (s : string) :
  Spec.unescape (replaceEach escape s) = s.
Proof.
  induction s as [|c s IH]; [done |].
  cbn [replaceEach]. by rewrite unescape_escape, IH.
Qed.

End StringFacts.

Section GeneratorProperties.
Import Js TallyXmlGenerator Spec.

Section GeneratorFacts.
Context `{DateEngine}.
Variable ledgerOverrides : gmap string string.

Lemma voucher_eq (tx : MarketplaceTransaction.t) :
  Spec.voucher ledgerOverrides tx =
  voucherHead (voucherDate tx) (invoiceNo tx) (partyName tx) (stateName tx)
    (totalVal tx) (salesLedger ledgerOverrides tx) (taxableVal tx)
    (productName tx)
    (toFixed 2 (div (MarketplaceTransaction.taxableValue tx) (qty tx)))
    (toString (qty tx))
  +:+ (if gt (MarketplaceTransaction.igst tx) zero
       then taxEntry (igstLedger ledgerOverrides tx) (igstVal tx) else "")
  +:+ (if gt (MarketplaceTransaction.cgst tx) zero
       then taxEntry (cgstLedger ledgerOverrides tx) (cgstVal tx)
            +:+ taxEntry (sgstLedger ledgerOverrides tx) (sgstVal tx)
       else "")
  +:+ voucherClose.
Proof.
  unfold Spec.voucher, appendVoucher.
  destruct (gt (MarketplaceTransaction.igst tx) zero),
    (gt (MarketplaceTransaction.cgst tx) zero);
    cbn [String.append]; rewrite ?append_assoc, ?append_nil_r; reflexivity.
Qed.

Lemma appendVoucher_voucher (xml : string) (tx : MarketplaceTransaction.t) :
  appendVoucher ledgerOverrides xml tx = xml +:+ Spec.voucher ledgerOverrides tx.
Proof.
  unfold Spec.voucher, appendVoucher.
  destruct (gt (MarketplaceTransaction.igst tx) zero),
    (gt (MarketplaceTransaction.cgst tx) zero);
    cbn [String.append]; rewrite ?append_assoc; reflexivity.
Qed.

Lemma fold_appendVoucher (txs : list MarketplaceTransaction.t) (xml : string) :
  fold_left (appendVoucher ledgerOverrides) txs xml =
  xml +:+ String.concat "" (map (Spec.voucher ledgerOverrides) txs).
Proof.
  revert xml. induction txs as [|tx txs IH]; intros xml.
  - by rewrite append_nil_r.
  - cbn [fold_left map]. rewrite IH, appendVoucher_voucher, append_assoc.
    f_equal. destruct txs; cbn; by rewrite ?append_nil_r.
Qed.

(** The document is the prolog, one voucher per transaction in order, and
    the epilog. *)
Lemma generateTallyXml_eq (txs : list MarketplaceTransaction.t) :
  generateTallyXml txs ledgerOverrides =
  xmlProlog +:+ String.concat "" (map (Spec.voucher ledgerOverrides) txs)
  +:+ xmlEpilog.
Proof. unfold generateTallyXml. by rewrite fold_appendVoucher, append_assoc. Qed.

End GeneratorFacts.

Section Claims.
Context `{DateEngine}.

(** C9. The invoice number, party name, state name, product name and the
    four resolved ledger names are inserted in the voucher in escaped form:
    the inserted text holds none of the characters [<], [>], ['] and the
    double quote, each of its ampersands opens one of the five entities,
    and reading the entities back gives the original text. *)
Theorem inserted_text_is_escaped (ledgerOverrides : gmap string string)
    (tx : MarketplaceTransaction.t) :
  Spec.voucher ledgerOverrides tx =
    voucherHead (voucherDate tx) (invoiceNo tx) (partyName tx) (stateName tx)
      (totalVal tx) (salesLedger ledgerOverrides tx) (taxableVal tx)
      (productName tx)
      (toFixed 2 (div (MarketplaceTransaction.taxableValue tx) (qty tx)))
      (toString (qty tx))
    +:+ (if gt (MarketplaceTransaction.igst tx) zero
         then taxEntry (igstLedger ledgerOverrides tx) (igstVal tx) else "")
    +:+ (if gt (MarketplaceTransaction.cgst tx) zero
         then taxEntry (cgstLedger ledgerOverrides tx) (cgstVal tx)
              +:+ taxEntry (sgstLedger ledgerOverrides tx) (sgstVal tx)
         else "")
    +:+ voucherClose
  /\ Forall (fun text => Spec.isEscaped text = true)
       [invoiceNo tx; partyName tx; stateName tx; productName tx;
        salesLedger ledgerOverrides tx; igstLedger ledgerOverrides tx;
        cgstLedger ledgerOverrides tx; sgstLedger ledgerOverrides tx]
  /\ Spec.unescape (invoiceNo tx)
     = default "" (MarketplaceTransaction.invoiceNo tx)
  /\ Spec.unescape (partyName tx)
     = orStr (MarketplaceTransaction.customerName tx) "Cash"
  /\ Spec.unescape (stateName tx)
     = orStr (MarketplaceTransaction.state tx) "Maharashtra"
  /\ Spec.unescape (productName tx)
     = orStr (MarketplaceTransaction.productName tx) "General Item"
  /\ (forall defaultName,
        Spec.isEscaped (getLedgerName ledgerOverrides defaultName) = true
        /\ Spec.unescape (getLedgerName ledgerOverrides defaultName)
           = match ledgerOverrides !! defaultName with
             | Some custom =>
                 if bool_decide (trim custom = "") then defaultName else custom
             | None => defaultName
             end).
Proof.
  split; [apply voucher_eq |].
  split; [repeat constructor; apply isEscaped_sanitize |].
  assert (Hun : forall o, Spec.unescape (sanitize o) = default "" o).
  { intros [[|c s]|]; try done. unfold sanitize. apply unescape_replaceEach. }
  assert (Hor : forall o d, default "" (Some (orStr o d)) = orStr o d) by done.
  unfold invoiceNo, partyName, stateName, productName.
  rewrite !Hun, !Hor. do 4 (split; [done |]).
  intros defaultName. split; [apply isEscaped_sanitize |].
  unfold getLedgerName. rewrite Hun.
  destruct (ledgerOverrides !! defaultName) as [custom|]; [| done].
  cbn [default]. case_bool_decide as Ht.
  - rewrite Ht. cbn. by rewrite andb_false_r.
  - destruct custom as [|c s]; [done |].
    cbn [truthyStr andb]. by destruct (String.eqb_spec (trim (String c s)) "").
Qed.

(** C3 (as amended). The rate of the default ledger names is the
    transaction's own gstRate whenever that is not zero, be it positive or
    negative, and 18 when it is zero (or NaN); the four names are built from
    that rate, the CGST and SGST names from its half. *)
Theorem rate_falls_back_on_zero_only (ledgerOverrides : gmap string string)
    (tx : MarketplaceTransaction.t) :
  let g := MarketplaceTransaction.gstRate tx in
  rate tx = (if gt g zero || gt zero g then g else ofZ 18)
  /\ salesLedger ledgerOverrides tx
     = getLedgerName ledgerOverrides ("Sales @ " +:+ toString (rate tx) +:+ "%")
  /\ igstLedger ledgerOverrides tx
     = getLedgerName ledgerOverrides ("Output IGST @ " +:+ toString (rate tx) +:+ "%")
  /\ cgstLedger ledgerOverrides tx
     = getLedgerName ledgerOverrides
         ("Output CGST @ " +:+ toString (div (rate tx) (ofZ 2)) +:+ "%")
  /\ sgstLedger ledgerOverrides tx
     = getLedgerName ledgerOverrides
         ("Output SGST @ " +:+ toString (div (rate tx) (ofZ 2)) +:+ "%").
Proof.
  cbn zeta. split; [| done].
  unfold rate, orNum.
  by destruct (MarketplaceTransaction.gstRate tx) as [[]| [] | | [] m e].
Qed.

End Claims.

(** C1. A transaction with cgst = 0 and sgst = 90: the voucher has no tax
    entry at all, since the CGST and SGST entries are written under the
    test [tx.cgst > 0] alone. *)
Theorem sgst_only_voucher_has_no_tax_entry :
  let tx := Examples.txSgstOnly in
  gt (MarketplaceTransaction.cgst tx) zero = false
  /\ gt (MarketplaceTransaction.sgst tx) zero = true
  /\ Spec.voucher (H := IsoUtc.engine) ∅ tx =
       voucherHead "20240415" "INV001" "Alice" "Goa" "1090.00" "Sales @ 18%"
         "1000.00" "Widget" "1000.00" "1" +:+ voucherClose
  /\ Spec.occurs "Output CGST"
       (generateTallyXml (H := IsoUtc.engine) [tx] ∅) = false
  /\ Spec.occurs "Output SGST"
       (generateTallyXml (H := IsoUtc.engine) [tx] ∅) = false.
Proof. vm_compute. done. Qed.

(** C3, counterexample: a gstRate of -5 is at most 0 and yet it is the rate
    of the ledger names, not 18. *)
Lemma negative_gstRate_is_kept :
  let tx := Examples.txNegativeRate in
  SFleb (MarketplaceTransaction.gstRate tx) zero = true
  /\ rate tx <> ofZ 18
  /\ salesLedger ∅ tx = "Sales @ -5%"
  /\ cgstLedger ∅ tx = "Output CGST @ -2.5%".
Proof. vm_compute. repeat split; done. Qed.

End GeneratorProperties.

Section IngestionProperties.
Import Js App Spec.

(** ** Ingestion *)

Lemma ingest_from (files : list File) (acc : list FileData.t) :
  fold_left
    (fun newFiles file =>
       match parseCSV (fileText file) with
       | first :: rest => newFiles ++ [FileData.mk (fileName file) first rest]
       | [] => newFiles
       end) files acc
  = acc ++ List.concat (map contribution files).
Proof.
  revert acc.
  induction files as [|file files IH]; intros acc; cbn [fold_left map List.concat].
  - by rewrite app_nil_r.
  - rewrite IH, app_assoc. do 2 f_equal.
    unfold contribution. destruct (parseCSV (fileText file)); by rewrite ?app_nil_r.
Qed.

Lemma ingest_concat (files : list File) :
  ingest files = List.concat (map contribution files).
Proof. unfold ingest. by rewrite ingest_from. Qed.

Lemma parseCSV_no_usable_line (text : string) :
  Forall (fun line => (List.length (split "," line) < 2)%nat) (splitLines text) ->
  parseCSV text = [].
Proof.
  unfold parseCSV. induction 1 as [|line lines Hline _ IH]; [done |].
  cbn [map]. rewrite filter_cons, IH.
  case_decide as Hlen; [| done].
  rewrite length_map in Hlen. lia.
Qed.

Lemma uploadedFiles_handleFileUpload (files : list File) (st : State) :
  uploadedFiles (handleFileUpload files st) = uploadedFiles st ++ ingest files.
Proof. destruct files; [cbn; by rewrite app_nil_r | done]. Qed.

(** C4 (as amended). A file whose lines all split into fewer than two cells
    parses to no line at all, and the upload skips it: no Source is added
    for it, so the uploaded files, and the transactions built from them
    under any mapping, are those of the selection without that file. *)
Theorem file_without_usable_line_is_skipped (file : File)
    (before after : list File) (st : State) :
  Forall (fun line => (List.length (split "," line) < 2)%nat)
    (splitLines (fileText file)) ->
  parseCSV (fileText file) = []
  /\ ingest [file] = []
  /\ uploadedFiles (handleFileUpload [file] st) = uploadedFiles st
  /\ uploadedFiles (handleFileUpload (before ++ file :: after) st)
     = uploadedFiles (handleFileUpload (before ++ after) st)
  /\ forall mapping,
       buildAll mapping (uploadedFiles (handleFileUpload (before ++ file :: after) st))
       = buildAll mapping (uploadedFiles (handleFileUpload (before ++ after) st)).
Proof.
  intros Hlines. pose proof (parseCSV_no_usable_line _ Hlines) as Hparse.
  assert (Hone : ingest [file] = []) by (unfold ingest; cbn; by rewrite Hparse).
  assert (Hing : ingest (before ++ file :: after) = ingest (before ++ after)).
  { rewrite !ingest_concat, !map_app, !concat_app. cbn [map List.concat].
    unfold contribution at 2. by rewrite Hparse. }
  assert (Hup : uploadedFiles (handleFileUpload (before ++ file :: after) st)
                = uploadedFiles (handleFileUpload (before ++ after) st))
    by (by rewrite !uploadedFiles_handleFileUpload, Hing).
  repeat split; try done.
  - rewrite uploadedFiles_handleFileUpload, Hone. apply app_nil_r.
  - intros mapping. by rewrite Hup.
Qed.

Lemma file_without_usable_line_is_skipped_witness :
  parseCSV "" = []
  /\ uploadedFiles (handleFileUpload [Examples.emptyFile] initialState) = [].
Proof.
  destruct (file_without_usable_line_is_skipped Examples.emptyFile [] []
              initialState) as (H1 & _ & H3 & _).
  - repeat constructor.
  - split; [exact H1 | exact H3].
Defined.

(** C4, counterexample: after the upload of an empty file there is no
    Source at all, hence none with zero headers and zero rows. *)
Lemma empty_file_adds_no_source :
  let st := handleFileUpload [Examples.emptyFile] initialState in
  Forall (fun line => (List.length (split "," line) < 2)%nat)
    (splitLines (fileText Examples.emptyFile))
  /\ uploadedFiles st = []
  /\ ~ exists source, source ∈ uploadedFiles st
                      /\ FileData.headers source = []
                      /\ FileData.rawData source = [].
Proof.
  cbn zeta. split; [repeat constructor |]. split; [done |].
  intros (source & Hin & _). vm_compute in Hin. by apply elem_of_nil in Hin.
Qed.

End IngestionProperties.

Section TransactionProperties.
Import Js App Spec.

(** ** Building transactions *)

Lemma orNum_orNum_zero (p d : number) :
  truthy d = true ->
  orNum (orNum p zero) d = if isNaN p || Spec.isZero p then d else p.
Proof. intros Hd. by destruct p as [[]| [] | | [] m e]. Qed.

Lemma indexOf_lt (l : list string) (x : string) (i : nat) :
  indexOf l x = Some i -> (i < List.length l)%nat.
Proof.
  revert i. induction l as [|y l IH]; intros i; cbn; [done |].
  destruct (String.eqb y x); [intros [= <-]; lia |].
  destruct (indexOf l x) as [j|]; [| done].
  intros [= <-]. specialize (IH j eq_refl). lia.
Qed.

Lemma getVal_is_Some (mapping : ColumnMapping.t) (file : FileData.t)
    (row : list string) (field : Key.t) :
  (List.length (FileData.headers file) <= List.length row)%nat ->
  is_Some (getVal mapping file row field).
Proof.
  intros Hlen. unfold getVal.
  destruct (indexOf _ _) as [idx|] eqn:Hidx; [| by eexists].
  apply indexOf_lt in Hidx. apply lookup_lt_is_Some. lia.
Qed.

(** A row with a cell under every header always gives a transaction. *)
Lemma buildTransaction_total (mapping : ColumnMapping.t) (file : FileData.t)
    (row : list string) :
  (List.length (FileData.headers file) <= List.length row)%nat ->
  is_Some (buildTransaction mapping file row).
Proof.
  intros Hlen. unfold buildTransaction.
  destruct (getVal_is_Some mapping file row Key.taxableValue Hlen) as [? ->].
  destruct (getVal_is_Some mapping file row Key.igst Hlen) as [? ->].
  destruct (getVal_is_Some mapping file row Key.cgst Hlen) as [? ->].
  destruct (getVal_is_Some mapping file row Key.sgst Hlen) as [? ->].
  destruct (getVal_is_Some mapping file row Key.totalAmount Hlen) as [? ->].
  destruct (getVal_is_Some mapping file row Key.gstRate Hlen) as [? ->].
  destruct (getVal_is_Some mapping file row Key.quantity Hlen) as [? ->].
  by eexists.
Qed.

(** The quantity of the transaction built from a row. *)
Lemma buildTransaction_quantity (mapping : ColumnMapping.t)
    (file : FileData.t) (row : list string) (tx : MarketplaceTransaction.t) :
  buildTransaction mapping file row = Some tx ->
  exists cell,
    getVal mapping file row Key.quantity = Some cell
    /\ MarketplaceTransaction.quantity tx
       = let parsed := parseFloat (stripNonNumeric cell) in
         if isNaN parsed || Spec.isZero parsed then ofZ 1 else parsed.
Proof.
  unfold buildTransaction. intros Hbuild.
  destruct (parseFloatSafe (getVal mapping file row Key.taxableValue)); [| done].
  destruct (parseFloatSafe (getVal mapping file row Key.igst)); [| done].
  destruct (parseFloatSafe (getVal mapping file row Key.cgst)); [| done].
  destruct (parseFloatSafe (getVal mapping file row Key.sgst)); [| done].
  destruct (parseFloatSafe (getVal mapping file row Key.totalAmount)); [| done].
  destruct (parseFloatSafe (getVal mapping file row Key.gstRate)); [| done].
  destruct (getVal mapping file row Key.quantity) as [cell|] eqn:Hcell; [| done].
  cbn in Hbuild. injection Hbuild as <-. cbn [MarketplaceTransaction.quantity].
  exists cell. split; [done |]. by rewrite orNum_orNum_zero.
Qed.

Lemma buildTransaction_quantity_nonzero (mapping : ColumnMapping.t)
    (file : FileData.t) (row : list string) (tx : MarketplaceTransaction.t) :
  buildTransaction mapping file row = Some tx ->
  Spec.isZero (MarketplaceTransaction.quantity tx) = false
  /\ isNaN (MarketplaceTransaction.quantity tx) = false.
Proof.
  intros (cell & _ & ->)%buildTransaction_quantity. cbn zeta.
  by destruct (parseFloat (stripNonNumeric cell)) as [[]| [] | | [] m e].
Qed.

(** Every transaction of [allProcessed] is built from some row. *)
Lemma buildAll_from (mapping : ColumnMapping.t) (files : list FileData.t)
    (acc : option (list MarketplaceTransaction.t))
    (txs : list MarketplaceTransaction.t) :
  fold_left
    (fun acc file =>
       allProcessed ← acc;
       fileTransactions ← mapM (buildTransaction mapping file) (FileData.rawData file);
       Some (allProcessed ++ fileTransactions)) files acc = Some txs ->
  exists txs0, acc = Some txs0
    /\ forall P : MarketplaceTransaction.t -> Prop,
         (forall file row tx, buildTransaction mapping file row = Some tx -> P tx) ->
         Forall P txs0 -> Forall P txs.
Proof.
  revert acc. induction files as [|file files IH]; intros acc; cbn [fold_left].
  - intros ->. by exists txs.
  - intros (txs1 & Hstep & Hall)%IH.
    destruct acc as [txs0|]; [| done]. exists txs0. split; [done |].
    cbn in Hstep.
    destruct (mapM (buildTransaction mapping file) (FileData.rawData file))
      as [built|] eqn:Hmap; [| done].
    cbn in Hstep. injection Hstep as <-.
    intros P HP Hacc. apply Hall; [done |].
    apply Forall_app. split; [done |].
    apply mapM_Some in Hmap. clear -Hmap HP.
    induction Hmap as [|row tx rows built Hrow _ IHm]; constructor; eauto.
Qed.

(** C2 (as amended). The quantity of a built transaction is 1 whenever the
    header that quantity is mapped to is missing from the file, or the cell
    does not parse, or it parses to zero; a cell that parses to a number
    other than zero, a negative one included, gives that number.  The
    quantity is therefore never zero, in any transaction that
    [processMapping] builds. *)
Theorem quantity_defaults_to_one `{DateEngine} (mapping : ColumnMapping.t)
    (file : FileData.t) (row : list string) (tx : MarketplaceTransaction.t) :
  buildTransaction mapping file row = Some tx ->
  (exists cell,
      getVal mapping file row Key.quantity = Some cell
      /\ MarketplaceTransaction.quantity tx
         = let parsed := parseFloat (stripNonNumeric cell) in
           if isNaN parsed || Spec.isZero parsed then ofZ 1 else parsed)
  /\ (indexOf (FileData.headers file) (ColumnMapping.get mapping Key.quantity) = None ->
      MarketplaceTransaction.quantity tx = ofZ 1)
  /\ Spec.isZero (MarketplaceTransaction.quantity tx) = false
  /\ isNaN (MarketplaceTransaction.quantity tx) = false
  /\ forall st st' : State,
       hasCriticalErrors (App.mapping st) (uploadedFiles st) = false ->
       processMapping st = Some st' ->
       Forall (fun built => Spec.isZero (MarketplaceTransaction.quantity built) = false)
         (transactions st').
Proof.
  intros Hbuild.
  split; [by apply buildTransaction_quantity |]. split; [| split; [| split]].
  - intros Habsent.
    destruct (buildTransaction_quantity _ _ _ _ Hbuild) as (cell & Hcell & ->).
    unfold getVal in Hcell. rewrite Habsent in Hcell. by injection Hcell as <-.
  - by apply (buildTransaction_quantity_nonzero mapping file row).
  - by apply (buildTransaction_quantity_nonzero mapping file row).
  - intros st st' Hok. unfold processMapping. rewrite Hok.
    destruct (buildAll (App.mapping st) (uploadedFiles st)) as [txs|] eqn:Hall;
      [| done].
    cbn. intros [= <-]. cbn [transactions].
    apply buildAll_from in Hall as (txs0 & [= <-] & Hall).
    apply Hall; [| constructor].
    intros f r built Hb.
    by apply (buildTransaction_quantity_nonzero (App.mapping st) f r).
Qed.

Lemma quantity_defaults_to_one_witness :
  Spec.isZero (MarketplaceTransaction.quantity Examples.scenarioTransaction) = false.
Proof.
  apply (quantity_defaults_to_one (H := IsoUtc.engine) Examples.scenarioMapping
           Examples.scenarioFile Examples.scenarioRow
           Examples.scenarioTransaction).
  reflexivity.
Defined.

(** C2, counterexample: the quantity cell "-3" parses to a negative number,
    and the quantity of the transaction built from the row is that number,
    not 1. *)
Lemma negative_quantity_is_kept :
  let st := mkState MAPPING [Examples.negativeQtyFile] Examples.scenarioMapping
              [] false None ∅ in
  getVal Examples.scenarioMapping Examples.negativeQtyFile
    ["2024-04-15"; "INV001"; "Alice"; "1000"; "180"; "18"; "-3"; "Widget"; "18000"]
    Key.quantity = Some "-3"
  /\ gt zero (parseFloat (stripNonNumeric "-3")) = true
  /\ (fun st' => map MarketplaceTransaction.quantity (transactions st'))
       <$> processMapping (H := IsoUtc.engine) st
     = Some [ofZ (-3)]
  /\ ofZ (-3) <> ofZ 1.
Proof. vm_compute. repeat split; done. Qed.

End TransactionProperties.

Section ValidationProperties.
Import Js App Spec.

(** ** Validation *)

Lemma name_inj (k1 k2 : Key.t) : Key.name k1 = Key.name k2 -> k1 = k2.
Proof. by destruct k1, k2. Qed.

Lemma truthyStr_Some (s : string) : truthyStr (Some s) = negb (String.eqb s "").
Proof. by destruct s. Qed.

Section ValidationFacts.
Context `{DateEngine}.
Variable mapping : ColumnMapping.t.
Variable uploadedFiles : list FileData.t.

Lemma checkKey_errors (v : Validation) (used : list (string * list Key.t))
    (key : Key.t) :
  let r := checkKey mapping uploadedFiles (v, used) key in
  (errors r.1, r.2) = checkKeyErrors mapping (errors v, used) key.
Proof.
  unfold checkKey, checkKeyErrors. cbn zeta. cbn [fst snd].
  destruct (includes REQUIRED_FIELDS key
            && negb (truthyStr (Some (ColumnMapping.get mapping key)))); [done |].
  by destruct (truthyStr (Some (ColumnMapping.get mapping key))).
Qed.

Lemma fold_checkKey_errors (keys : list Key.t) (v : Validation)
    (used : list (string * list Key.t)) :
  let r := fold_left (checkKey mapping uploadedFiles) keys (v, used) in
  (errors r.1, r.2) = fold_left (checkKeyErrors mapping) keys (errors v, used).
Proof.
  revert v used. induction keys as [|key keys IH]; intros v used; [done |].
  cbn [fold_left].
  destruct (checkKey mapping uploadedFiles (v, used) key) as [v' used'] eqn:E.
  pose proof (checkKey_errors v used key) as Hstep. rewrite E in Hstep.
  cbn zeta in Hstep. cbn [fst snd] in Hstep. rewrite <- Hstep. apply IH.
Qed.

(** The errors of [validationResults], computed without the samples. *)
Lemma errors_validationResults :
  errors (validationResults mapping uploadedFiles) =
  let r := fold_left (checkKeyErrors mapping) Key.all (∅, []) in
  fold_left flagDuplicates r.2 r.1.
Proof.
  unfold validationResults.
  pose proof (fold_checkKey_errors Key.all (mkValidation ∅ ∅ ∅) []) as Hfold.
  cbn zeta in Hfold.
  destruct (fold_left (checkKey mapping uploadedFiles) Key.all _) as [v used].
  cbn [fst snd errors] in *. by rewrite <- Hfold.
Qed.

End ValidationFacts.

Lemma errors_engine_irrelevant (e1 e2 : DateEngine) (mapping : ColumnMapping.t)
    (files1 files2 : list FileData.t) :
  errors (validationResults (H := e1) mapping files1)
  = errors (validationResults (H := e2) mapping files2).
Proof. by rewrite !errors_validationResults. Qed.

Lemma hasCriticalErrors_engine_irrelevant (e1 e2 : DateEngine)
    (mapping : ColumnMapping.t) (files1 files2 : list FileData.t) :
  hasCriticalErrors (H := e1) mapping files1
  = hasCriticalErrors (H := e2) mapping files2.
Proof.
  unfold hasCriticalErrors. by rewrite (errors_engine_irrelevant e1 e2 _ files1 files2).
Qed.

(** C7. The scenario of the specification: the mapping applied to the one
    row of a file whose headers are in the order of the row gives the
    transaction of the scenario, with the invoice number and the customer
    name of the row and an empty state. *)
Theorem scenario_transaction `{DateEngine} :
  buildTransaction Examples.scenarioMapping Examples.scenarioFile
    Examples.scenarioRow
  = Some (MarketplaceTransaction.mk (Some "2024-04-15") (Some "INV001")
            (Some "Alice") (Some "") (ofZ 1000) (ofZ 180) zero zero
            (ofZ 18000) (ofZ 18) (Some "Widget") (ofZ 2))
  /\ processMapping
       (mkState MAPPING [Examples.scenarioFile] Examples.scenarioMapping []
          false None ∅)
     = Some (mkState REVIEW [Examples.scenarioFile] Examples.scenarioMapping
               [Examples.scenarioTransaction] false None ∅).
Proof.
  split; [by vm_compute |].
  unfold processMapping. cbn [mapping uploadedFiles].
  rewrite (hasCriticalErrors_engine_irrelevant _ IsoUtc.engine _ _
             [Examples.scenarioFile]).
  by vm_compute.
Qed.

(** *** The first pass: required fields and [usedHeaders] *)

Section FirstPass.
Variable mapping : ColumnMapping.t.

Lemma usedBy_pushUsed (h h' : string) (k : Key.t)
    (used : list (string * list Key.t)) :
  usedBy h' (pushUsed h k used)
  = (if String.eqb h h' then usedBy h used ++ [k] else usedBy h' used).
Proof.
  induction used as [|[h0 ks0] used IH]; cbn [pushUsed usedBy].
  - by destruct (String.eqb_spec h h').
  - destruct (String.eqb_spec h0 h) as [-> | Hne]; cbn [usedBy];
      repeat case_eqb; congruence.
Qed.

Lemma headers_pushUsed (h : string) (k : Key.t)
    (used : list (string * list Key.t)) :
  (used.*1) = ((pushUsed h k used).*1)
  \/ ((h ∉ (used.*1)) /\ (pushUsed h k used).*1 = (used.*1) ++ [h]).
Proof.
  induction used as [|[h0 ks0] used IH]; cbn [pushUsed].
  - right. split; [apply not_elem_of_nil | done].
  - destruct (String.eqb_spec h0 h) as [-> | Hne]; [by left |].
    destruct IH as [IH | [Hnot IH]]; [left | right]; cbn.
    + by rewrite <- IH.
    + split; [| by rewrite IH]. rewrite not_elem_of_cons. split; [done | exact Hnot].
Qed.

Lemma wellKeyed_pushUsed (h : string) (k : Key.t)
    (used : list (string * list Key.t)) :
  h <> "" -> wellKeyed used -> wellKeyed (pushUsed h k used).
Proof.
  intros Hh [Hnd Hemp]. unfold wellKeyed.
  destruct (headers_pushUsed h k used) as [<- | [Hnot ->]]; [done |].
  split.
  - apply NoDup_app. split; [done |]. split; [| apply NoDup_singleton].
    intros x Hx ->%list_elem_of_singleton. done.
  - rewrite not_elem_of_app, not_elem_of_cons. split; [done |].
    split; [done | apply not_elem_of_nil].
Qed.

Lemma usedBy_absent (h : string) (used : list (string * list Key.t)) :
  h ∉ (used.*1) -> usedBy h used = [].
Proof.
  induction used as [|[h0 ks0] used IH]; [done |].
  cbn. rewrite not_elem_of_cons. intros [Hne Hnot].
  destruct (String.eqb_spec h0 h); [congruence | by apply IH].
Qed.

Lemma usedBy_elem (h : string) (ks : list Key.t)
    (used : list (string * list Key.t)) :
  NoDup (used.*1) -> (h, ks) ∈ used -> usedBy h used = ks.
Proof.
  induction used as [|[h0 ks0] used IH]; [by intros _ ?%elem_of_nil |].
  cbn. rewrite NoDup_cons. intros [Hnot Hnd] [Heq | Hin]%elem_of_cons.
  - injection Heq as <- <-. by rewrite String.eqb_refl.
  - destruct (String.eqb_spec h0 h) as [-> | Hne]; [| by apply IH].
    exfalso. apply Hnot. apply list_elem_of_fmap. by exists (h, ks).
Qed.

Lemma checkKeyErrors_cases (acc : gmap string string * list (string * list Key.t))
    (key : Key.t) :
  let header := ColumnMapping.get mapping key in
  (header = "" /\ key ∈ REQUIRED_FIELDS
   /\ checkKeyErrors mapping acc key = (<[Key.name key := requiredMessage]> acc.1, acc.2))
  \/ (header = "" /\ (key ∉ REQUIRED_FIELDS)
      /\ checkKeyErrors mapping acc key = acc)
  \/ (header <> ""
      /\ checkKeyErrors mapping acc key = (acc.1, pushUsed header key acc.2)).
Proof.
  cbn zeta. unfold checkKeyErrors, includes. rewrite truthyStr_Some.
  destruct (String.eqb_spec (ColumnMapping.get mapping key) "") as [-> | Hne].
  - case_bool_decide; [left | right; left]; destruct acc; by cbn.
  - right; right. by rewrite andb_false_r.
Qed.

Lemma firstPass_used (keys : list Key.t)
    (acc : gmap string string * list (string * list Key.t)) :
  wellKeyed acc.2 ->
  wellKeyed (fold_left (checkKeyErrors mapping) keys acc).2
  /\ forall h, h <> "" ->
       usedBy h (fold_left (checkKeyErrors mapping) keys acc).2
       = usedBy h acc.2 ++ filter (fun k => ColumnMapping.get mapping k = h) keys.
Proof.
  revert acc. induction keys as [|key keys IH]; intros acc Hwk.
  - split; [done |]. intros h _. by rewrite app_nil_r.
  - cbn [fold_left].
    destruct (checkKeyErrors_cases acc key)
      as [(He & _ & ->) | [(He & _ & ->) | (Hne & ->)]].
    + destruct (IH (<[Key.name key := requiredMessage]> acc.1, acc.2) Hwk)
        as [Hwk' Hused].
      split; [done |]. intros h Hh. rewrite Hused, filter_cons by done. cbn [snd].
      case_decide as Hd; [rewrite He in Hd; by subst | done].
    + destruct (IH acc Hwk) as [Hwk' Hused].
      split; [done |]. intros h Hh. rewrite Hused, filter_cons by done.
      case_decide as Hd; [rewrite He in Hd; by subst | done].
    + destruct (IH (acc.1, pushUsed (ColumnMapping.get mapping key) key acc.2))
        as [Hwk' Hused]; [by apply wellKeyed_pushUsed |].
      split; [done |]. intros h Hh. rewrite Hused, filter_cons by done. cbn [snd].
      rewrite usedBy_pushUsed.
      destruct (String.eqb_spec (ColumnMapping.get mapping key) h) as [Heq | Hneq].
      * subst h. rewrite decide_True by done. by rewrite <- app_assoc.
      * by rewrite decide_False by done.
Qed.

Lemma firstPass_errors (keys : list Key.t)
    (acc : gmap string string * list (string * list Key.t)) (k : Key.t) :
  (fold_left (checkKeyErrors mapping) keys acc).1 !! Key.name k
  = if bool_decide (k ∈ keys /\ k ∈ REQUIRED_FIELDS /\ ColumnMapping.get mapping k = "")
    then Some requiredMessage else acc.1 !! Key.name k.
Proof.
  revert acc. induction keys as [|key keys IH]; intros acc.
  - rewrite bool_decide_eq_false_2; [done |]. by intros [?%elem_of_nil _].
  - cbn [fold_left]. rewrite IH.
    destruct (decide (k ∈ keys /\ k ∈ REQUIRED_FIELDS /\ ColumnMapping.get mapping k = ""))
      as [(Hin & Hreq & He) | Hno].
    { rewrite !bool_decide_eq_true_2; [done | | done].
      split; [by apply elem_of_cons; right | done]. }
    rewrite (bool_decide_eq_false_2 _ Hno).
    destruct (checkKeyErrors_cases acc key)
      as [(He & Hreq & ->) | [(He & Hnr & ->) | (Hne & ->)]]; cbn [fst].
    + destruct (decide (k = key)) as [-> | Hk].
      * rewrite lookup_insert_eq, bool_decide_eq_true_2; [done |].
        split; [apply elem_of_cons; by left | done].
      * rewrite lookup_insert_ne by (intros ?%name_inj; congruence).
        rewrite bool_decide_eq_false_2; [done |].
        intros ([? | ?]%elem_of_cons & ? & ?); [done | apply Hno; done].
    + rewrite bool_decide_eq_false_2; [done |].
      intros ([-> | ?]%elem_of_cons & ? & ?); [done | apply Hno; done].
    + rewrite bool_decide_eq_false_2; [done |].
      intros ([-> | ?]%elem_of_cons & ? & ?); [done | apply Hno; done].
Qed.

End FirstPass.

(** *** The second pass: duplicate headers *)

Lemma flag_keys_lookup (msg : Key.t -> string) (keys : list Key.t)
    (errs : gmap string string) (k : Key.t) :
  fold_left (fun errs key => <[Key.name key := msg key]> errs) keys errs
    !! Key.name k
  = if bool_decide (k ∈ keys) then Some (msg k) else errs !! Key.name k.
Proof.
  revert errs. induction keys as [|key keys IH]; intros errs; [done |].
  cbn [fold_left]. rewrite IH.
  destruct (decide (k ∈ keys)) as [Hin | Hnin].
  - rewrite !bool_decide_eq_true_2; [done | by apply elem_of_cons; right | done].
  - rewrite (bool_decide_eq_false_2 _ Hnin).
    destruct (decide (k = key)) as [-> | Hk].
    + rewrite lookup_insert_eq, bool_decide_eq_true_2; [done |].
      apply elem_of_cons; by left.
    + rewrite lookup_insert_ne by (intros ?%name_inj; congruence).
      rewrite bool_decide_eq_false_2; [done |].
      by intros [? | ?]%elem_of_cons.
Qed.

Lemma flagDuplicates_lookup (errs : gmap string string) (h : string)
    (ks : list Key.t) (k : Key.t) :
  flagDuplicates errs (h, ks) !! Key.name k
  = if bool_decide (k ∈ ks /\ (1 < List.length ks)%nat)
    then Some (duplicateMessage h ks k) else errs !! Key.name k.
Proof.
  unfold flagDuplicates.
  destruct (Nat.ltb_spec 1 (List.length ks)) as [Hlen | Hlen].
  - rewrite flag_keys_lookup.
    destruct (decide (k ∈ ks)).
    + by rewrite !bool_decide_eq_true_2.
    + rewrite !bool_decide_eq_false_2; [done | tauto | done].
  - rewrite bool_decide_eq_false_2; [done |]. lia.
Qed.

Lemma secondPass_lookup (hk : string) (k : Key.t)
    (used : list (string * list Key.t)) (errs : gmap string string) :
  NoDup (used.*1) ->
  (forall h ks, (h, ks) ∈ used -> k ∈ ks -> h = hk) ->
  fold_left flagDuplicates used errs !! Key.name k
  = let ks := usedBy hk used in
    if bool_decide (k ∈ ks /\ (1 < List.length ks)%nat)
    then Some (duplicateMessage hk ks k) else errs !! Key.name k.
Proof.
  cbn zeta. revert errs.
  induction used as [|[h0 ks0] used IH]; intros errs Hnd Hown.
  - cbn. rewrite bool_decide_eq_false_2; [done |]. by intros [?%elem_of_nil _].
  - cbn [fold_left usedBy]. cbn in Hnd. apply NoDup_cons in Hnd as [Hnot Hnd].
    rewrite IH; [| done |]; last first.
    { intros h ks Hin. apply Hown. by apply elem_of_cons; right. }
    rewrite flagDuplicates_lookup.
    destruct (String.eqb_spec h0 hk) as [-> | Hne].
    + rewrite (usedBy_absent hk used Hnot).
      rewrite (bool_decide_eq_false_2 (_ ∈ [] /\ _)); [done |].
      by intros [?%elem_of_nil _].
    + rewrite (bool_decide_eq_false_2 (_ ∈ ks0 /\ _)); [done |].
      intros [Hin _]. apply Hne, (Hown h0 ks0); [apply elem_of_cons; by left | done].
Qed.

(** *** The errors of a mapping *)

Lemma NoDup_all : NoDup Key.all.
Proof. compute_done. Qed.

Lemma elem_of_all (k : Key.t) : k ∈ Key.all.
Proof. destruct k; compute_done. Qed.

(** The error of each field: "required" for a required field left
    unmapped, "duplicate" for a field that shares its header, none
    otherwise. *)
Lemma errors_lookup `{DateEngine} (mapping : ColumnMapping.t)
    (files : list FileData.t) (k : Key.t) :
  errors (validationResults mapping files) !! Key.name k =
  let header := ColumnMapping.get mapping k in
  if String.eqb header ""
  then (if bool_decide (k ∈ REQUIRED_FIELDS) then Some requiredMessage else None)
  else if (1 <? List.length (colliders mapping header))%nat
       then Some (duplicateMessage header (colliders mapping header) k)
       else None.
Proof.
  rewrite errors_validationResults. cbn zeta.
  destruct (firstPass_used mapping Key.all (∅, [])) as [[Hnd Hemp] Hused].
  { split; [constructor | apply not_elem_of_nil]. }
  set (r := fold_left (checkKeyErrors mapping) Key.all (∅, [])) in *.
  assert (Hown : forall h ks, (h, ks) ∈ r.2 -> k ∈ ks ->
                              h = ColumnMapping.get mapping k).
  { intros h ks Hin Hk.
    assert (h <> "") as Hh.
    { intros ->. apply Hemp. apply list_elem_of_fmap. by exists ("", ks). }
    rewrite <- (usedBy_elem h ks r.2 Hnd Hin), (Hused h Hh) in Hk.
    cbn [snd usedBy app] in Hk. by apply list_elem_of_filter in Hk as [-> _]. }
  rewrite (secondPass_lookup (ColumnMapping.get mapping k) k r.2 r.1 Hnd Hown).
  cbn zeta. subst r. rewrite firstPass_errors. cbn [fst]. rewrite lookup_empty.
  destruct (String.eqb_spec (ColumnMapping.get mapping k) "") as [He | Hne].
  - rewrite He, (usedBy_absent "" _ Hemp).
    rewrite (bool_decide_eq_false_2 (_ ∈ [] /\ _)) by (by intros [?%elem_of_nil _]).
    destruct (decide (k ∈ REQUIRED_FIELDS)) as [Hreq | Hreq].
    + rewrite !bool_decide_eq_true_2; [done | done |].
      split; [apply elem_of_all | done].
    + rewrite !bool_decide_eq_false_2; [done | done | tauto].
  - rewrite (Hused _ Hne). cbn [snd usedBy app]. fold (colliders mapping (ColumnMapping.get mapping k)).
    assert (k ∈ colliders mapping (ColumnMapping.get mapping k)) as Hk.
    { apply list_elem_of_filter. split; [done | apply elem_of_all]. }
    rewrite (bool_decide_eq_false_2 (_ /\ _ /\ _)) by tauto.
    destruct (Nat.ltb_spec 1 (List.length (colliders mapping (ColumnMapping.get mapping k)))).
    + by rewrite bool_decide_eq_true_2.
    + rewrite bool_decide_eq_false_2; [done | lia].
Qed.

Lemma join_infix (sep x : string) (l : list string) :
  x ∈ l -> exists pre post, join sep l = pre +:+ x +:+ post.
Proof.
  induction l as [|y l IH]; [by intros ?%elem_of_nil |].
  intros [-> | Hin]%elem_of_cons.
  - exists "". destruct l as [|z l]; cbn [join].
    + exists "". by rewrite append_nil_r.
    + by eexists.
  - destruct (IH Hin) as (pre & post & Hjoin).
    destruct l as [|z l]; [by apply elem_of_nil in Hin |].
    exists (y +:+ sep +:+ pre), post.
    change (join sep (y :: z :: l)) with (y +:+ sep +:+ join sep (z :: l)).
    by rewrite Hjoin, !append_assoc.
Qed.

Lemma occurs_append_l (needle a b : string) :
  Spec.occurs needle b = true -> Spec.occurs needle (a +:+ b) = true.
Proof.
  intros Hb. induction a as [|c a IH]; [done |].
  cbn. rewrite IH. apply orb_true_r.
Qed.

Lemma two_elements {A} (x y : A) (l : list A) :
  x <> y -> x ∈ l -> y ∈ l -> (1 < List.length l)%nat.
Proof.
  intros Hne Hx Hy. destruct l as [|a [|b l]]; cbn; [| | lia].
  - by apply elem_of_nil in Hx.
  - apply list_elem_of_singleton in Hx, Hy. congruence.
Qed.

Section ValidationClaims.
Context `{DateEngine}.

(** C6. A required field mapped to the empty string has an entry in the
    errors of the validation.  The mapping is acceptable exactly when the
    errors are empty: [processMapping] then builds the transactions, and
    otherwise it returns at once and leaves the state as it is. *)
Theorem required_unmapped_is_error (mapping : ColumnMapping.t)
    (files : list FileData.t) (key : Key.t) :
  key ∈ REQUIRED_FIELDS ->
  ColumnMapping.get mapping key = "" ->
  errors (validationResults mapping files) !! Key.name key
  = Some "This field is required for Tally import."
  /\ hasCriticalErrors mapping files = true
  /\ forall st : State,
       let accepted :=
         bool_decide (errors (validationResults (App.mapping st) (uploadedFiles st)) = ∅) in
       hasCriticalErrors (App.mapping st) (uploadedFiles st) = negb accepted
       /\ processMapping st
          = if accepted
            then allProcessed ← buildAll (App.mapping st) (uploadedFiles st);
                 Some (mkState REVIEW (uploadedFiles st) (App.mapping st)
                         allProcessed false None (ledgerOverrides st))
            else Some st.
Proof.
  intros Hreq Hempty.
  assert (Hcrit : forall m fs,
             hasCriticalErrors m fs
             = negb (bool_decide (errors (validationResults m fs) = ∅))).
  { intros m fs. unfold hasCriticalErrors.
    case_bool_decide as He.
    - rewrite He. done.
    - apply Nat.ltb_lt. apply map_size_non_empty_iff in He. lia. }
  assert (Herr : errors (validationResults mapping files) !! Key.name key
                 = Some requiredMessage).
  { rewrite errors_lookup. cbn zeta. rewrite Hempty. cbn.
    by rewrite bool_decide_eq_true_2. }
  split; [exact Herr |]. split.
  - rewrite Hcrit. rewrite bool_decide_eq_false_2; [done |].
    intros He. rewrite He, lookup_empty in Herr. done.
  - intros st. cbn zeta. split; [apply Hcrit |].
    unfold processMapping. rewrite Hcrit. by case_bool_decide.
Qed.

(** C5. Two distinct fields mapped to the same non-empty header: each gets
    an error, the message of the one names all the other fields of that
    header, the other of the two among them, each rendered with a space
    before every capital letter. *)
Theorem duplicate_header_is_error (mapping : ColumnMapping.t)
    (files : list FileData.t) (k1 k2 : Key.t) :
  k1 <> k2 ->
  ColumnMapping.get mapping k1 = ColumnMapping.get mapping k2 ->
  ColumnMapping.get mapping k1 <> "" ->
  let header := ColumnMapping.get mapping k1 in
  let others := filter (fun k => k <> k1) (colliders mapping header) in
  let message :=
    "Duplicate mapping: " +:+ dq +:+ header +:+ dq +:+ " is also used for "
    +:+ join ", " (map (fun k => humanize (Key.name k)) others) +:+ "." in
  errors (validationResults mapping files) !! Key.name k1 = Some message
  /\ k2 ∈ others
  /\ Spec.occurs (humanize (Key.name k2)) message = true
  /\ map (fun k => humanize (Key.name k)) Key.all
     = ["date"; "invoice No"; "customer Name"; "state"; "taxable Value";
        "igst"; "cgst"; "sgst"; "total Amount"; "gst Rate"; "product Name";
        "quantity"].
Proof.
  intros Hne Hsame Hmapped. cbn zeta.
  set (header := ColumnMapping.get mapping k1).
  assert (H1 : k1 ∈ colliders mapping header).
  { apply list_elem_of_filter. split; [done | apply elem_of_all]. }
  assert (H2 : k2 ∈ colliders mapping header).
  { apply list_elem_of_filter. split; [done | apply elem_of_all]. }
  assert (Hothers : k2 ∈ filter (fun k => k <> k1) (colliders mapping header)).
  { apply list_elem_of_filter. split; [congruence | done]. }
  split; [| split; [done | split; [| done]]].
  - rewrite errors_lookup. cbn zeta. fold header.
    destruct (String.eqb_spec header ""); [done |].
    pose proof (two_elements k1 k2 _ Hne H1 H2) as Hlen.
    apply Nat.ltb_lt in Hlen. by rewrite Hlen.
  - destruct (join_infix ", " (humanize (Key.name k2))
                (map (fun k => humanize (Key.name k))
                   (filter (fun k => k <> k1) (colliders mapping header))))
      as (pre & post & ->).
    { apply list_elem_of_fmap. by exists k2. }
    do 5 apply occurs_append_l.
    rewrite !append_assoc. apply occurs_append.
Qed.

End ValidationClaims.

Lemma required_unmapped_is_error_witness :
  errors (validationResults (H := IsoUtc.engine) ColumnMapping.blank [])
    !! Key.name Key.date
  = Some "This field is required for Tally import.".
Proof.
  apply (required_unmapped_is_error (H := IsoUtc.engine) ColumnMapping.blank []
           Key.date).
  - compute_done.
  - reflexivity.
Defined.

Lemma duplicate_header_is_error_witness :
  errors (validationResults (H := IsoUtc.engine) Examples.duplicateMapping [])
    !! "customerName"
  = Some ("Duplicate mapping: " +:+ dq +:+ "Name" +:+ dq
          +:+ " is also used for state, product Name.").
Proof.
  apply (duplicate_header_is_error (H := IsoUtc.engine) Examples.duplicateMapping []
           Key.customerName Key.state).
  - discriminate.
  - reflexivity.
  - discriminate.
Defined.

End ValidationProperties.

Section Binary64.
Import Js Spec.
Local Open Scope Z_scope.

(** ** Binary64 arithmetic: the sign of a difference *)

Lemma digits2_pos_size (m : positive) : digits2_pos m = Pos.size m.
Proof. induction m as [m IH | m IH |]; cbn; by rewrite ?IH. Qed.

Lemma digits2_bounds (m : positive) :
  2 ^ (Zpos (digits2_pos m) - 1) <= Zpos m < 2 ^ Zpos (digits2_pos m).
Proof.
  rewrite digits2_pos_size. split.
  - pose proof (Pos.size_le m) as Hle.
    apply Pos2Z.pos_le_pos in Hle. rewrite Pos2Z.inj_pow in Hle.
    replace (Zpos (Pos.size m)) with (Z.succ (Zpos (Pos.size m) - 1)) in Hle by lia.
    rewrite Z.pow_succ_r in Hle by lia. lia.
  - pose proof (Pos.size_gt m) as Hgt.
    apply Pos2Z.pos_lt_pos in Hgt. by rewrite Pos2Z.inj_pow in Hgt.
Qed.

Lemma iter_xO (m d : positive) : Zpos (Pos.iter xO m d) = Zpos m * 2 ^ Zpos d.
Proof.
  induction d as [|d IH] using Pos.peano_ind.
  - cbn. lia.
  - rewrite Pos.iter_succ, Pos2Z.inj_succ, Z.pow_succ_r by lia.
    rewrite (Pos2Z.inj_xO (Pos.iter xO m d)), IH. lia.
Qed.

Lemma shl_align_value (m : positive) (e e' : Z) :
  e' <= e -> Zpos (shl_align m e e').1 = Zpos m * 2 ^ (e - e').
Proof.
  intros Hle. unfold shl_align.
  destruct (e' - e) as [|d|d] eqn:Hd; cbn [fst]; try lia.
  - replace (e - e') with 0 by lia. lia.
  - rewrite iter_xO. f_equal. f_equal. lia.
Qed.

Lemma shl_align_exponent (m : positive) (e e' : Z) :
  (shl_align m e e').2 = Z.min e e'.
Proof. unfold shl_align. destruct (e' - e) eqn:Hd; cbn [snd]; lia. Qed.

Lemma shr_1_m (mrs : shr_record) :
  0 <= shr_m mrs -> shr_m (shr_1 mrs) = shr_m mrs / 2.
Proof.
  destruct mrs as [m r s]. cbn [shr_m]. intros Hm.
  destruct m as [|[p|p|]|p]; cbn [shr_1 shr_m]; try lia;
    by rewrite <- Z.div2_div.
Qed.

Lemma pow2_xI (p : positive) : 2 ^ Zpos p~1 = 2 * (2 ^ Zpos p * 2 ^ Zpos p).
Proof.
  rewrite (Pos2Z.inj_xI p).
  replace (2 * Zpos p + 1) with (1 + Zpos p + Zpos p) by lia.
  rewrite !Z.pow_add_r by lia. rewrite Z.pow_1_r. lia.
Qed.

Lemma pow2_xO (p : positive) : 2 ^ Zpos p~0 = 2 ^ Zpos p * 2 ^ Zpos p.
Proof.
  rewrite (Pos2Z.inj_xO p).
  replace (2 * Zpos p) with (Zpos p + Zpos p) by lia.
  rewrite Z.pow_add_r by lia. done.
Qed.

Lemma iter_shr_1_m (p : positive) (mrs : shr_record) :
  0 <= shr_m mrs -> shr_m (iter_pos shr_1 p mrs) = shr_m mrs / 2 ^ Zpos p.
Proof.
  revert mrs. induction p as [p IH | p IH |]; intros mrs Hm; cbn [iter_pos].
  - assert (0 <= shr_m (shr_1 mrs)) by (rewrite shr_1_m by done; apply Z.div_pos; lia).
    assert (0 <= shr_m (iter_pos shr_1 p (shr_1 mrs)))
      by (rewrite IH by done; apply Z.div_pos; lia).
    rewrite !IH, shr_1_m by done.
    rewrite !Z.div_div by lia. by rewrite pow2_xI.
  - assert (0 <= shr_m (iter_pos shr_1 p mrs))
      by (rewrite IH by done; apply Z.div_pos; lia).
    rewrite !IH by done. rewrite Z.div_div by lia. by rewrite pow2_xO.
  - rewrite shr_1_m by done. by rewrite Z.pow_1_r.
Qed.

Lemma shr_record_of_loc_m (m : Z) (l : location) :
  shr_m (shr_record_of_loc m l) = m.
Proof. by destruct l as [|[]]. Qed.

(** Rounding a positive mantissa whose exponent is not below [emin] never
    gives zero. *)
Lemma shr_fexp_pos (m e : Z) (l : location) :
  0 < m -> emin prec emax <= e ->
  0 < shr_m (shr_fexp prec emax m e l).1
  /\ emin prec emax <= (shr_fexp prec emax m e l).2.
Proof.
  intros Hm He. unfold shr_fexp, shr.
  destruct m as [|p|p]; try lia. cbn [Zdigits2].
  pose proof (digits2_bounds p) as [Hlo Hhi].
  set (d := Zpos (digits2_pos p)) in *.
  assert (Hfexp : fexp prec emax (d + e) - e = Z.max (d - prec) (emin prec emax - e))
    by (unfold fexp; lia).
  rewrite Hfexp.
  destruct (Z.max (d - prec) (emin prec emax - e)) as [|n|n] eqn:Hn; cbn [fst snd].
  - rewrite shr_record_of_loc_m. lia.
  - rewrite iter_shr_1_m by (rewrite shr_record_of_loc_m; lia).
    rewrite shr_record_of_loc_m. split; [| lia].
    assert (Zpos n <= d - 1) by (unfold prec in *; lia).
    apply Z.div_str_pos. split; [apply Z.pow_pos_nonneg; lia |].
    etrans; [| exact Hlo]. apply Z.pow_le_mono_r; lia.
  - rewrite shr_record_of_loc_m. lia.
Qed.

Lemma round_nearest_even_pos (m : Z) (l : location) :
  0 < m -> 0 < round_nearest_even m l.
Proof. intros Hm. destruct l as [|[]]; cbn; try lia. destruct (Z.even m); lia. Qed.

Lemma binary_round_aux_pos (m e : Z) (l : location) :
  0 < m -> emin prec emax <= e ->
  gt (binary_round_aux prec emax false m e l) zero = true.
Proof.
  intros Hm He. unfold binary_round_aux.
  destruct (shr_fexp_pos m e l Hm He) as [Hm' He'].
  destruct (shr_fexp prec emax m e l) as [mrs' e']. cbn [fst snd] in *.
  pose proof (round_nearest_even_pos (shr_m mrs') (loc_of_shr_record mrs') Hm') as Hr.
  destruct (shr_fexp_pos _ e' loc_Exact Hr He') as [Hm'' _].
  destruct (shr_fexp prec emax _ e' loc_Exact) as [mrs'' e'']. cbn [fst snd] in *.
  destruct (shr_m mrs'') as [|q|q]; try lia.
  by destruct (e'' <=? emax - prec).
Qed.

Lemma binary_round_aux_neg (m e : Z) (l : location) :
  gt (binary_round_aux prec emax true m e l) zero = false.
Proof.
  unfold binary_round_aux.
  destruct (shr_fexp prec emax m e l) as [mrs' e'].
  destruct (shr_fexp prec emax _ e' loc_Exact) as [mrs'' e''].
  destruct (shr_m mrs'') as [|q|q]; try done.
  by destruct (e'' <=? emax - prec).
Qed.

Lemma fexp_ge_emin (x : Z) : emin prec emax <= fexp prec emax x.
Proof. unfold fexp. lia. Qed.

Lemma binary_round_pos (m : positive) (e : Z) :
  emin prec emax <= e -> gt (binary_round prec emax false m e) zero = true.
Proof.
  intros He. unfold binary_round.
  pose proof (shl_align_exponent m e (fexp prec emax (Zpos (digits2_pos m) + e))) as Hex.
  pose proof (fexp_ge_emin (Zpos (digits2_pos m) + e)).
  destruct (shl_align m e _) as [mz ez]. cbn [snd] in Hex.
  apply binary_round_aux_pos; lia.
Qed.

Lemma binary_round_neg (m : positive) (e : Z) :
  gt (binary_round prec emax true m e) zero = false.
Proof.
  unfold binary_round. destruct (shl_align m e _) as [mz ez].
  apply binary_round_aux_neg.
Qed.

(** The positive numbers: the finite ones with sign bit clear and
    [+Infinity]. *)
Lemma gt_zero_cases (x : number) :
  gt x zero = true ->
  x = S754_infinity false \/ exists m e, x = S754_finite false m e.
Proof. destruct x as [[]|[]| |[] m e]; try done; eauto. Qed.

Lemma bounded_inv (m : positive) (e : Z) :
  bounded prec emax m e = true ->
  emin prec emax <= e
  /\ Zpos (digits2_pos m) <= prec
  /\ (emin prec emax < e -> Zpos (digits2_pos m) = prec).
Proof.
  unfold bounded, canonical_mantissa, fexp.
  intros [Hc _]%andb_true_iff. apply Z.eqb_eq in Hc. lia.
Qed.

(** On binary64 values the sign of [y - x] tells whether [x < y]. *)
Lemma sub_finite_sign (mx my : positive) (ex ey : Z) :
  bounded prec emax mx ex = true ->
  bounded prec emax my ey = true ->
  gt (sub (S754_finite false my ey) (S754_finite false mx ex)) zero
  = SFltb (S754_finite false mx ex) (S754_finite false my ey).
Proof.
  intros Hx Hy.
  destruct (bounded_inv _ _ Hx) as (Hex & Hdx & Hnx).
  destruct (bounded_inv _ _ Hy) as (Hey & Hdy & Hny).
  pose proof (digits2_bounds mx) as [Hxlo Hxhi].
  pose proof (digits2_bounds my) as [Hylo Hyhi].
  unfold sub, SFsub, SFltb, SFcompare. cbn [cond_Zopp].
  rewrite !shl_align_value by lia.
  set (ez := Z.min ey ex).
  assert (Hez : emin prec emax <= ez) by lia.
  rewrite Pos.compare_cont_spec. cbn [Pos.switch_Eq].
  destruct (Z.compare_spec ex ey) as [Heq | Hlt | Hgt].
  - (* same exponent: the mantissas decide *)
    subst ey. replace (ex - ez) with 0 by lia. rewrite Z.pow_0_r, !Z.mul_1_r.
    destruct (Pos.compare_spec mx my) as [-> | Hm | Hm].
    + by rewrite Z.sub_diag.
    + destruct (Zpos my - Zpos mx) as [|d|d] eqn:Hd; try lia.
      cbn [binary_normalize]. by apply binary_round_pos.
    + destruct (Zpos my - Zpos mx) as [|d|d] eqn:Hd; try lia.
      cbn [binary_normalize]. apply binary_round_neg.
  - (* x has the smaller exponent: y is normal and exceeds x *)
    assert (Hpy : Zpos (digits2_pos my) = prec) by (apply Hny; lia).
    assert (Hbig : Zpos mx < Zpos my * 2 ^ (ey - ez)).
    { replace (ey - ez) with (Z.succ (ey - ez - 1)) by lia.
      rewrite Z.pow_succ_r by lia.
      assert (1 <= 2 ^ (ey - ez - 1))
        by (pose proof (Z.pow_pos_nonneg 2 (ey - ez - 1)); lia).
      assert (Zpos mx < 2 ^ prec)
        by (eapply Z.lt_le_trans; [exact Hxhi | apply Z.pow_le_mono_r; lia]).
      rewrite Hpy in Hylo. change (2 ^ prec) with (2 * 2 ^ (prec - 1)) in *.
      nia. }
    replace (ex - ez) with 0 by lia. rewrite Z.pow_0_r, Z.mul_1_r.
    destruct (Zpos my * 2 ^ (ey - ez) - Zpos mx) as [|d|d] eqn:Hd; try lia.
    cbn [binary_normalize]. by apply binary_round_pos.
  - assert (Hpx : Zpos (digits2_pos mx) = prec) by (apply Hnx; lia).
    assert (Hbig : Zpos my < Zpos mx * 2 ^ (ex - ez)).
    { replace (ex - ez) with (Z.succ (ex - ez - 1)) by lia.
      rewrite Z.pow_succ_r by lia.
      assert (1 <= 2 ^ (ex - ez - 1))
        by (pose proof (Z.pow_pos_nonneg 2 (ex - ez - 1)); lia).
      assert (Zpos my < 2 ^ prec)
        by (eapply Z.lt_le_trans; [exact Hyhi | apply Z.pow_le_mono_r; lia]).
      rewrite Hpx in Hxlo. change (2 ^ prec) with (2 * 2 ^ (prec - 1)) in *.
      nia. }
    replace (ey - ez) with 0 by lia. rewrite Z.pow_0_r, Z.mul_1_r.
    destruct (Zpos my - Zpos mx * 2 ^ (ex - ez)) as [|d|d] eqn:Hd; try lia.
    cbn [binary_normalize]. apply binary_round_neg.
Qed.

Lemma sub_sign (x y : number) :
  gt x zero = true -> gt y zero = true ->
  Spec.isBinary64 x = true -> Spec.isBinary64 y = true ->
  gt (sub y x) zero = SFltb x y.
Proof.
  intros [-> | (mx & ex & ->)]%gt_zero_cases [-> | (my & ey & ->)]%gt_zero_cases;
    try done.
  apply sub_finite_sign.
Qed.

(** The order of the positive numbers. *)
Lemma compare_antisym (x y : number) :
  gt x zero = true -> gt y zero = true ->
  SFcompare y x = CompOpp <$> SFcompare x y.
Proof.
  intros [-> | (mx & ex & ->)]%gt_zero_cases [-> | (my & ey & ->)]%gt_zero_cases;
    try done.
  cbn. rewrite (Z.compare_antisym ex ey), !Pos.compare_cont_spec.
  cbn [Pos.switch_Eq]. rewrite (Pos.compare_antisym mx my).
  by destruct (ex ?= ey), (mx ?= my)%positive.
Qed.

Lemma ltb_total (x y : number) :
  gt x zero = true -> gt y zero = true ->
  SFltb x y = false -> SFeqb x y = false -> SFltb y x = true.
Proof.
  intros Hx Hy. unfold SFltb, SFeqb. rewrite (compare_antisym x y Hx Hy).
  destruct x as [[]|[]| |[] mx ex], y as [[]|[]| |[] my ey]; try done.
  cbn. by destruct (ex ?= ey), (Pos.compare_cont Eq mx my).
Qed.

Lemma eqb_refl_pos (x : number) : gt x zero = true -> SFeqb x x = true.
Proof.
  intros [-> | (m & e & ->)]%gt_zero_cases; [done |].
  unfold SFeqb. cbn. by rewrite Z.compare_refl, Pos.compare_cont_refl.
Qed.

(** ** Binary64 arithmetic: the results are binary64 values *)

Lemma Zdigits2_digitsOf (m : Z) : 0 <= m -> digitsOf m (Zdigits2 m).
Proof.
  intros Hm. destruct m as [|p|p]; [by left | | lia].
  right. cbn [Zdigits2]. split; [lia | apply digits2_bounds].
Qed.

Lemma digitsOf_unique (m d d' : Z) : digitsOf m d -> digitsOf m d' -> d = d'.
Proof.
  intros [[-> ->] | [Hd [Hlo Hhi]]] [[Hm ->] | [Hd' [Hlo' Hhi']]]; try lia.
  destruct (Z.lt_trichotomy d d') as [Hlt | [-> | Hgt]]; [| done |].
  - assert (2 ^ d <= 2 ^ (d' - 1)) by (apply Z.pow_le_mono_r; lia). lia.
  - assert (2 ^ d' <= 2 ^ (d - 1)) by (apply Z.pow_le_mono_r; lia). lia.
Qed.

Lemma Zdigits2_eq (m d : Z) : 0 <= m -> digitsOf m d -> Zdigits2 m = d.
Proof. intros Hm Hd. by apply (digitsOf_unique m); [apply Zdigits2_digitsOf |]. Qed.

(** Dropping [n] low bits drops [n] digits. *)
Lemma digitsOf_shift (m d n : Z) :
  0 <= n -> digitsOf m d ->
  digitsOf (m / 2 ^ n) (Z.max 0 (d - n)).
Proof.
  intros Hn [[-> ->] | [Hd [Hlo Hhi]]].
  - left. assert (0 < 2 ^ n) by (apply Z.pow_pos_nonneg; lia).
    rewrite Z.div_0_l by lia. lia.
  - assert (0 < 2 ^ n) by (apply Z.pow_pos_nonneg; lia).
    destruct (Z.le_gt_cases d n) as [Hle | Hgt].
    + left. split; [| lia]. apply Z.div_small. split; [| ].
      * assert (0 < 2 ^ (d - 1)) by (apply Z.pow_pos_nonneg; lia). lia.
      * eapply Z.lt_le_trans; [exact Hhi |]. apply Z.pow_le_mono_r; lia.
    + right. replace (Z.max 0 (d - n)) with (d - n) by lia. split; [lia |]. split.
      * apply Z.div_le_lower_bound; [done |].
        rewrite <- Z.pow_add_r by lia. by replace (n + (d - n - 1)) with (d - 1) by lia.
      * apply Z.div_lt_upper_bound; [done |].
        rewrite <- Z.pow_add_r by lia. by replace (n + (d - n)) with d by lia.
Qed.

(** Adding one keeps the digits, or gives the next power of two. *)
Lemma digitsOf_succ (m d : Z) :
  digitsOf m d -> digitsOf (m + 1) d \/ (m + 1 = 2 ^ d /\ digitsOf (m + 1) (d + 1)).
Proof.
  intros [[-> ->] | [Hd [Hlo Hhi]]].
  - right. split; [done |]. right. cbn. lia.
  - destruct (Z.eq_dec (m + 1) (2 ^ d)) as [Heq | Hne].
    + right. split; [done |]. right. split; [lia |].
      replace (d + 1 - 1) with d by lia. rewrite Heq. split; [lia |].
      rewrite Z.pow_add_r by lia.
      assert (0 < 2 ^ d) by (apply Z.pow_pos_nonneg; lia). lia.
    + left. right. split; [done |]. lia.
Qed.

Lemma shr_fexp_canonical (m e : Z) (l : location) :
  0 <= m -> e <= fexp prec emax (Zdigits2 m + e) ->
  let r := shr_fexp prec emax m e l in
  0 <= shr_m r.1 /\ canonical (shr_m r.1) r.2.
Proof.
  intros Hm He. cbn zeta. unfold shr_fexp, shr, canonical.
  pose proof (Zdigits2_digitsOf m Hm) as Hd.
  remember (Zdigits2 m) as d eqn:Ed.
  destruct (fexp prec emax (d + e) - e) as [|n|n] eqn:Hn; cbn [fst snd]; try lia.
  - rewrite shr_record_of_loc_m. split; [done |]. rewrite <- Ed. lia.
  - rewrite iter_shr_1_m by (rewrite shr_record_of_loc_m; lia).
    rewrite shr_record_of_loc_m.
    assert (0 < 2 ^ Zpos n) by (apply Z.pow_pos_nonneg; lia).
    split; [apply Z.div_pos; lia |].
    rewrite (Zdigits2_eq (m / 2 ^ Zpos n) (Z.max 0 (d - Zpos n)));
      [| apply Z.div_pos; lia | apply digitsOf_shift; [lia | done]].
    unfold fexp, emin, prec, emax in *. lia.
Qed.

Lemma Zdigits2_mono (a b : Z) : 0 <= a <= b -> Zdigits2 a <= Zdigits2 b.
Proof.
  intros [Ha Hab].
  destruct (Zdigits2_digitsOf a Ha) as [[_ ->] | [Hda [Hlo _]]].
  - destruct (Zdigits2_digitsOf b) as [[_ ->] | [? _]]; lia.
  - destruct (Zdigits2_digitsOf b) as [[-> _] | [Hdb [_ Hhi]]]; [lia | | ].
    + assert (0 < 2 ^ (Zdigits2 a - 1)) by (apply Z.pow_pos_nonneg; lia). lia.
    + destruct (Z.le_gt_cases (Zdigits2 a) (Zdigits2 b)) as [? | Hgt]; [done |].
      assert (2 ^ Zdigits2 b <= 2 ^ (Zdigits2 a - 1))
        by (apply Z.pow_le_mono_r; lia). lia.
Qed.

Lemma fexp_mono (x y : Z) : x <= y -> fexp prec emax x <= fexp prec emax y.
Proof. unfold fexp. lia. Qed.

Lemma round_nearest_even_range (m : Z) (l : location) :
  m <= round_nearest_even m l <= m + 1.
Proof. destruct l as [|[]]; cbn; try lia. destruct (Z.even m); lia. Qed.

(** Rounding gives a binary64 value. *)
Lemma binary_round_aux_valid (s : bool) (m e : Z) (l : location) :
  0 <= m -> e <= fexp prec emax (Zdigits2 m + e) ->
  Spec.isBinary64 (binary_round_aux prec emax s m e l) = true.
Proof.
  intros Hm He. unfold Spec.isBinary64, binary_round_aux.
  destruct (shr_fexp_canonical m e l Hm He) as [Hm1 Hc1].
  destruct (shr_fexp prec emax m e l) as [mrs1 e1]. cbn [fst snd] in *.
  pose proof (round_nearest_even_range (shr_m mrs1) (loc_of_shr_record mrs1)) as Hr.
  set (m1 := round_nearest_even (shr_m mrs1) (loc_of_shr_record mrs1)) in *.
  assert (He1 : e1 <= fexp prec emax (Zdigits2 m1 + e1)).
  { unfold canonical in Hc1. rewrite <- Hc1 at 1. apply fexp_mono.
    pose proof (Zdigits2_mono (shr_m mrs1) m1). lia. }
  destruct (shr_fexp_canonical m1 e1 loc_Exact) as [Hm2 Hc2]; [lia | done |].
  destruct (shr_fexp prec emax m1 e1 loc_Exact) as [mrs2 e2]. cbn [fst snd] in *.
  destruct (shr_m mrs2) as [|p|p] eqn:Hp; [done | | done].
  destruct (e2 <=? emax - prec) eqn:Hle; [| done].
  cbn [valid_binary]. unfold bounded, canonical_mantissa.
  rewrite Hle, andb_true_r. apply Z.eqb_eq. exact Hc2.
Qed.

Lemma digitsOf_shiftl (m d k : Z) :
  0 <= k -> 0 < m -> digitsOf m d -> digitsOf (m * 2 ^ k) (d + k).
Proof.
  intros Hk Hm [[-> _] | [Hd [Hlo Hhi]]]; [lia |].
  assert (0 < 2 ^ k) by (apply Z.pow_pos_nonneg; lia).
  right. split; [lia |].
  replace (d + k - 1) with (d - 1 + k) by lia.
  rewrite !Z.pow_add_r by lia. nia.
Qed.

Lemma binary_round_valid (s : bool) (m : positive) (e : Z) :
  Spec.isBinary64 (binary_round prec emax s m e) = true.
Proof.
  unfold binary_round.
  set (f := fexp prec emax (Zpos (digits2_pos m) + e)).
  pose proof (shl_align_exponent m e f) as Hex.
  destruct (Z.le_gt_cases e f) as [Hle | Hgt].
  - assert (Hsame : shl_align m e f = (m, e)).
    { unfold shl_align. destruct (f - e) eqn:Hd; try done; lia. }
    rewrite Hsame. apply binary_round_aux_valid; [lia |]. by cbn [Zdigits2].
  - pose proof (shl_align_value m e f ltac:(lia)) as Hval.
    destruct (shl_align m e f) as [mz ez]. cbn [fst snd] in *.
    apply binary_round_aux_valid; [lia |].
    assert (Hdz : Zdigits2 (Zpos mz) = Zpos (digits2_pos m) + (e - f)).
    { apply Zdigits2_eq; [lia |]. rewrite Hval.
      apply digitsOf_shiftl; [lia | lia |]. apply (Zdigits2_digitsOf (Zpos m)). lia. }
    rewrite Hdz. replace ez with f by lia.
    replace (Zpos (digits2_pos m) + (e - f) + f) with (Zpos (digits2_pos m) + e) by lia.
    fold f. lia.
Qed.

Lemma binary_normalize_valid (m e : Z) (szero : bool) :
  Spec.isBinary64 (binary_normalize prec emax m e szero) = true.
Proof. destruct m; [done | apply binary_round_valid | apply binary_round_valid]. Qed.

Lemma SFopp_valid (x : number) :
  Spec.isBinary64 x = true -> Spec.isBinary64 (SFopp x) = true.
Proof. by destruct x. Qed.

Lemma digitsOf_lt (m d : Z) : digitsOf m d -> 0 <= d /\ m < 2 ^ d.
Proof. intros [[-> ->] | [Hd [_ Hhi]]]; [done | lia]. Qed.

(** The quotient that [SFdiv] rounds has a small enough exponent. *)
Lemma SFdiv_core_binary_spec (p1 p2 : positive) (e1 e2 : Z) :
  let r := SFdiv_core_binary prec emax (Zpos p1) e1 (Zpos p2) e2 in
  0 <= r.1.1 /\ r.1.2 <= fexp prec emax (Zdigits2 r.1.1 + r.1.2).
Proof.
  cbn zeta. unfold SFdiv_core_binary.
  pose proof (digits2_bounds p1) as [Hlo1 Hhi1].
  pose proof (digits2_bounds p2) as [Hlo2 Hhi2].
  cbn [Zdigits2].
  set (d1 := Zpos (digits2_pos p1)) in *. set (d2 := Zpos (digits2_pos p2)) in *.
  set (x := d1 + e1 - (d2 + e2)).
  set (e' := Z.min (fexp prec emax x) (e1 - e2)).
  set (s := e1 - e2 - e').
  assert (Hs : 0 <= s) by lia.
  set (m' := match s with
             | 0 => Zpos p1
             | Zpos _ => Z.shiftl (Zpos p1) s
             | Zneg _ => 0
             end).
  assert (Hm' : m' = Zpos p1 * 2 ^ s).
  { subst m'. destruct s as [|k|k] eqn:Es; [lia | | lia].
    apply Z.shiftl_mul_pow2. lia. }
  assert (Hpow : 0 < 2 ^ s) by (apply Z.pow_pos_nonneg; lia).
  assert (Hm'lo : 2 ^ (d1 + s - 1) <= m').
  { rewrite Hm'. replace (d1 + s - 1) with (d1 - 1 + s) by lia.
    rewrite Z.pow_add_r by lia. nia. }
  pose proof (Z_div_mod m' (Zpos p2) ltac:(lia)) as Hdiv.
  destruct (Z.div_eucl m' (Zpos p2)) as [q r]. cbn [fst snd].
  destruct Hdiv as [Hdiv Hr].
  assert (Hq : 0 <= q) by nia.
  split; [done |].
  destruct (digitsOf_lt q (Zdigits2 q) (Zdigits2_digitsOf q Hq)) as [Hdq Hqhi].
  assert (Hdigits : d1 + s - d2 <= Zdigits2 q).
  { destruct (Z.le_gt_cases (d1 + s - d2) (Zdigits2 q)) as [? | Hgt]; [done |].
    exfalso.
    assert (2 ^ Zdigits2 q <= 2 ^ (d1 + s - d2 - 1)) by (apply Z.pow_le_mono_r; lia).
    assert (2 ^ (d1 + s - 1) = 2 ^ (d1 + s - d2 - 1) * 2 ^ d2).
    { rewrite <- Z.pow_add_r by lia. f_equal. lia. }
    assert (0 < 2 ^ (d1 + s - d2 - 1)) by (apply Z.pow_pos_nonneg; lia).
    nia. }
  etrans; [apply Z.le_min_l |]. apply fexp_mono. lia.
Qed.

Lemma SFdiv_finite_valid (s1 s2 : bool) (p1 p2 : positive) (e1 e2 : Z) :
  Spec.isBinary64
    (SFdiv prec emax (S754_finite s1 p1 e1) (S754_finite s2 p2 e2)) = true.
Proof.
  unfold SFdiv.
  pose proof (SFdiv_core_binary_spec p1 p2 e1 e2) as [Hq He].
  destruct (SFdiv_core_binary prec emax (Zpos p1) e1 (Zpos p2) e2) as [[q e'] l].
  cbn [fst snd] in *. by apply binary_round_aux_valid.
Qed.

(** The numbers read from decimal text are binary64 values. *)
Lemma ofDecimal_valid (sign : bool) (m : N) (e : Z) :
  Spec.isBinary64 (ofDecimal sign m e) = true.
Proof.
  unfold ofDecimal. destruct m as [|p]; [done |].
  assert (Hx : Spec.isBinary64
                 (if 0 <=? e
                  then binary_normalize prec emax (Zpos p * 10 ^ e) 0 false
                  else SFdiv prec emax (S754_finite false p 0)
                         (S754_finite false (Z.to_pos (10 ^ (- e))) 0)) = true).
  { destruct (0 <=? e); [apply binary_normalize_valid | apply SFdiv_finite_valid]. }
  destruct sign; [by apply SFopp_valid | done].
Qed.

Lemma scanUnsigned_valid (sign : bool) (s rest : string) (x : number) :
  scanUnsigned sign s = Some (x, rest) -> Spec.isBinary64 x = true.
Proof.
  unfold scanUnsigned.
  destruct (String.prefix "Infinity" s); [by intros [= <- _] |].
  destruct (spanDigits s) as [ip s1].
  destruct (match s1 with
            | String c r => if (code c =? 46)%N then spanDigits r else (EmptyString, s1)
            | EmptyString => (EmptyString, s1)
            end) as [fp s2].
  destruct (scanExponent s2) as [ex s3].
  destruct ip, fp; try done; intros [= <- _]; apply ofDecimal_valid.
Qed.

Lemma parseFloat_valid (s : string) : Spec.isBinary64 (parseFloat s) = true.
Proof.
  unfold parseFloat.
  destruct (scanDecimal (trimStart s)) as [[x rest]|] eqn:Hscan; [| done].
  unfold scanDecimal in Hscan.
  destruct (trimStart s) as [|c r]; [done |].
  destruct (code c =? 43)%N; [by apply scanUnsigned_valid in Hscan |].
  destruct (code c =? 45)%N; by apply scanUnsigned_valid in Hscan.
Qed.

End Binary64.

Section LedgerProperties.
Import Js App Spec.

(** ** Sorting the rates *)

Lemma eqb_eq_pos (x y : number) :
  gt x zero = true -> gt y zero = true -> SFeqb x y = true -> x = y.
Proof.
  intros [-> | (mx & ex & ->)]%gt_zero_cases [-> | (my & ey & ->)]%gt_zero_cases;
    try done.
  unfold SFeqb. cbn.
  destruct (Z.compare_spec ex ey) as [-> | |]; try done.
  rewrite Pos.compare_cont_spec. cbn [Pos.switch_Eq].
  destruct (Pos.compare_spec mx my) as [-> | |]; done.
Qed.

Section Sort.
Context {A : Type} (compareFn : A -> A -> number).

Lemma insertSorted_perm (x : A) (l : list A) :
  insertSorted compareFn x l ≡ₚ x :: l.
Proof.
  induction l as [|y l IH]; [done |]. cbn.
  destruct (gt (compareFn y x) zero); [done |].
  rewrite IH. apply Permutation_swap.
Qed.

Lemma sort_from_perm (l acc : list A) :
  fold_left (fun acc x => insertSorted compareFn x acc) l acc ≡ₚ acc ++ l.
Proof.
  revert acc. induction l as [|x l IH]; intros acc; cbn [fold_left].
  - by rewrite app_nil_r.
  - rewrite IH, insertSorted_perm. apply Permutation_middle.
Qed.

Lemma sort_perm (l : list A) : sort compareFn l ≡ₚ l.
Proof. unfold sort. by rewrite sort_from_perm. Qed.

End Sort.

Lemma sameValueZero_false (x y : number) :
  sameValueZero x y = false -> SFeqb x y = false.
Proof. unfold sameValueZero. by intros [? _]%orb_false_iff. Qed.

Lemma insertSorted_HdRel (x y : number) (l : list number) :
  ascending y x -> HdRel ascending y l ->
  HdRel ascending y (insertSorted (fun a b => sub a b) x l).
Proof.
  intros Hyx Hhd. destruct l as [|z l]; cbn; [by constructor |].
  destruct (gt (sub z x) zero); constructor; [done |].
  by inversion Hhd.
Qed.

Lemma insertSorted_sorted (x : number) (l : list number) :
  rateLike x -> Forall rateLike l ->
  Forall (fun y => sameValueZero x y = false) l ->
  Sorted ascending l ->
  Sorted ascending (insertSorted (fun a b => sub a b) x l).
Proof.
  intros [Hx Hvx] Hl Hdist Hsorted.
  induction l as [|y l IH]; cbn; [by repeat constructor |].
  apply Forall_cons in Hl as [[Hy Hvy] Hl].
  apply Forall_cons in Hdist as [Hxy Hdist].
  apply Sorted_inv in Hsorted as [Hsorted Hhd].
  rewrite (sub_sign x y Hx Hy Hvx Hvy).
  destruct (SFltb x y) eqn:Hlt.
  - constructor; [by constructor | by constructor].
  - constructor; [by apply IH |].
    apply insertSorted_HdRel; [| done].
    apply ltb_total; [done | done | done |]. by apply sameValueZero_false.
Qed.

Lemma sort_from_sorted (l acc : list number) :
  Forall rateLike acc -> Forall rateLike l ->
  Sorted ascending acc ->
  Forall (fun x => Forall (fun a => sameValueZero x a = false) acc) l ->
  distinctRates l ->
  Sorted ascending (fold_left (fun acc x => insertSorted (fun a b => sub a b) x acc) l acc).
Proof.
  revert acc. induction l as [|x l IH]; intros acc Hacc Hl Hsorted Hnew Hdist;
    cbn [fold_left]; [done |].
  apply Forall_cons in Hl as [Hx Hl]. apply Forall_cons in Hnew as [Hxacc Hnew].
  inversion Hdist as [|? ? Hxl Hdist']; subst.
  apply IH; try done.
  - rewrite insertSorted_perm. by constructor.
  - by apply insertSorted_sorted.
  - apply Forall_forall. intros y Hy. rewrite insertSorted_perm.
    constructor.
    + rewrite Forall_forall in Hxl. by apply Hxl.
    + rewrite Forall_forall in Hnew. by apply Hnew.
Qed.

Lemma sort_sorted (l : list number) :
  Forall rateLike l -> distinctRates l ->
  Sorted ascending (sort (fun a b => sub a b) l).
Proof.
  intros Hl Hdist. unfold sort.
  apply sort_from_sorted; [constructor | done | constructor | | done].
  apply Forall_forall. intros; constructor.
Qed.

(** ** The rates of a batch *)

Lemma distinctRates_snoc (l : list number) (x : number) :
  distinctRates l -> Forall (fun a => sameValueZero x a = false) l ->
  distinctRates (l ++ [x]).
Proof.
  unfold distinctRates. induction 1 as [|a l Ha Hl IH]; intros Hx; cbn.
  - repeat constructor.
  - apply Forall_cons in Hx as [Hxa Hx]. constructor; [| by apply IH].
    apply Forall_app. split; [done | by constructor].
Qed.

Lemma existsb_false_Forall {A} (p : A -> bool) (l : list A) :
  existsb p l = false -> Forall (fun a => p a = false) l.
Proof.
  induction l as [|a l IH]; cbn; [constructor |].
  intros [? ?]%orb_false_iff. constructor; [done | by apply IH].
Qed.

Lemma existsb_true_elem {A} (p : A -> bool) (l : list A) :
  existsb p l = true -> exists a, a ∈ l /\ p a = true.
Proof.
  induction l as [|a l IH]; cbn; [done |].
  intros [Ha | Hl]%orb_true_iff.
  - exists a. split; [apply elem_of_cons; by left | done].
  - destruct (IH Hl) as (b & Hb & Hpb). exists b.
    split; [apply elem_of_cons; by right | done].
Qed.

(** What the loop over the transactions keeps true of [rates]. *)
Lemma collect_from (transactions : list MarketplaceTransaction.t)
    (rates : list number) :
  Forall (fun r => gt r zero = true) rates -> distinctRates rates ->
  let rates' :=
    fold_left
      (fun rates t =>
         if gt (MarketplaceTransaction.gstRate t) zero
         then setAdd rates (MarketplaceTransaction.gstRate t)
         else rates) transactions rates in
  Forall (fun r => gt r zero = true) rates'
  /\ distinctRates rates'
  /\ forall r, r ∈ rates' <->
       r ∈ rates
       \/ (gt r zero = true
           /\ exists t, t ∈ transactions /\ MarketplaceTransaction.gstRate t = r).
Proof.
  cbn zeta. revert rates.
  induction transactions as [|t transactions IH]; intros rates Hpos Hdist;
    cbn [fold_left].
  - split; [done |]. split; [done |]. intros r. split; [by left |].
    intros [? | (_ & t & ?%elem_of_nil & _)]; done.
  - set (g := MarketplaceTransaction.gstRate t).
    assert (Hstep : exists rates1,
               (if gt g zero then setAdd rates g else rates) = rates1
               /\ Forall (fun r => gt r zero = true) rates1
               /\ distinctRates rates1
               /\ forall r, r ∈ rates1 <-> r ∈ rates \/ (gt r zero = true /\ g = r)).
    { destruct (gt g zero) eqn:Hg.
      - unfold setAdd. destruct (existsb (sameValueZero g) rates) eqn:Hex.
        + exists rates. repeat split; try done; [by left |].
          intros [? | [Hr <-]]; [done |].
          apply existsb_true_elem in Hex as (a & Ha & Hsame).
          rewrite Forall_forall in Hpos.
          unfold sameValueZero in Hsame. apply orb_true_iff in Hsame as [Heq | Hnan].
          * by rewrite (eqb_eq_pos g a Hg (Hpos a Ha) Heq).
          * by destruct g.
        + exists (rates ++ [g]). split; [done |]. split.
          { apply Forall_app. split; [done | by constructor]. }
          split.
          { apply distinctRates_snoc; [done |]. by apply existsb_false_Forall. }
          intros r. rewrite elem_of_app, list_elem_of_singleton.
          split; [intros [? | ->]; [by left | by right] |].
          intros [? | [_ <-]]; [by left | by right].
      - exists rates. repeat split; try done; [by left |].
        intros [? | [Hr <-]]; [done | congruence]. }
    destruct Hstep as (rates1 & -> & Hpos1 & Hdist1 & Hin1).
    destruct (IH rates1 Hpos1 Hdist1) as (Hpos' & Hdist' & Hin').
    split; [done |]. split; [done |]. intros r. rewrite Hin', Hin1.
    split.
    + intros [[? | [Hr <-]] | (Hr & t' & Ht' & <-)]; [by left | right | right].
      * split; [done |]. exists t. split; [apply elem_of_cons; by left | done].
      * split; [done |]. exists t'. split; [apply elem_of_cons; by right | done].
    + intros [? | (Hr & t' & [-> | Ht']%elem_of_cons & <-)].
      * by left; left.
      * by left; right.
      * right. split; [done |]. by exists t'.
Qed.

Lemma collectRates_spec (transactions : list MarketplaceTransaction.t) :
  Forall (fun r => gt r zero = true) (collectRates transactions)
  /\ distinctRates (collectRates transactions)
  /\ forall r, r ∈ collectRates transactions <->
       gt r zero = true
       /\ exists t, t ∈ transactions /\ MarketplaceTransaction.gstRate t = r.
Proof.
  destruct (collect_from transactions []) as (Hpos & Hdist & Hin);
    [constructor | constructor |].
  split; [done |]. split; [done |]. intros r. rewrite (Hin r).
  split; [intros [?%elem_of_nil | ?]; done | by right].
Qed.

Lemma distinctRates_NoDup (l : list number) :
  Forall (fun r => gt r zero = true) l -> distinctRates l -> NoDup l.
Proof.
  intros Hpos Hdist. induction Hdist as [|a l Ha Hl IH]; [constructor |].
  apply Forall_cons in Hpos as [Hpa Hpos]. constructor; [| by apply IH].
  intros Hin. rewrite Forall_forall in Ha. specialize (Ha a Hin).
  apply sameValueZero_false in Ha. by rewrite eqb_refl_pos in Ha.
Qed.

Lemma fold_ledgers (hasIgst hasCgstSgst : bool) (rates : list number)
    (ledgers : list Ledger.t) :
  fold_left
    (fun ledgers rate =>
       let ledgers :=
         ledgers ++ [Ledger.mk ("Sales @ " +:+ toString rate +:+ "%")
                       "Sales Ledger" rate] in
       let ledgers :=
         if hasIgst
         then ledgers ++ [Ledger.mk ("Output IGST @ " +:+ toString rate +:+ "%")
                            "Tax Ledger" rate]
         else ledgers in
       if hasCgstSgst
       then ledgers ++ [Ledger.mk ("Output CGST @ " +:+ toString (div rate (ofZ 2)) +:+ "%")
                          "Tax Ledger" rate;
                        Ledger.mk ("Output SGST @ " +:+ toString (div rate (ofZ 2)) +:+ "%")
                          "Tax Ledger" rate]
       else ledgers)
    rates ledgers
  = ledgers ++ flat_map (Spec.ledgersFor hasIgst hasCgstSgst) rates.
Proof.
  revert ledgers. induction rates as [|rate rates IH]; intros ledgers;
    cbn [fold_left flat_map].
  - by rewrite app_nil_r.
  - rewrite IH. unfold Spec.ledgersFor.
    destruct hasIgst, hasCgstSgst; cbn zeta; by rewrite <- ?app_assoc.
Qed.

Lemma suggestedLedgers_flat_map (transactions : list MarketplaceTransaction.t) :
  suggestedLedgers transactions
  = flat_map
      (Spec.ledgersFor (Spec.hasIgst transactions) (Spec.hasCgstSgst transactions))
      (sort (fun a b => sub a b) (collectRates transactions)).
Proof. unfold suggestedLedgers. cbn zeta. by rewrite fold_ledgers. Qed.

(** The rates of the transactions that [processMapping] builds are
    binary64 values. *)
Lemma buildAll_gstRate_valid (mapping : ColumnMapping.t)
    (files : list FileData.t) (txs : list MarketplaceTransaction.t) :
  buildAll mapping files = Some txs ->
  Forall (fun t => Spec.isBinary64 (MarketplaceTransaction.gstRate t) = true) txs.
Proof.
  intros (txs0 & [= <-] & Hall)%buildAll_from.
  apply Hall; [| constructor].
  intros file row tx. unfold buildTransaction.
  destruct (parseFloatSafe (getVal mapping file row Key.taxableValue)); [| done].
  destruct (parseFloatSafe (getVal mapping file row Key.igst)); [| done].
  destruct (parseFloatSafe (getVal mapping file row Key.cgst)); [| done].
  destruct (parseFloatSafe (getVal mapping file row Key.sgst)); [| done].
  destruct (parseFloatSafe (getVal mapping file row Key.totalAmount)); [| done].
  destruct (getVal mapping file row Key.gstRate) as [cell|]; [| done].
  destruct (parseFloatSafe (getVal mapping file row Key.quantity)); [| done].
  cbn. intros [= <-]. cbn [MarketplaceTransaction.gstRate].
  unfold orNum. destruct (truthy _); [apply parseFloat_valid | done].
Qed.

(** C8. The ledgers are a function of the transactions alone: for the
    distinct positive gstRate values in ascending order, each rate gets its
    sales ledger, its IGST ledger when some transaction of the batch has
    igst > 0, and its CGST and SGST ledgers at half the rate when some
    transaction has cgst > 0 or sgst > 0.  The order is the one of the
    numbers whenever the rates are binary64 values, as are those of the
    transactions that [processMapping] builds.  In the batch of the
    scenario the rate 18 gets all four ledgers. *)
Theorem suggestedLedgers_by_rate (transactions : list MarketplaceTransaction.t)
    (a b : MarketplaceTransaction.t) :
  let rates := sort (fun x y => sub x y) (collectRates transactions) in
  suggestedLedgers transactions
  = flat_map
      (Spec.ledgersFor (Spec.hasIgst transactions) (Spec.hasCgstSgst transactions))
      rates
  /\ NoDup rates
  /\ (forall r, r ∈ rates <->
        gt r zero = true
        /\ exists t, t ∈ transactions /\ MarketplaceTransaction.gstRate t = r)
  /\ (Forall (fun t => Spec.isBinary64 (MarketplaceTransaction.gstRate t) = true)
        transactions ->
      Sorted (fun x y => SFltb x y = true) rates)
  /\ (forall mapping files,
        buildAll mapping files = Some transactions ->
        Sorted (fun x y => SFltb x y = true) rates)
  /\ (MarketplaceTransaction.igst a = ofZ 180 ->
      MarketplaceTransaction.cgst a = zero ->
      MarketplaceTransaction.cgst b = ofZ 90 ->
      MarketplaceTransaction.sgst b = ofZ 90 ->
      MarketplaceTransaction.gstRate a = ofZ 18 ->
      MarketplaceTransaction.gstRate b = ofZ 18 ->
      suggestedLedgers [a; b]
      = [Ledger.mk "Sales @ 18%" "Sales Ledger" (ofZ 18);
         Ledger.mk "Output IGST @ 18%" "Tax Ledger" (ofZ 18);
         Ledger.mk "Output CGST @ 9%" "Tax Ledger" (ofZ 18);
         Ledger.mk "Output SGST @ 9%" "Tax Ledger" (ofZ 18)]).
Proof.
  cbn zeta.
  destruct (collectRates_spec transactions) as (Hpos & Hdist & Hin).
  assert (Hsorted :
            Forall (fun t => Spec.isBinary64 (MarketplaceTransaction.gstRate t) = true)
              transactions ->
            Sorted (fun x y => SFltb x y = true)
              (sort (fun x y => sub x y) (collectRates transactions))).
  { intros Hvalid. apply sort_sorted; [| done].
    apply Forall_forall. intros r Hr. split.
    + rewrite Forall_forall in Hpos. by apply Hpos.
    + apply Hin in Hr as (_ & t & Ht & <-).
      rewrite Forall_forall in Hvalid. by apply Hvalid. }
  split; [apply suggestedLedgers_flat_map |]. split; [| split; [| split; [| split]]].
  - rewrite sort_perm. by apply distinctRates_NoDup.
  - intros r. by rewrite sort_perm.
  - exact Hsorted.
  - intros mapping files Hbuilt. by apply Hsorted, (buildAll_gstRate_valid mapping files).
  - intros Higst Hcgst_a Hcgst_b Hsgst_b Hrate_a Hrate_b.
    rewrite suggestedLedgers_flat_map.
    assert (Hi : Spec.hasIgst [a; b] = true)
      by (unfold Spec.hasIgst; cbn [existsb]; by rewrite Higst).
    assert (Hc : Spec.hasCgstSgst [a; b] = true).
    { unfold Spec.hasCgstSgst. cbn [existsb]. rewrite Hcgst_b.
      cbn. apply orb_true_r. }
    assert (Hr : collectRates [a; b] = [ofZ 18])
      by (unfold collectRates; cbn [fold_left]; by rewrite Hrate_a, Hrate_b).
    rewrite Hi, Hc, Hr. by vm_compute.
Qed.

Lemma suggestedLedgers_by_rate_witness :
  Sorted (fun x y => SFltb x y = true)
    (sort (fun x y => sub x y)
       (collectRates [Examples.txIgst; Examples.txCgstSgst]))
  /\ Ledger.name <$> suggestedLedgers [Examples.txIgst; Examples.txCgstSgst]
     = ["Sales @ 18%"; "Output IGST @ 18%"; "Output CGST @ 9%"; "Output SGST @ 9%"].
Proof.
  destruct (suggestedLedgers_by_rate [Examples.txIgst; Examples.txCgstSgst]
              Examples.txIgst Examples.txCgstSgst)
    as (_ & _ & _ & Hsorted & _ & Hscenario).
  split.
  - apply Hsorted. repeat constructor.
  - rewrite Hscenario; reflexivity.
Defined.

End LedgerProperties.

Section AcceptedMappings.
Import Js App Spec.

(** ** Which mappings are accepted *)

Lemma fieldKeyed_insert {V} (k : Key.t) (v : V) (m : gmap string V) :
  fieldKeyed m -> fieldKeyed (<[Key.name k := v]> m).
Proof.
  intros Hm s. destruct (decide (Key.name k = s)) as [<- | Hne].
  - intros _. by exists k.
  - rewrite lookup_insert_ne by done. apply Hm.
Qed.

Lemma fieldKeyed_empty {V} : fieldKeyed (∅ : gmap string V).
Proof. intros s. rewrite lookup_empty. by intros [? ?]. Qed.

Lemma firstPass_keyed (mapping : ColumnMapping.t) (keys : list Key.t)
    (acc : gmap string string * list (string * list Key.t)) :
  fieldKeyed acc.1 -> fieldKeyed (fold_left (checkKeyErrors mapping) keys acc).1.
Proof.
  revert acc. induction keys as [|key keys IH]; intros acc Hacc; [done |].
  cbn [fold_left]. apply IH.
  destruct (checkKeyErrors_cases mapping acc key)
    as [(_ & _ & ->) | [(_ & _ & ->) | (_ & ->)]]; cbn [fst]; try done.
  by apply fieldKeyed_insert.
Qed.

Lemma flagDuplicates_keyed (errs : gmap string string)
    (entry : string * list Key.t) :
  fieldKeyed errs -> fieldKeyed (flagDuplicates errs entry).
Proof.
  destruct entry as [header keys]. unfold flagDuplicates.
  destruct (1 <? List.length keys)%nat; [| done].
  generalize keys at 1 as all. intros all. revert errs.
  induction keys as [|key keys IH]; intros errs Herrs; [done |].
  cbn [fold_left]. apply IH. by apply fieldKeyed_insert.
Qed.

Lemma secondPass_keyed (used : list (string * list Key.t))
    (errs : gmap string string) :
  fieldKeyed errs -> fieldKeyed (fold_left flagDuplicates used errs).
Proof.
  revert errs. induction used as [|entry used IH]; intros errs Herrs; [done |].
  cbn [fold_left]. by apply IH, flagDuplicates_keyed.
Qed.

Lemma errors_keyed `{DateEngine} (mapping : ColumnMapping.t)
    (files : list FileData.t) :
  fieldKeyed (errors (validationResults mapping files)).
Proof.
  rewrite errors_validationResults. cbn zeta.
  apply secondPass_keyed, firstPass_keyed, fieldKeyed_empty.
Qed.

Lemma fieldKeyed_empty_iff {V} (m : gmap string V) :
  fieldKeyed m -> m = ∅ <-> forall k, m !! Key.name k = None.
Proof.
  intros Hm. split; [intros -> k; apply lookup_empty |].
  intros Hnone. apply map_empty. intros s.
  destruct (m !! s) as [v|] eqn:Hs; [| done].
  destruct (Hm s) as [k ->]; [by eexists |]. by rewrite Hnone in Hs.
Qed.

Lemma hasCriticalErrors_false `{DateEngine} (mapping : ColumnMapping.t)
    (files : list FileData.t) :
  hasCriticalErrors mapping files = false
  <-> errors (validationResults mapping files) = ∅.
Proof.
  unfold hasCriticalErrors. rewrite Nat.ltb_ge, <- map_size_empty_iff. lia.
Qed.

Lemma two_distinct {A} (l : list A) :
  NoDup l -> (1 < List.length l)%nat -> exists x y, x ∈ l /\ y ∈ l /\ x <> y.
Proof.
  destruct l as [|a [|b l]]; cbn; [lia | lia |].
  intros Hnd _. exists a, b. repeat split.
  - apply elem_of_cons; by left.
  - apply elem_of_cons; right. apply elem_of_cons; by left.
  - apply NoDup_cons in Hnd as [Hnot _]. intros ->. apply Hnot.
    apply elem_of_cons; by left.
Qed.

Lemma elem_of_colliders (mapping : ColumnMapping.t) (h : string) (k : Key.t) :
  k ∈ colliders mapping h <-> ColumnMapping.get mapping k = h.
Proof.
  unfold colliders. rewrite list_elem_of_filter.
  split; [by intros [? _] | intros ?; split; [done | apply elem_of_all]].
Qed.

Lemma NoDup_colliders (mapping : ColumnMapping.t) (h : string) :
  NoDup (colliders mapping h).
Proof. apply NoDup_filter, NoDup_all. Qed.

(** X1. [processMapping] goes ahead exactly when every required field is
    mapped to a header and no header is given to two fields; the files do
    not matter, nor do the warnings. *)
Theorem mapping_accepted_iff `{DateEngine} (mapping : ColumnMapping.t)
    (files : list FileData.t) :
  hasCriticalErrors mapping files = false
  <-> (forall k, k ∈ REQUIRED_FIELDS -> ColumnMapping.get mapping k <> "")
      /\ (forall k1 k2,
            ColumnMapping.get mapping k1 = ColumnMapping.get mapping k2 ->
            ColumnMapping.get mapping k1 <> "" -> k1 = k2).
Proof.
  rewrite hasCriticalErrors_false.
  rewrite (fieldKeyed_empty_iff _ (errors_keyed mapping files)).
  split.
  - intros Hnone. split.
    + intros k Hreq Hempty. specialize (Hnone k).
      rewrite errors_lookup in Hnone. cbn zeta in Hnone.
      rewrite Hempty in Hnone. cbn in Hnone.
      by rewrite bool_decide_eq_true_2 in Hnone.
    + intros k1 k2 Hsame Hmapped.
      destruct (decide (k1 = k2)) as [| Hne]; [done | exfalso].
      specialize (Hnone k1). rewrite errors_lookup in Hnone. cbn zeta in Hnone.
      destruct (String.eqb_spec (ColumnMapping.get mapping k1) ""); [done |].
      assert (1 < List.length (colliders mapping (ColumnMapping.get mapping k1)))%nat
        as Hlen.
      { apply (two_elements k1 k2); [done | |]; by apply elem_of_colliders. }
      apply Nat.ltb_lt in Hlen. by rewrite Hlen in Hnone.
  - intros [Hreq Hinj] k. rewrite errors_lookup. cbn zeta.
    destruct (String.eqb_spec (ColumnMapping.get mapping k) "") as [He | Hne].
    + case_bool_decide as Hk; [| done]. by destruct (Hreq k Hk).
    + destruct (Nat.ltb_spec 1 (List.length (colliders mapping (ColumnMapping.get mapping k))))
        as [Hlen | Hlen]; [exfalso | done].
      destruct (two_distinct _ (NoDup_colliders mapping _) Hlen)
        as (x & y & Hx%elem_of_colliders & Hy%elem_of_colliders & Hxy).
      apply Hxy, Hinj; congruence.
Qed.

(** X2. With the blank mapping, that of [clearMappings] and of
    [identifyHeaders] when the service fails, the errors are the eight
    required fields, and [processMapping] leaves the state as it is:
    after [clearMappings], and after a [startMapping] whose service call
    failed (which, with a file uploaded, opens the mapping step). *)
Theorem blank_mapping_blocks `{DateEngine} (st : State)
    (files : list FileData.t) :
  errors (validationResults ColumnMapping.blank files) = blankErrors
  /\ processMapping (clearMappings st) = Some (clearMappings st)
  /\ let st' := startMapping (Some (identifyHeaders None)) st in
     match uploadedFiles st with
     | [] => st' = st
     | _ :: _ => step st' = MAPPING /\ mapping st' = ColumnMapping.blank
                 /\ processMapping st' = Some st'
     end.
Proof.
  assert (Herr : forall fs, errors (validationResults ColumnMapping.blank fs) = blankErrors).
  { intros fs. rewrite errors_validationResults. by vm_compute. }
  assert (Hcrit : forall fs, hasCriticalErrors ColumnMapping.blank fs = true).
  { intros fs. unfold hasCriticalErrors. rewrite Herr. by vm_compute. }
  split; [apply Herr |]. split.
  - unfold processMapping, clearMappings. cbn [mapping uploadedFiles].
    by rewrite Hcrit.
  - cbn zeta. unfold startMapping.
    destruct (uploadedFiles st) as [|first rest]; [done |].
    split; [done |]. split; [done |].
    unfold processMapping, identifyHeaders. cbn [mapping uploadedFiles].
    by rewrite Hcrit.
Qed.

End AcceptedMappings.

Section WarningsAndSamples.
Import Js App Spec.
Context `{DateEngine}.
Variable mapping : ColumnMapping.t.
Variable uploadedFiles : list FileData.t.

(** ** Warnings and samples *)

(** What one step of the first loop does to the warnings and the samples. *)
Lemma checkKey_warnings (v : Validation) (used : list (string * list Key.t))
    (key : Key.t) :
  let r := checkKey mapping uploadedFiles (v, used) key in
  let header := ColumnMapping.get mapping key in
  let sampleValues := getSampleData uploadedFiles header 3 in
  warnings r.1
  = (if String.eqb header "" then warnings v
     else match warningOf key sampleValues with
          | Some w => <[Key.name key := w]> (warnings v)
          | None => warnings v
          end)
  /\ samples r.1
     = (if String.eqb header "" then samples v
        else <[Key.name key := sampleValues]> (samples v)).
Proof.
  cbn zeta. unfold checkKey. rewrite truthyStr_Some.
  destruct (String.eqb_spec (ColumnMapping.get mapping key) "") as [He | Hne].
  - cbn [negb]. by destruct (includes REQUIRED_FIELDS key && true).
  - rewrite andb_false_r. cbn [negb fst warnings samples]. split; [| done].
    unfold warningOf, includes.
    destruct (bool_decide (key ∈ NUMERIC_FIELDS) && _ && _),
      (bool_decide (key ∈ DATE_FIELDS) && _ && _); try done.
    by rewrite insert_insert_eq.
Qed.

Lemma firstPass_warnings (keys : list Key.t) (v : Validation)
    (used : list (string * list Key.t)) (k : Key.t) :
  let r := fold_left (checkKey mapping uploadedFiles) keys (v, used) in
  let header := ColumnMapping.get mapping k in
  let sampleValues := getSampleData uploadedFiles header 3 in
  warnings r.1 !! Key.name k
  = (if bool_decide (k ∈ keys) && negb (String.eqb header "")
     then match warningOf k sampleValues with
          | Some w => Some w
          | None => warnings v !! Key.name k
          end
     else warnings v !! Key.name k)
  /\ samples r.1 !! Key.name k
     = (if bool_decide (k ∈ keys) && negb (String.eqb header "")
        then Some sampleValues else samples v !! Key.name k).
Proof.
  cbn zeta. revert v used.
  induction keys as [|key keys IH]; intros v used; [done |].
  cbn [fold_left].
  destruct (checkKey mapping uploadedFiles (v, used) key) as [v' used'] eqn:E.
  destruct (checkKey_warnings v used key) as [Hw Hs].
  rewrite E in Hw, Hs. cbn zeta in Hw, Hs. cbn [fst] in Hw, Hs.
  destruct (IH v' used') as [IHw IHs]. rewrite IHw, IHs, Hw, Hs. clear IHw IHs Hw Hs E.
  destruct (decide (k = key)) as [-> | Hk].
  - rewrite (bool_decide_eq_true_2 (key ∈ key :: keys)) by (apply elem_of_cons; by left).
    cbn [andb].
    destruct (String.eqb (ColumnMapping.get mapping key) ""); cbn [negb].
    + by rewrite andb_false_r.
    + rewrite andb_true_r, !lookup_insert_eq.
      destruct (warningOf key _) as [w|]; rewrite ?lookup_insert_eq;
        by destruct (bool_decide (key ∈ keys)).
  - assert (bool_decide (k ∈ key :: keys) = bool_decide (k ∈ keys)) as ->.
    { apply bool_decide_ext. rewrite elem_of_cons. tauto. }
    assert (Key.name key <> Key.name k) as Hn by (intros ?%name_inj; congruence).
    destruct (String.eqb (ColumnMapping.get mapping key) ""); [done |].
    rewrite lookup_insert_ne by done.
    by destruct (warningOf key _) as [w|]; rewrite ?lookup_insert_ne by done.
Qed.

Lemma firstPass_fieldKeyed (keys : list Key.t) (v : Validation)
    (used : list (string * list Key.t)) :
  let r := fold_left (checkKey mapping uploadedFiles) keys (v, used) in
  fieldKeyed (warnings v) -> fieldKeyed (samples v) ->
  fieldKeyed (warnings r.1) /\ fieldKeyed (samples r.1).
Proof.
  cbn zeta. revert v used.
  induction keys as [|key keys IH]; intros v used Hw Hs; [done |].
  cbn [fold_left].
  destruct (checkKey mapping uploadedFiles (v, used) key) as [v' used'] eqn:E.
  destruct (checkKey_warnings v used key) as [Hw' Hs'].
  rewrite E in Hw', Hs'. cbn zeta in Hw', Hs'. cbn [fst] in Hw', Hs'.
  apply IH; [rewrite Hw' | rewrite Hs'].
  - destruct (String.eqb _ ""); [done |].
    destruct (warningOf key _); [by apply fieldKeyed_insert | done].
  - destruct (String.eqb _ ""); [done | by apply fieldKeyed_insert].
Qed.

(** X3. The warnings and the samples of the validation, field by field: a
    mapped field has for samples the first three cells of its column in the
    first file that has the header; a mapped numeric field has a warning
    when one of its samples is not blank and does not read as a finite
    number, the date field when one of its samples is not blank and is no
    date; no other entry exists. *)
Theorem warnings_and_samples (k : Key.t) :
  let v := validationResults mapping uploadedFiles in
  let header := ColumnMapping.get mapping k in
  let sampleValues := getSampleData uploadedFiles header 3 in
  samples v !! Key.name k
  = (if String.eqb header "" then None else Some sampleValues)
  /\ warnings v !! Key.name k
     = (if String.eqb header "" then None
        else if bool_decide (k = Key.date)
                && negb (forallb looksDate sampleValues)
        then Some "Values in some files don't look like valid dates."
        else if bool_decide (k ∈ NUMERIC_FIELDS)
                && negb (forallb looksNumeric sampleValues)
        then Some "Values in some files don't look like numbers."
        else None)
  /\ fieldKeyed (samples v) /\ fieldKeyed (warnings v).
Proof.
  cbn zeta. unfold validationResults.
  destruct (firstPass_warnings Key.all (mkValidation ∅ ∅ ∅) [] k) as [Hw Hs].
  destruct (firstPass_fieldKeyed Key.all (mkValidation ∅ ∅ ∅) [])
    as [Hkw Hks]; [apply fieldKeyed_empty | apply fieldKeyed_empty |].
  cbn zeta in Hw, Hs, Hkw, Hks.
  destruct (fold_left (checkKey mapping uploadedFiles) Key.all _) as [v used].
  cbn [fst warnings samples] in *.
  rewrite Hw, Hs, !lookup_empty.
  rewrite (bool_decide_eq_true_2 _ (elem_of_all k)). cbn [andb].
  split; [by destruct (String.eqb _ "") |]. split; [| done].
  destruct (String.eqb _ ""); [done |]. cbn [negb].
  unfold warningOf.
  set (sampleValues := getSampleData uploadedFiles (ColumnMapping.get mapping k) 3).
  assert (bool_decide (k ∈ DATE_FIELDS) = bool_decide (k = Key.date)) as ->.
  { apply bool_decide_ext. unfold DATE_FIELDS. by rewrite list_elem_of_singleton. }
  assert (forall p : string -> bool,
             (0 <? List.length sampleValues)%nat && negb (forallb p sampleValues)
             = negb (forallb p sampleValues)) as Hlen.
  { intros p. by destruct sampleValues. }
  rewrite <- !andb_assoc, !Hlen.
  destruct (bool_decide (k = Key.date) && _); [done |].
  by destruct (bool_decide (k ∈ NUMERIC_FIELDS) && _).
Qed.

End WarningsAndSamples.

Section NumericCells.
Import Js App Spec.

(** ** Cells that pass the numeric check *)

Lemma allChars_filterChars (p : ascii -> bool) (s : string) :
  allChars p (filterChars p s) = true.
Proof.
  induction s as [|c s IH]; [done |]. cbn.
  destruct (p c) eqn:Hc; [cbn; by rewrite Hc | done].
Qed.

Lemma allChars_weaken (p q : ascii -> bool) (s : string) :
  (forall c, p c = true -> q c = true) ->
  allChars p s = true -> allChars q s = true.
Proof.
  intros Hpq. induction s as [|c s IH]; [done |]. cbn.
  intros [Hc Hs]%andb_true_iff. by rewrite (Hpq c Hc), IH.
Qed.

Lemma allChars_rev_onto (p : ascii -> bool) (s acc : string) :
  allChars p (rev_onto s acc) = allChars p s && allChars p acc.
Proof.
  revert acc. induction s as [|c s IH]; intros acc; [done |].
  cbn. rewrite IH. cbn. destruct (p c), (allChars p s); by cbn.
Qed.

Lemma rev_onto_rev_onto (s a b : string) :
  rev_onto (rev_onto s a) b = rev_onto a (s +:+ b).
Proof.
  revert a. induction s as [|c s IH]; intros a; [done |].
  cbn. by rewrite IH.
Qed.

Lemma reverse_reverse (s : string) : reverse (reverse s) = s.
Proof. unfold reverse. by rewrite rev_onto_rev_onto, append_nil_r. Qed.

Lemma trimStart_solid (s : string) :
  allChars (fun c => negb (isWhiteSpace c)) s = true -> trimStart s = s.
Proof.
  destruct s as [|c s]; [done |]. cbn.
  intros [Hc _]%andb_true_iff. by destruct (isWhiteSpace c).
Qed.

(** A text without white space is its own [trim]. *)
Lemma trim_solid (s : string) :
  allChars (fun c => negb (isWhiteSpace c)) s = true -> trim s = s.
Proof.
  intros Hs. unfold trim, trimEnd. rewrite (trimStart_solid s Hs).
  rewrite trimStart_solid; [apply reverse_reverse |].
  unfold reverse. by rewrite allChars_rev_onto, Hs.
Qed.

Lemma numericChar_solid (c : ascii) :
  numericChar c = true -> negb (isWhiteSpace c) = true.
Proof. destruct c as [[] [] [] [] [] [] [] []]; done. Qed.

Lemma numericChar_no_radix (c : ascii) :
  numericChar c = true ->
  match code c with
  | 120 | 88 => Some 16
  | 111 | 79 => Some 8
  | 98 | 66 => Some 2
  | _ => None
  end%N = None.
Proof. destruct c as [[] [] [] [] [] [] [] []]; done. Qed.

Lemma scanNonDecimal_numeric (s : string) :
  allChars numericChar s = true -> scanNonDecimal s = None.
Proof.
  destruct s as [|z [|x [|c r]]]; try done. cbn [allChars].
  intros [_ [Hx _]%andb_true_iff]%andb_true_iff.
  unfold scanNonDecimal. rewrite (numericChar_no_radix x Hx).
  by destruct (code z =? 48)%N.
Qed.

(** A text of digits, points and minus signs that [parseFloat] reads as a
    number and [Number] as a finite one is, as a whole, one literal. *)
Lemma numeric_text_read (num : string) :
  allChars numericChar num = true ->
  isNaN (parseFloat num) = false ->
  isFinite (toNumber num) = true ->
  parseFloat num = toNumber num /\ exists x, scanDecimal num = Some (x, "").
Proof.
  intros Hall.
  assert (Hsolid : allChars (fun c => negb (isWhiteSpace c)) num = true).
  { apply (allChars_weaken numericChar); [apply numericChar_solid | done]. }
  unfold parseFloat, toNumber.
  rewrite (trim_solid num Hsolid), (trimStart_solid num Hsolid).
  destruct num as [|c r]; [done |].
  rewrite (scanNonDecimal_numeric _ Hall).
  destruct (scanDecimal (String c r)) as [[x [|d rest]]|]; try done.
  intros _ _. split; [done | by exists x].
Qed.

(** X4. A cell that is not blank and passes the numeric check of the
    validation is read in full by [processMapping]: what is left of the
    cell once the other characters are removed is, as a whole, the literal
    of a finite number, and that number is the value of the field (0 in
    place of -0). *)
Theorem checked_cell_is_read_in_full (val : string) :
  val <> "" ->
  looksNumeric val = true ->
  let num := stripNonNumeric val in
  parseFloat num = toNumber num
  /\ isFinite (toNumber num) = true
  /\ parseFloatSafe (Some val) = Some (orNum (toNumber num) zero)
  /\ exists x, scanDecimal num = Some (x, "").
Proof.
  intros Hval. destruct val as [|c0 v0]; [done |]. unfold looksNumeric.
  cbn zeta. intros [Hnan Hfin]%andb_true_iff.
  apply negb_true_iff in Hnan.
  destruct (numeric_text_read (stripNonNumeric (String c0 v0)))
    as [Hparse Hscan]; [apply allChars_filterChars | done | done |].
  split; [done |]. split; [done |]. split; [| done].
  unfold parseFloatSafe. by rewrite Hparse.
Qed.

Lemma checked_cell_is_read_in_full_witness :
  parseFloatSafe (Some "INR 1200.50") = Some (ofDecimal false 120050 (-2)).
Proof.
  destruct (checked_cell_is_read_in_full "INR 1200.50") as (_ & _ & Hread & _).
  - discriminate.
  - reflexivity.
  - rewrite Hread. reflexivity.
Defined.

End NumericCells.

Section BatchProperties.
Import Js App Spec.

(** ** The batch that [processMapping] builds *)

Lemma mapM_app_option {A B} (f : A -> option B) (l1 l2 : list A) :
  mapM f (l1 ++ l2)
  = (k1 ← mapM f l1; k2 ← mapM f l2; Some (k1 ++ k2)).
Proof.
  induction l1 as [|x l1 IH]; cbn.
  - by destruct (mapM f l2).
  - destruct (f x) as [y|]; [| done]. cbn. rewrite IH.
    destruct (mapM f l1) as [k1|]; [| done]. cbn.
    by destruct (mapM f l2).
Qed.

Lemma mapM_None_iff {A B} (f : A -> option B) (l : list A) :
  mapM f l = None <-> exists x, x ∈ l /\ f x = None.
Proof.
  induction l as [|x l IH]; cbn.
  - split; [done | by intros (? & ?%elem_of_nil & _)].
  - destruct (f x) as [y|] eqn:Hx; cbn.
    + destruct (mapM f l) as [k|]; cbn.
      * split; [done |]. intros (z & [-> | Hz]%elem_of_cons & Hnone); [congruence |].
        destruct IH as [_ IH]. discriminate IH. by exists z.
      * split; [intros _ | done].
        destruct IH as [IH _]. destruct (IH eq_refl) as (z & Hz & Hnone).
        exists z. split; [apply elem_of_cons; by right | done].
    + split; [intros _ | done]. exists x. split; [apply elem_of_cons; by left | done].
Qed.

Lemma mapM_pair (mapping : ColumnMapping.t) (file : FileData.t)
    (rows : list (list string)) :
  mapM (fun fr : FileData.t * list string => buildTransaction mapping fr.1 fr.2)
    (map (pair file) rows)
  = mapM (buildTransaction mapping file) rows.
Proof.
  induction rows as [|row rows IH]; [done |]. cbn.
  destruct (buildTransaction mapping file row); [| done]. cbn. by rewrite IH.
Qed.

Lemma buildAll_fold (mapping : ColumnMapping.t) (files : list FileData.t)
    (acc : option (list MarketplaceTransaction.t)) :
  fold_left
    (fun acc file =>
       allProcessed ← acc;
       fileTransactions ← mapM (buildTransaction mapping file) (FileData.rawData file);
       Some (allProcessed ++ fileTransactions)) files acc
  = (allProcessed ← acc;
     built ← mapM (fun fr : FileData.t * list string =>
                     buildTransaction mapping fr.1 fr.2) (rowsOf files);
     Some (allProcessed ++ built)).
Proof.
  revert acc. induction files as [|file files IH]; intros acc; cbn [fold_left].
  - destruct acc as [txs|]; [| done]. cbn. by rewrite app_nil_r.
  - rewrite IH. unfold rowsOf. cbn [flat_map].
    rewrite mapM_app_option, mapM_pair.
    destruct acc as [txs|]; [| done]. cbn.
    destruct (mapM (buildTransaction mapping file) (FileData.rawData file))
      as [k1|]; [| done].
    cbn. destruct (mapM _ (flat_map _ files)) as [k2|]; [| done].
    cbn. by rewrite app_assoc.
Qed.

Lemma buildAll_mapM (mapping : ColumnMapping.t) (files : list FileData.t) :
  buildAll mapping files
  = mapM (fun fr : FileData.t * list string => buildTransaction mapping fr.1 fr.2)
      (rowsOf files).
Proof.
  unfold buildAll. rewrite buildAll_fold. cbn.
  by destruct (mapM _ (rowsOf files)).
Qed.

(** The cell of a field is missing exactly when the file has the header
    and the row ends before its column. *)
Lemma getVal_None (mapping : ColumnMapping.t) (file : FileData.t)
    (row : list string) (field : Key.t) :
  getVal mapping file row field = None
  <-> exists idx,
        indexOf (FileData.headers file) (ColumnMapping.get mapping field) = Some idx
        /\ (List.length row <= idx)%nat.
Proof.
  unfold getVal.
  destruct (indexOf _ _) as [idx|].
  - rewrite lookup_ge_None. split; [intros ?; by exists idx |].
    by intros (? & [= <-] & ?).
  - split; [done | by intros (? & ? & _)].
Qed.

Lemma buildTransaction_None (mapping : ColumnMapping.t) (file : FileData.t)
    (row : list string) :
  buildTransaction mapping file row = None
  <-> exists k, k ∈ NUMERIC_FIELDS /\ getVal mapping file row k = None.
Proof.
  unfold buildTransaction. split.
  - intros Hnone.
    destruct (getVal mapping file row Key.taxableValue) eqn:H1;
      [| exists Key.taxableValue; split; [compute_done | done]].
    destruct (getVal mapping file row Key.igst) eqn:H2;
      [| exists Key.igst; split; [compute_done | done]].
    destruct (getVal mapping file row Key.cgst) eqn:H3;
      [| exists Key.cgst; split; [compute_done | done]].
    destruct (getVal mapping file row Key.sgst) eqn:H4;
      [| exists Key.sgst; split; [compute_done | done]].
    destruct (getVal mapping file row Key.totalAmount) eqn:H5;
      [| exists Key.totalAmount; split; [compute_done | done]].
    destruct (getVal mapping file row Key.gstRate) eqn:H6;
      [| exists Key.gstRate; split; [compute_done | done]].
    destruct (getVal mapping file row Key.quantity) eqn:H7;
      [| exists Key.quantity; split; [compute_done | done]].
    done.
  - intros (k & Hk & Hnone). unfold NUMERIC_FIELDS in Hk.
    repeat (apply elem_of_cons in Hk as [-> | Hk];
            [rewrite Hnone; cbn; try done;
             repeat (destruct (parseFloatSafe _); cbn; try done) |]).
    by apply elem_of_nil in Hk.
Qed.

Lemma batch_rows (mapping : ColumnMapping.t) (files : list FileData.t)
    (txs : list MarketplaceTransaction.t) :
  buildAll mapping files = Some txs ->
  Forall2 (fun fr tx => buildTransaction mapping fr.1 fr.2 = Some tx)
    (rowsOf files) txs.
Proof. rewrite buildAll_mapM. apply mapM_Some. Qed.

(** X5. The batch is built exactly when every row of every file gives a
    transaction, and it then holds the transactions of the rows, one for
    each, in the order of the files and of their rows. *)
Theorem batch_follows_the_rows (mapping : ColumnMapping.t)
    (files : list FileData.t) (txs : list MarketplaceTransaction.t) :
  buildAll mapping files = Some txs
  <-> Forall2 (fun fr tx => buildTransaction mapping fr.1 fr.2 = Some tx)
        (rowsOf files) txs.
Proof. rewrite buildAll_mapM. apply mapM_Some. Qed.

Lemma processMapping_throws `{DateEngine} (st : State) :
  processMapping st = None
  <-> hasCriticalErrors (mapping st) (uploadedFiles st) = false
      /\ exists file row k idx,
           file ∈ uploadedFiles st /\ row ∈ FileData.rawData file
           /\ k ∈ NUMERIC_FIELDS
           /\ indexOf (FileData.headers file) (ColumnMapping.get (mapping st) k)
              = Some idx
           /\ (List.length row <= idx)%nat.
Proof.
  unfold processMapping.
  destruct (hasCriticalErrors (mapping st) (uploadedFiles st)).
  { split; [done | by intros [? _]]. }
  rewrite buildAll_mapM.
  set (f := fun fr : FileData.t * list string =>
              buildTransaction (mapping st) fr.1 fr.2).
  split.
  - intros Hthrow. split; [done |].
    destruct (mapM f (rowsOf (uploadedFiles st))) eqn:Hm; [done |].
    apply mapM_None_iff in Hm as ([file row] & Hin & Hrow).
    apply buildTransaction_None in Hrow as (k & Hk & (idx & Hidx & Hlen)%getVal_None).
    apply list_elem_of_In, in_flat_map in Hin as (file' & Hfile & Hin).
    apply in_map_iff in Hin as (row' & [= <- <-] & Hrow).
    exists file', row', k, idx.
    repeat split; try done; by apply list_elem_of_In.
  - intros (_ & file & row & k & idx & Hfile & Hrow & Hk & Hidx & Hlen).
    assert (mapM f (rowsOf (uploadedFiles st)) = None) as ->; [| done].
    apply mapM_None_iff. exists (file, row). split.
    + apply list_elem_of_In, in_flat_map. exists file.
      split; [by apply list_elem_of_In |].
      apply in_map. by apply list_elem_of_In.
    + apply buildTransaction_None. exists k. split; [done |].
      apply getVal_None. by exists idx.
Qed.

(** X6. [processMapping] throws (a TypeError) exactly when the mapping is
    accepted and some row ends before the column of a header that one of
    the seven numeric fields is mapped to; a row that lacks the cell of a
    text field does not make it throw. *)
Theorem processMapping_throws_iff `{DateEngine} (st : State) :
  processMapping st = None
  <-> hasCriticalErrors (mapping st) (uploadedFiles st) = false
      /\ exists file row k idx,
           file ∈ uploadedFiles st /\ row ∈ FileData.rawData file
           /\ k ∈ NUMERIC_FIELDS
           /\ indexOf (FileData.headers file) (ColumnMapping.get (mapping st) k)
              = Some idx
           /\ (List.length row <= idx)%nat.
Proof. apply processMapping_throws. Qed.

End BatchProperties.

Section BuiltTransactions.
Import Js App Spec.

Lemma parseFloatSafe_sound (val : option string) (x : number) :
  parseFloatSafe val = Some x -> isNaN x = false /\ Spec.isBinary64 x = true.
Proof.
  destruct val as [cell|]; [| done]. cbn. intros [= <-].
  pose proof (parseFloat_valid (stripNonNumeric cell)) as Hvalid.
  by destruct (parseFloat (stripNonNumeric cell)) as [[]| [] | | [] m e].
Qed.

(** What holds of the transaction built from a row. *)
Lemma buildTransaction_sound (mapping : ColumnMapping.t) (file : FileData.t)
    (row : list string) (tx : MarketplaceTransaction.t) :
  buildTransaction mapping file row = Some tx ->
  Forall (fun x => isNaN x = false /\ Spec.isBinary64 x = true) (numbersOf tx)
  /\ exists name, MarketplaceTransaction.productName tx = Some name /\ name <> "".
Proof.
  unfold buildTransaction.
  destruct (parseFloatSafe (getVal mapping file row Key.taxableValue))
    as [x1|] eqn:H1; [| done].
  destruct (parseFloatSafe (getVal mapping file row Key.igst))
    as [x2|] eqn:H2; [| done].
  destruct (parseFloatSafe (getVal mapping file row Key.cgst))
    as [x3|] eqn:H3; [| done].
  destruct (parseFloatSafe (getVal mapping file row Key.sgst))
    as [x4|] eqn:H4; [| done].
  destruct (parseFloatSafe (getVal mapping file row Key.totalAmount))
    as [x5|] eqn:H5; [| done].
  destruct (parseFloatSafe (getVal mapping file row Key.gstRate))
    as [x6|] eqn:H6; [| done].
  destruct (parseFloatSafe (getVal mapping file row Key.quantity))
    as [x7|] eqn:H7; [| done].
  cbn. intros [= <-]. unfold numbersOf. cbn. split.
  - repeat (constructor; [by eapply parseFloatSafe_sound |]).
    constructor; [| constructor].
    apply parseFloatSafe_sound in H7 as [Hnan Hvalid].
    by destruct x7 as [[]| [] | | [] m e].
  - eexists. split; [done |].
    by destruct (getVal mapping file row Key.productName) as [[|c s]|].
Qed.

Lemma length_rowsOf (files : list FileData.t) :
  List.length (rowsOf files)
  = sum_list (map (fun file => List.length (FileData.rawData file)) files).
Proof.
  induction files as [|file files IH]; [done |].
  unfold rowsOf in *. cbn [flat_map map sum_list].
  by rewrite length_app, length_map, IH.
Qed.

(** X7. When [processMapping] goes through, the review step opens on the
    same files, mapping and ledger names, with no row expanded and one
    transaction for each data row of the files; in every transaction each
    of the seven numbers is a binary64 value other than NaN, and the
    product name is not empty. *)
Theorem processMapping_result `{DateEngine} (st st' : State) :
  hasCriticalErrors (mapping st) (uploadedFiles st) = false ->
  processMapping st = Some st' ->
  st' = mkState REVIEW (uploadedFiles st) (mapping st) (transactions st') false
          None (ledgerOverrides st)
  /\ List.length (transactions st')
     = sum_list (map (fun file => List.length (FileData.rawData file))
                   (uploadedFiles st))
  /\ Forall (fun tx =>
               Forall (fun x => isNaN x = false /\ Spec.isBinary64 x = true)
                 (numbersOf tx)
               /\ exists name,
                    MarketplaceTransaction.productName tx = Some name
                    /\ name <> "")
       (transactions st').
Proof.
  intros Hok. unfold processMapping. rewrite Hok.
  destruct (buildAll (mapping st) (uploadedFiles st)) as [txs|] eqn:Hall; [| done].
  cbn. intros [= <-]. cbn [transactions]. split; [done |].
  apply batch_rows in Hall.
  split.
  - rewrite <- length_rowsOf. symmetry. by eapply Forall2_length.
  - clear Hok. induction Hall as [|[file row] tx rows txs Hrow _ IH]; constructor;
      [by eapply buildTransaction_sound | done].
Qed.

Lemma processMapping_result_witness :
  List.length (transactions
                 (mkState REVIEW [Examples.scenarioFile] Examples.scenarioMapping
                    [Examples.scenarioTransaction] false None ∅)) = 1%nat.
Proof.
  destruct (processMapping_result (H := IsoUtc.engine)
              (mkState MAPPING [Examples.scenarioFile] Examples.scenarioMapping
                 [] false None ∅)
              (mkState REVIEW [Examples.scenarioFile] Examples.scenarioMapping
                 [Examples.scenarioTransaction] false None ∅))
    as (_ & Hlen & _).
  - reflexivity.
  - reflexivity.
  - exact Hlen.
Defined.

(** X8. [processMapping] does not throw on files in which every data row
    has a cell under each header. *)
Theorem processMapping_total_on_full_rows `{DateEngine} (st : State) :
  fullRows (uploadedFiles st) -> is_Some (processMapping st).
Proof.
  intros Hfull. destruct (processMapping st) eqn:Hp; [by eexists |].
  apply processMapping_throws in Hp
    as (_ & file & row & k & idx & Hfile & Hrow & _ & Hidx & Hlen).
  apply indexOf_lt in Hidx. unfold fullRows in Hfull.
  rewrite Forall_forall in Hfull. specialize (Hfull file Hfile).
  rewrite Forall_forall in Hfull. specialize (Hfull row Hrow). cbn in Hfull. lia.
Qed.

Lemma processMapping_total_on_full_rows_witness :
  is_Some (processMapping (H := IsoUtc.engine)
             (mkState MAPPING [Examples.scenarioFile] Examples.scenarioMapping
                [] false None ∅)).
Proof.
  apply (processMapping_total_on_full_rows (H := IsoUtc.engine)).
  repeat constructor.
Defined.

End BuiltTransactions.

Section ParsingProperties.
Import Js App Spec.

(** ** Reading the text of a report *)

Lemma length_split (sep : ascii) (s : string) :
  List.length (split sep s) = S (countChar sep s).
Proof.
  induction s as [|c s IH]; [done |]. cbn.
  destruct (Ascii.eqb c sep); cbn; [by rewrite IH |].
  destruct (split sep s) as [|h t]; [done | exact IH].
Qed.

Lemma lacks_allChars (c : ascii) (s : string) :
  lacks c s = allChars (fun d => negb (Ascii.eqb d c)) s.
Proof. induction s as [|d s IH]; [done |]. cbn. by rewrite IH. Qed.

Lemma split_lacks (sep : ascii) (s : string) :
  Forall (fun piece => lacks sep piece = true) (split sep s).
Proof.
  induction s as [|c s IH]; [by repeat constructor |]. cbn.
  destruct (Ascii.eqb c sep) eqn:Hc; [by constructor |].
  destruct (split sep s) as [|h t]; [constructor; [cbn; by rewrite Hc | done] |].
  apply Forall_cons in IH as [Hh Ht]. constructor; [| done].
  cbn. by rewrite Hc, Hh.
Qed.

Lemma split_allChars (p : ascii -> bool) (sep : ascii) (s : string) :
  allChars p s = true ->
  Forall (fun piece => allChars p piece = true) (split sep s).
Proof.
  induction s as [|c s IH]; [by repeat constructor |]. cbn.
  intros [Hc Hs]%andb_true_iff. specialize (IH Hs).
  destruct (Ascii.eqb c sep); [by constructor |].
  destruct (split sep s) as [|h t]; [constructor; [cbn; by rewrite Hc | done] |].
  apply Forall_cons in IH as [Hh Ht]. constructor; [| done].
  cbn. by rewrite Hc, Hh.
Qed.

Lemma splitLines_lacks (s : string) :
  Forall (fun line => lacks (chr 10) line = true) (splitLines s).
Proof.
  induction s as [|c s IH]; [by repeat constructor |]. cbn [splitLines].
  destruct (Ascii.eqb c (chr 10)) eqn:Hc; [by constructor |].
  destruct (Ascii.eqb c (chr 13) && _); [done |].
  destruct (splitLines s) as [|h t]; [constructor; [cbn [lacks]; by rewrite Hc | done] |].
  apply Forall_cons in IH as [Hh Ht]. constructor; [| done].
  cbn [lacks]. by rewrite Hc, Hh.
Qed.

Lemma trimStart_allChars (p : ascii -> bool) (s : string) :
  allChars p s = true -> allChars p (trimStart s) = true.
Proof.
  induction s as [|c s IH]; [done |]. cbn.
  intros [Hc Hs]%andb_true_iff.
  destruct (isWhiteSpace c); [by apply IH | cbn; by rewrite Hc, Hs].
Qed.

Lemma reverse_allChars (p : ascii -> bool) (s : string) :
  allChars p (reverse s) = allChars p s.
Proof. unfold reverse. rewrite allChars_rev_onto. cbn. apply andb_true_r. Qed.

(** [trim] and the removal of the quotes only take characters away. *)
Lemma trim_allChars (p : ascii -> bool) (s : string) :
  allChars p s = true -> allChars p (trim s) = true.
Proof.
  intros Hs. unfold trim, trimEnd.
  rewrite reverse_allChars. apply trimStart_allChars.
  rewrite reverse_allChars. by apply trimStart_allChars.
Qed.

Lemma stripQuotes_allChars (p : ascii -> bool) (s : string) :
  allChars p s = true -> allChars p (stripQuotes s) = true.
Proof.
  intros Hs. unfold stripQuotes.
  set (s1 := match s with
             | String c r => if Ascii.eqb c (chr 34) then r else s
             | EmptyString => s
             end).
  assert (H1 : allChars p s1 = true).
  { subst s1. destruct s as [|c r]; [done |].
    destruct (Ascii.eqb c (chr 34)); [| done].
    cbn in Hs. by apply andb_true_iff in Hs as [_ ?]. }
  clearbody s1.
  destruct (reverse s1) as [|c r] eqn:Hrev; [done |].
  destruct (Ascii.eqb c (chr 34)); [| done].
  rewrite reverse_allChars.
  rewrite <- (reverse_allChars p s1), Hrev in H1.
  cbn in H1. by apply andb_true_iff in H1 as [_ ?].
Qed.

Lemma cellsOf_allChars (p : ascii -> bool) (line : string) :
  allChars p line = true ->
  Forall (fun cell => allChars p cell = true) (cellsOf line).
Proof.
  intros Hline. unfold cellsOf. apply Forall_map.
  eapply Forall_impl; [by apply split_allChars |].
  intros piece Hp. cbn beta in Hp |- *. by apply stripQuotes_allChars, trim_allChars.
Qed.

Lemma cellsOf_lacks_comma (line : string) :
  Forall (fun cell => lacks "," cell = true) (cellsOf line).
Proof.
  unfold cellsOf. apply Forall_map.
  eapply Forall_impl; [apply split_lacks |].
  intros piece Hp. cbn beta in Hp |- *. rewrite lacks_allChars in Hp |- *.
  by apply stripQuotes_allChars, trim_allChars.
Qed.

Lemma parseCSV_filter (lines : list string) :
  filter (fun line : list string => (1 < List.length line)%nat)
    (map (fun line => map (fun cell => stripQuotes (trim cell)) (split "," line))
       lines)
  = map cellsOf (filter (fun line => (0 < countChar "," line)%nat) lines).
Proof.
  induction lines as [|line lines IH]; [done |].
  cbn [map]. rewrite !filter_cons, IH.
  rewrite length_map, length_split.
  destruct (decide (1 < S (countChar "," line))%nat),
    (decide (0 < countChar "," line)%nat); try lia; done.
Qed.

Lemma length_cellsOf (line : string) :
  List.length (cellsOf line) = S (countChar "," line).
Proof. unfold cellsOf. by rewrite length_map, length_split. Qed.

(** Every row has two cells or more, and no cell holds a comma or a line
    feed. *)
Lemma parseCSV_shape (csvText : string) :
  Forall (fun row : list string =>
            (2 <= List.length row)%nat
            /\ Forall (fun cell => lacks "," cell = true
                                   /\ lacks (chr 10) cell = true) row)
    (parseCSV csvText).
Proof.
  unfold parseCSV. rewrite parseCSV_filter. apply Forall_map, Forall_forall.
  intros line [Hcomma Hline]%list_elem_of_filter. cbn beta. split.
  - rewrite length_cellsOf. lia.
  - pose proof (splitLines_lacks csvText) as Hlf.
    rewrite Forall_forall in Hlf. specialize (Hlf line Hline).
    cbn beta in Hlf. rewrite lacks_allChars in Hlf.
    pose proof (cellsOf_allChars _ line Hlf) as Hcells.
    pose proof (cellsOf_lacks_comma line) as Hcommas.
    rewrite Forall_forall in Hcells, Hcommas. apply Forall_forall.
    intros cell Hcell. split; [by apply Hcommas |].
    rewrite lacks_allChars. by apply Hcells.
Qed.

(** X9. [parseCSV] keeps the lines that hold a comma, in their order, and
    cuts each of them at every comma, quoted or not: a row has one cell
    more than its line has commas, hence two cells at least, and no cell
    holds a comma or a line feed. *)
Theorem parseCSV_rows (csvText : string) :
  parseCSV csvText
  = map cellsOf
      (filter (fun line => (0 < countChar "," line)%nat) (splitLines csvText))
  /\ (forall line, List.length (cellsOf line) = S (countChar "," line))
  /\ Forall (fun row : list string =>
               (2 <= List.length row)%nat
               /\ Forall (fun cell => lacks "," cell = true
                                      /\ lacks (chr 10) cell = true) row)
       (parseCSV csvText).
Proof.
  split; [apply parseCSV_filter |].
  split; [apply length_cellsOf | apply parseCSV_shape].
Qed.

End ParsingProperties.

Section FileListProperties.
Import Js App Spec.

(** ** The list of uploaded files *)

Lemma contribution_sourceOf (file : File) :
  contribution file = option_list (sourceOf file).
Proof.
  unfold contribution, sourceOf. by destruct (parseCSV (fileText file)).
Qed.

Lemma ingest_omap (files : list File) : ingest files = omap sourceOf files.
Proof.
  rewrite ingest_concat.
  induction files as [|file files IH]; [done |].
  cbn [map List.concat]. rewrite IH, contribution_sourceOf.
  change (omap sourceOf (file :: files))
    with (match sourceOf file with
          | Some y => y :: omap sourceOf files
          | None => omap sourceOf files
          end).
  by destruct (sourceOf file).
Qed.

Lemma ingest_app (files1 files2 : list File) :
  ingest (files1 ++ files2) = ingest files1 ++ ingest files2.
Proof. by rewrite !ingest_concat, map_app, concat_app. Qed.

Lemma sourceOf_tabular (file : File) (source : FileData.t) :
  sourceOf file = Some source -> tabular source.
Proof.
  unfold sourceOf.
  pose proof (parseCSV_shape (fileText file)) as Hrows.
  destruct (parseCSV (fileText file)) as [|first rest]; [done |].
  intros [= <-]. apply Forall_cons in Hrows as [[Hfirst _] Hrest].
  split; [done |]. cbn. eapply Forall_impl; [exact Hrest |]. by intros row [? _].
Qed.

(** X10. The files of a selection are taken in their order: a file gives
    one entry, under its own name, with the first row of its text for
    headers and the other rows for data, and a file without any row gives
    none.  Headers and data rows have two cells at least.  The entries are
    added after those already there, and the rest of the state is kept. *)
Theorem upload_adds_tabular_files (files : list File) (st : State) :
  let st' := handleFileUpload files st in
  uploadedFiles st' = uploadedFiles st ++ omap sourceOf files
  /\ Forall tabular (omap sourceOf files)
  /\ (step st', mapping st', transactions st', expandedRowIndex st',
      ledgerOverrides st')
     = (step st, mapping st, transactions st, expandedRowIndex st,
        ledgerOverrides st).
Proof.
  cbn zeta. split; [| split].
  - by rewrite uploadedFiles_handleFileUpload, ingest_omap.
  - apply Forall_forall. intros source (file & _ & Hsource)%list_elem_of_omap.
    by apply (sourceOf_tabular file).
  - by destruct files.
Qed.

(** X11. Two uploads in a row leave the state that the upload of the two
    selections as one leaves. *)
Theorem uploads_compose (files1 files2 : list File) (st : State) :
  handleFileUpload files2 (handleFileUpload files1 st)
  = handleFileUpload (files1 ++ files2) st.
Proof.
  destruct files1 as [|f1 files1]; [done |].
  destruct files2 as [|f2 files2].
  - by rewrite app_nil_r.
  - cbn [handleFileUpload app step uploadedFiles mapping transactions
         expandedRowIndex ledgerOverrides].
    f_equal. rewrite <- app_assoc. f_equal.
    symmetry. apply (ingest_app (f1 :: files1) (f2 :: files2)).
Qed.

Lemma filterIndex_delete {A} (index from : nat) (l : list A) :
  filterIndex (fun i => negb (i =? from + index)%nat) from l
  = take index l ++ drop (S index) l.
Proof.
  revert index from. induction l as [|x l IH]; intros index from.
  - by destruct index.
  - cbn [filterIndex]. destruct index as [|index].
    + rewrite Nat.add_0_r, Nat.eqb_refl. cbn [negb take drop app].
      rewrite drop_0. clear IH.
      assert (forall k, (from < k)%nat ->
                filterIndex (fun i => negb (i =? from)%nat) k l = l) as Hrest.
      { induction l as [|y l IHl]; intros k Hk; [done |]. cbn [filterIndex].
        destruct (Nat.eqb_spec k from); [lia |]. cbn [negb].
        f_equal. apply IHl. lia. }
      apply Hrest. lia.
    + destruct (Nat.eqb_spec from (from + S index)); [lia |]. cbn [negb take drop app].
      f_equal. replace (from + S index)%nat with (S from + index)%nat by lia.
      apply IH.
Qed.

(** X12. [removeFile] takes out the entry at the index and keeps the
    others in their order; an index past the end changes nothing.  Taking
    out the entry that an upload of one file has just added gives back the
    list of before. *)
Theorem removeFile_spec (index : nat) (st : State) :
  uploadedFiles (removeFile index st)
  = take index (uploadedFiles st) ++ drop (S index) (uploadedFiles st)
  /\ match uploadedFiles st !! index with
     | Some _ => S (List.length (uploadedFiles (removeFile index st)))
                 = List.length (uploadedFiles st)
     | None => removeFile index st = st
     end
  /\ forall file,
       uploadedFiles
         (removeFile (List.length (uploadedFiles st)) (handleFileUpload [file] st))
       = uploadedFiles st.
Proof.
  assert (Hdel : forall i l,
             filterIndex (A := FileData.t) (fun j => negb (j =? i)%nat) 0 l
             = take i l ++ drop (S i) l)
    by (intros i l; apply (filterIndex_delete i 0 l)).
  split; [apply Hdel |]. split.
  - unfold removeFile. cbn [uploadedFiles]. rewrite Hdel.
    destruct (uploadedFiles st !! index) as [file|] eqn:Hfile.
    + apply lookup_lt_Some in Hfile.
      rewrite length_app, length_take, length_drop. lia.
    + apply lookup_ge_None in Hfile.
      rewrite take_ge, drop_ge, app_nil_r by lia. by destruct st.
  - intros file. unfold removeFile. cbn [uploadedFiles]. rewrite Hdel.
    rewrite uploadedFiles_handleFileUpload.
    rewrite take_app_length. rewrite drop_app_ge by lia.
    replace (S (List.length (uploadedFiles st)) - List.length (uploadedFiles st))%nat
      with 1%nat by lia.
    rewrite ingest_omap. cbn [omap list_omap].
    destruct (sourceOf file); cbn [drop]; apply app_nil_r.
Qed.

(** ** The headers of the uploaded files *)

Lemma addHeader_spec (headerSet : list string) (h : string) :
  NoDup headerSet ->
  NoDup (addHeader headerSet h)
  /\ headerSet `prefix_of` addHeader headerSet h
  /\ forall x, x ∈ addHeader headerSet h <-> x ∈ headerSet \/ x = h.
Proof.
  intros Hnd. unfold addHeader, includes. case_bool_decide as Hin.
  - split; [done |]. split; [done |]. intros x. split; [by left |].
    by intros [? | ->].
  - split; [| split].
    + apply NoDup_app. split; [done |]. split; [| apply NoDup_singleton].
      by intros x Hx ->%list_elem_of_singleton.
    + by apply prefix_app_r.
    + intros x. by rewrite elem_of_app, list_elem_of_singleton.
Qed.

Lemma addHeaders_spec (headers headerSet : list string) :
  NoDup headerSet ->
  NoDup (fold_left addHeader headers headerSet)
  /\ headerSet `prefix_of` fold_left addHeader headers headerSet
  /\ forall x, x ∈ fold_left addHeader headers headerSet
               <-> x ∈ headerSet \/ x ∈ headers.
Proof.
  revert headerSet. induction headers as [|h headers IH]; intros headerSet Hnd.
  - split; [done |]. split; [done |]. intros x. split; [by left |].
    by intros [? | ?%elem_of_nil].
  - cbn [fold_left].
    destruct (addHeader_spec headerSet h Hnd) as (Hnd1 & Hpre1 & Hin1).
    destruct (IH _ Hnd1) as (Hnd2 & Hpre2 & Hin2).
    split; [done |]. split; [by etrans |].
    intros x. rewrite Hin2, Hin1, elem_of_cons. tauto.
Qed.

Lemma allHeaders_from (files : list FileData.t) (headerSet : list string) :
  NoDup headerSet ->
  let result :=
    fold_left
      (fun headerSet f => fold_left addHeader (FileData.headers f) headerSet)
      files headerSet in
  NoDup result
  /\ headerSet `prefix_of` result
  /\ forall x, x ∈ result
               <-> x ∈ headerSet
                   \/ exists f, f ∈ files /\ x ∈ FileData.headers f.
Proof.
  cbn zeta. revert headerSet.
  induction files as [|file files IH]; intros headerSet Hnd.
  - split; [done |]. split; [done |]. intros x. split; [by left |].
    by intros [? | (? & ?%elem_of_nil & _)].
  - cbn [fold_left].
    destruct (addHeaders_spec (FileData.headers file) headerSet Hnd)
      as (Hnd1 & Hpre1 & Hin1).
    destruct (IH _ Hnd1) as (Hnd2 & Hpre2 & Hin2).
    split; [done |]. split; [by etrans |].
    intros x. rewrite Hin2, Hin1. split.
    + intros [[? | ?] | (f & Hf & Hx)]; [by left | right | right].
      * exists file. split; [apply elem_of_cons; by left | done].
      * exists f. split; [apply elem_of_cons; by right | done].
    + intros [? | (f & [-> | Hf]%elem_of_cons & Hx)];
        [by left; left | by left; right | right; by exists f].
Qed.

Lemma elem_of_allHeaders (files : list FileData.t) (h : string) :
  h ∈ allHeaders files <-> exists f, f ∈ files /\ h ∈ FileData.headers f.
Proof.
  destruct (allHeaders_from files [] (NoDup_nil_2)) as (_ & _ & Hin).
  rewrite (Hin h). split; [| by right].
  by intros [?%elem_of_nil | ?].
Qed.

(** X13. [allHeaders] holds each header of the uploaded files once, and
    nothing else; an upload of further files leaves the headers that were
    there where they are and adds the new ones after them. *)
Theorem allHeaders_spec (files more : list FileData.t) :
  NoDup (allHeaders files)
  /\ (forall h, h ∈ allHeaders files
                <-> exists f, f ∈ files /\ h ∈ FileData.headers f)
  /\ allHeaders files `prefix_of` allHeaders (files ++ more).
Proof.
  destruct (allHeaders_from files [] (NoDup_nil_2)) as (Hnd & _ & Hin).
  split; [done |]. split; [apply elem_of_allHeaders |].
  unfold allHeaders. rewrite fold_left_app.
  by destruct (allHeaders_from more _ Hnd) as (_ & Hpre & _).
Qed.

(** ** Samples *)

Lemma length_omap_le {A B} (f : A -> option B) (l : list A) :
  (List.length (omap f l) <= List.length l)%nat.
Proof.
  induction l as [|x l IH]; [done |]. cbn [omap list_omap].
  destruct (f x); cbn [List.length]; fold (omap f l); lia.
Qed.

Lemma indexOf_None (l : list string) (x : string) :
  indexOf l x = None <-> x ∉ l.
Proof.
  induction l as [|y l IH]; cbn.
  - split; [intros _; apply not_elem_of_nil | done].
  - rewrite not_elem_of_cons. destruct (String.eqb_spec y x) as [-> | Hne].
    + split; [done | by intros [? _]].
    + destruct (indexOf l x) as [i|].
      * split; [done |]. intros [_ Hnot]. by apply IH in Hnot.
      * split; [intros _ | done]. split; [congruence | by apply IH].
Qed.

Lemma indexOf_Some (l : list string) (x : string) (i : nat) :
  indexOf l x = Some i ->
  l !! i = Some x /\ forall j, (j < i)%nat -> l !! j <> Some x.
Proof.
  revert i. induction l as [|y l IH]; intros i; cbn; [done |].
  destruct (String.eqb_spec y x) as [-> | Hne].
  - intros [= <-]. split; [done |]. intros j Hj. lia.
  - destruct (indexOf l x) as [k|]; [| done]. intros [= <-].
    destruct (IH k eq_refl) as [Hk Hfirst]. split; [done |].
    intros [|j] Hj; cbn; [congruence |]. apply Hfirst. lia.
Qed.

Lemma getSampleData_skip (before rest : list FileData.t) (header : string)
    (count : nat) :
  Forall (fun f => header ∉ FileData.headers f) before ->
  getSampleData (before ++ rest) header count = getSampleData rest header count.
Proof.
  induction 1 as [|f before Hf _ IH]; [done |].
  cbn [app getSampleData]. apply indexOf_None in Hf. by rewrite Hf.
Qed.

(** X14. The samples of a header come from the first file that has the
    header, from the first column under that header, and from the first
    [count] data rows, the rows that end before the column being passed
    over; they are the cells that [processMapping] reads in these rows for
    a field mapped to the header.  A header that no file has gives no
    sample. *)
Theorem getSampleData_spec (files : list FileData.t) (header : string)
    (count : nat) :
  (List.length (getSampleData files header count) <= count)%nat
  /\ (header ∉ allHeaders files -> getSampleData files header count = [])
  /\ forall before file after idx,
       files = before ++ file :: after ->
       Forall (fun f => header ∉ FileData.headers f) before ->
       indexOf (FileData.headers file) header = Some idx ->
       getSampleData files header count
       = omap (fun row : list string => row !! idx)
           (take count (FileData.rawData file))
       /\ FileData.headers file !! idx = Some header
       /\ (forall j, (j < idx)%nat -> FileData.headers file !! j <> Some header)
       /\ forall mapping key,
            ColumnMapping.get mapping key = header ->
            getSampleData files header count
            = omap (fun row => getVal mapping file row key)
                (take count (FileData.rawData file)).
Proof.
  split; [| split].
  - induction files as [|file files IH]; cbn; [lia |].
    destruct (indexOf (FileData.headers file) header) as [idx|]; [| done].
    etrans; [apply length_omap_le |]. rewrite length_take. lia.
  - intros Hnot.
    assert (Forall (fun f => header ∉ FileData.headers f) files) as Hall.
    { apply Forall_forall. intros f Hf Hin. apply Hnot.
      apply elem_of_allHeaders. by exists f. }
    rewrite <- (app_nil_r files). by rewrite getSampleData_skip.
  - intros before file after idx -> Hbefore Hidx.
    rewrite getSampleData_skip by done. cbn [getSampleData]. rewrite Hidx.
    destruct (indexOf_Some _ _ _ Hidx) as [Hat Hfirst].
    split; [done |]. split; [done |]. split; [done |].
    intros mapping key Hkey. unfold getVal. by rewrite Hkey, Hidx.
Qed.

Lemma getSampleData_spec_witness :
  getSampleData [Examples.scenarioFile] "Qty" 3 = ["2"].
Proof.
  destruct (getSampleData_spec [Examples.scenarioFile] "Qty" 3) as (_ & _ & Hfirst).
  destruct (Hfirst [] Examples.scenarioFile [] 6%nat) as (Hsamples & _).
  - reflexivity.
  - constructor.
  - reflexivity.
  - rewrite Hsamples. reflexivity.
Defined.

End FileListProperties.

Section TextProperties.
Import Js TallyXmlGenerator App Spec.

(** ** The characters of the inserted texts *)

Lemma allChars_append (p : ascii -> bool) (a b : string) :
  allChars p (a +:+ b) = allChars p a && allChars p b.
Proof. induction a as [|c a IH]; [done |]. cbn. by rewrite IH, andb_assoc. Qed.

Lemma length_append (a b : string) :
  String.length (a +:+ b) = (String.length a + String.length b)%nat.
Proof. induction a as [|c a IH]; [done |]. cbn. by rewrite IH. Qed.

Lemma replaceEach_append (f : ascii -> string) (a b : string) :
  replaceEach f (a +:+ b) = replaceEach f a +:+ replaceEach f b.
Proof.
  induction a as [|c a IH]; [done |]. cbn [String.append replaceEach].
  by rewrite IH, append_assoc.
Qed.

Lemma sanitize_Some (s : string) : sanitize (Some s) = replaceEach escape s.
Proof. by destruct s. Qed.

Lemma escape_length (c : ascii) : (1 <= String.length (escape c))%nat.
Proof.
  destruct (special_cases c) as [-> | [-> | [-> | [-> | [-> | H]]]]];
    try (cbn; lia).
  destruct H as (H1 & H2 & H3 & H4 & H5). rewrite escape_other by done. cbn. lia.
Qed.

Lemma replaceEach_plain (s : string) :
  plain s = true -> replaceEach escape s = s.
Proof.
  unfold plain. induction s as [|c s IH]; [done |].
  cbn [lacks replaceEach].
  rewrite !andb_true_iff, !negb_true_iff.
  intros [[[[[H1 L1] [H2 L2]] [H3 L3]] [H4 L4]] [H5 L5]].
  rewrite escape_other by done. cbn [String.append]. f_equal.
  apply IH. by rewrite L1, L2, L3, L4, L5.
Qed.

(** X15. [sanitize] works character by character: the text of a
    concatenation is the concatenation of the texts, two different strings
    never get the same text, a string is never shortened, and a string
    without any of the five characters is left as it is. *)
Theorem sanitize_by_character (a b : string) :
  sanitize (Some (a +:+ b)) = sanitize (Some a) +:+ sanitize (Some b)
  /\ (sanitize (Some a) = sanitize (Some b) -> a = b)
  /\ (String.length a <= String.length (sanitize (Some a)))%nat
  /\ (plain a = true -> sanitize (Some a) = a)
  /\ sanitize None = "".
Proof.
  rewrite !sanitize_Some. split; [apply replaceEach_append |].
  split; [| split; [| split; [apply replaceEach_plain | done]]].
  - intros Heq. apply (f_equal Spec.unescape) in Heq.
    by rewrite !unescape_replaceEach in Heq.
  - induction a as [|c a IH]; [done |]. cbn [replaceEach].
    rewrite length_append. pose proof (escape_length c). cbn [String.length]. lia.
Qed.

Lemma sanitize_by_character_witness :
  sanitize (Some "Tally ERP") = "Tally ERP".
Proof.
  destruct (sanitize_by_character "Tally ERP" "Tally ERP") as (_ & _ & _ & Hplain & _).
  apply Hplain. reflexivity.
Defined.

(** ** Dates *)

Lemma string_of_uint_digits (d : Decimal.uint) :
  allChars isDigit (NilEmpty.string_of_uint d) = true.
Proof. induction d; done. Qed.

Lemma stringOfN_digits (n : N) : allChars isDigit (stringOfN n) = true.
Proof.
  unfold stringOfN, NilZero.string_of_uint.
  destruct (N.to_uint n); try done; apply (string_of_uint_digits (_ _)).
Qed.

Lemma zeros_digits (n : Z) : allChars isDigit (zeros n) = true.
Proof.
  unfold zeros. induction (Z.to_nat n) as [|k IH]; [done |]. exact IH.
Qed.

Lemma padStart0_digits (n : nat) (s : string) :
  allChars isDigit s = true -> allChars isDigit (padStart0 n s) = true.
Proof.
  intros Hs. unfold padStart0. rewrite allChars_append, Hs, andb_true_r.
  induction (n - String.length s)%nat as [|k IH]; [done |]. exact IH.
Qed.

Lemma length_padStart0 (n : nat) (s : string) :
  String.length (padStart0 n s) = Nat.max n (String.length s).
Proof.
  unfold padStart0. rewrite length_append.
  assert (forall k, String.length (string_of_list_ascii (repeat (chr 48) k)) = k)
    as Hrep
    by (induction k as [|k IH];
        [done | cbn [repeat string_of_list_ascii String.length]; by rewrite IH]).
  rewrite Hrep. lia.
Qed.

Lemma stringOfZ_small (z : Z) :
  (0 <= z <= 9999)%Z ->
  String.length (stringOfZ z)
  = (if (z <? 10)%Z then 1 else if (z <? 100)%Z then 2
     else if (z <? 1000)%Z then 3 else 4)%nat
  /\ allChars isDigit (stringOfZ z) = true.
Proof.
  intros Hz.
  assert (forallb
            (fun z =>
               (String.length (stringOfZ z)
                =? (if (z <? 10)%Z then 1 else if (z <? 100)%Z then 2
                    else if (z <? 1000)%Z then 3 else 4))%nat
               && allChars isDigit (stringOfZ z)) (seqZ 0 10000) = true) as Hall
    by (by vm_compute).
  rewrite forallb_forall in Hall. specialize (Hall z).
  apply andb_true_iff in Hall as [Hlen Hdig].
  - by apply Nat.eqb_eq in Hlen.
  - apply list_elem_of_In, elem_of_seqZ. lia.
Qed.

Ltac case_ltb :=
  match goal with
  | |- context [(?a <? ?b)%Z] => destruct (Z.ltb_spec a b)
  end.

Section DateShape.
Context `{DateEngine}.

(** X16. [formatDateForTally] gives the date "20240401" for a missing
    date and for a text that the engine does not read as a date.  For a
    date whose local year has four digits it gives eight digits: the year,
    the month and the day of the month. *)
Theorem formatDateForTally_shape (dateStr : option string) :
  formatDateForTally None = "20240401"
  /\ (newDate dateStr = None -> formatDateForTally dateStr = "20240401")
  /\ forall t y m d,
       newDate dateStr = Some t ->
       dateLocal t = (y, m, d) ->
       fourDigitYear (y, m, d) ->
       formatDateForTally dateStr
       = stringOfZ y +:+ padStart0 2 (stringOfZ (m + 1)) +:+ padStart0 2 (stringOfZ d)
       /\ String.length (stringOfZ y) = 4%nat
       /\ String.length (formatDateForTally dateStr) = 8%nat
       /\ allChars isDigit (formatDateForTally dateStr) = true.
Proof.
  split; [done |]. unfold formatDateForTally. split; [by intros -> |].
  intros t y m d -> -> (Hy & Hm & Hd).
  destruct (stringOfZ_small y) as [Ly Dy]; [lia |].
  destruct (stringOfZ_small (m + 1)) as [Lm Dm]; [lia |].
  destruct (stringOfZ_small d) as [Ld Dd]; [lia |].
  assert (String.length (stringOfZ y) = 4%nat) as Hlen.
  { rewrite Ly. repeat (case_ltb; try lia). }
  split; [done |]. split; [done |]. split.
  - rewrite !length_append, !length_padStart0, Hlen, Lm, Ld.
    repeat (case_ltb; try lia).
  - rewrite !allChars_append, Dy. cbn [andb].
    by rewrite !padStart0_digits.
Qed.

End DateShape.

Lemma formatDateForTally_shape_witness :
  formatDateForTally (H := IsoUtc.engine) (Some "2024-04-15") = "20240415".
Proof.
  destruct (formatDateForTally_shape (H := IsoUtc.engine) (Some "2024-04-15"))
    as (_ & _ & Hshape).
  destruct (Hshape 1713139200000%Z 2024%Z 3%Z 15%Z) as (Htext & _).
  - reflexivity.
  - reflexivity.
  - cbn. lia.
  - rewrite Htext. reflexivity.
Defined.

(** ** Ledger names *)

Lemma getLedgerName_eq (ledgerOverrides : gmap string string)
    (defaultName : string) :
  getLedgerName ledgerOverrides defaultName
  = sanitize (Some (match ledgerOverrides !! defaultName with
                    | Some custom =>
                        if String.eqb (trim custom) "" then defaultName else custom
                    | None => defaultName
                    end)).
Proof.
  unfold getLedgerName.
  destruct (ledgerOverrides !! defaultName) as [custom|]; [| done].
  destruct custom as [|c s]; [done |].
  cbn [truthyStr andb]. by destruct (String.eqb (trim (String c s)) "").
Qed.

(** X17. After [handleLedgerOverride] the export writes the custom name,
    escaped, in place of the default name, unless the custom name is empty
    or white space only, in which case it writes the default name; the
    other ledger names are resolved as before, and of two overrides of the
    same name the later one counts.  The input of the guide shows the
    custom name unless it is empty. *)
Theorem ledger_override_round_trip (defaultName customName : string)
    (st : State) :
  let st' := handleLedgerOverride defaultName customName st in
  getLedgerName (ledgerOverrides st') defaultName
  = sanitize (Some (if String.eqb (trim customName) "" then defaultName
                    else customName))
  /\ (forall other, other <> defaultName ->
        getLedgerName (ledgerOverrides st') other
        = getLedgerName (ledgerOverrides st) other)
  /\ (forall earlier,
        handleLedgerOverride defaultName customName
          (handleLedgerOverride defaultName earlier st) = st')
  /\ (forall ledger, Ledger.name ledger = defaultName ->
        ledgerInputValue (ledgerOverrides st') ledger
        = if String.eqb customName "" then defaultName else customName)
  /\ (step st', uploadedFiles st', mapping st', transactions st')
     = (step st, uploadedFiles st, mapping st, transactions st).
Proof.
  cbn zeta. unfold handleLedgerOverride. cbn [ledgerOverrides].
  split; [| split; [| split; [| split]]].
  - by rewrite getLedgerName_eq, lookup_insert_eq.
  - intros other Hother. by rewrite !getLedgerName_eq, lookup_insert_ne.
  - intros earlier. cbn. by rewrite insert_insert_eq.
  - intros ledger <-. unfold ledgerInputValue. rewrite lookup_insert_eq.
    by destruct customName.
  - done.
Qed.

Lemma ledger_override_round_trip_witness :
  getLedgerName
    (ledgerOverrides
       (handleLedgerOverride "Sales @ 18%" "GST Sales 18" initialState))
    "Output IGST @ 18%"
  = "Output IGST @ 18%".
Proof.
  destruct (ledger_override_round_trip "Sales @ 18%" "GST Sales 18" initialState)
    as (_ & Hother & _).
  rewrite Hother; [reflexivity | discriminate].
Defined.

End TextProperties.

Section MarkupProperties.
Import Js TallyXmlGenerator App Spec.

(** ** No inserted text holds a less-than sign *)

Lemma isDigit_not_lt (c : ascii) : isDigit c = true -> negb (Ascii.eqb c "<") = true.
Proof. destruct c as [[] [] [] [] [] [] [] []]; done. Qed.

Lemma digits_lack_lt (s : string) : allChars isDigit s = true -> lacks "<" s = true.
Proof.
  rewrite lacks_allChars. apply allChars_weaken, isDigit_not_lt.
Qed.

Lemma lacks_append (c : ascii) (a b : string) :
  lacks c (a +:+ b) = lacks c a && lacks c b.
Proof. rewrite !lacks_allChars. apply allChars_append. Qed.

Lemma lacks_substring (c : ascii) (n m : nat) (s : string) :
  lacks c s = true -> lacks c (String.substring n m s) = true.
Proof.
  revert n m. induction s as [|d s IH]; intros n m Hs.
  - by destruct n, m.
  - cbn [lacks] in Hs. apply andb_true_iff in Hs as [Hd Hs].
    destruct n as [|n]; [destruct m as [|m]; [done |] |]; cbn [String.substring].
    + cbn [lacks]. by rewrite Hd, IH.
    + by apply IH.
Qed.

Lemma lacks_stringOfN (n : N) : lacks "<" (stringOfN n) = true.
Proof. apply digits_lack_lt, stringOfN_digits. Qed.

Lemma lacks_stringOfZ (z : Z) : lacks "<" (stringOfZ z) = true.
Proof.
  destruct z; unfold stringOfZ; rewrite ?lacks_append; cbn [lacks];
    by rewrite ?lacks_stringOfN.
Qed.

Lemma lacks_zeros (n : Z) : lacks "<" (zeros n) = true.
Proof. apply digits_lack_lt, zeros_digits. Qed.

Lemma lacks_padStart0 (n : nat) (s : string) :
  lacks "<" s = true -> lacks "<" (padStart0 n s) = true.
Proof.
  intros Hs. unfold padStart0. rewrite lacks_append, Hs, andb_true_r.
  induction (n - String.length s)%nat as [|k IH]; [done |]. exact IH.
Qed.

Lemma lacks_formatDigits (digits : string) (n k : Z) :
  lacks "<" digits = true -> lacks "<" (formatDigits digits n k) = true.
Proof.
  intros Hd. unfold formatDigits, substr.
  repeat case_match; rewrite ?lacks_append; cbn [lacks];
    rewrite ?Hd, ?lacks_zeros, ?lacks_stringOfN, ?lacks_substring by done; done.
Qed.

Lemma lacks_toString (x : number) : lacks "<" (toString x) = true.
Proof.
  destruct x as [s | s | | s m e]; try done; [by destruct s |].
  unfold toString. destruct (ratOf m e) as [xn xd].
  destruct (shortest _ _ _ _ _ _) as [[sd n] k].
  rewrite lacks_append, lacks_formatDigits by apply lacks_stringOfN.
  by destruct s.
Qed.

Lemma lacks_fixedDigits (f : nat) (n : Z) : lacks "<" (fixedDigits f n) = true.
Proof.
  unfold fixedDigits.
  assert (lacks "<" (padStart0 (S f) (stringOfN (Z.to_N n))) = true) as Hds
    by apply lacks_padStart0, lacks_stringOfN.
  destruct f; [done |].
  rewrite !lacks_append, !lacks_substring by done. done.
Qed.

Lemma lacks_toFixed (f : nat) (x : number) : lacks "<" (toFixed f x) = true.
Proof.
  destruct x as [s | s | | s m e]; unfold toFixed;
    try apply lacks_toString; [apply lacks_fixedDigits |].
  destruct (ratOf m e) as [xn xd].
  case_match; [apply lacks_toString |].
  rewrite lacks_append, lacks_fixedDigits. by destruct s.
Qed.

Lemma lacks_escaped (s : string) : Spec.isEscaped s = true -> lacks "<" s = true.
Proof.
  induction s as [|c s IH]; [done |]. cbn [Spec.isEscaped lacks].
  destruct (Ascii.eqb c "<"); [done |]. cbn [orb negb andb].
  destruct (_ || _); [done |].
  destruct (Ascii.eqb c "&"); [| done].
  intros [_ Hs]%andb_true_iff. by apply IH.
Qed.

Lemma lacks_sanitize (o : option string) : lacks "<" (sanitize o) = true.
Proof. apply lacks_escaped, isEscaped_sanitize. Qed.

Lemma lacks_getLedgerName (ledgerOverrides : gmap string string)
    (defaultName : string) :
  lacks "<" (getLedgerName ledgerOverrides defaultName) = true.
Proof. apply lacks_sanitize. Qed.

Lemma lacks_formatDateForTally `{DateEngine} (dateStr : option string) :
  lacks "<" (formatDateForTally dateStr) = true.
Proof.
  unfold formatDateForTally. destruct (newDate dateStr) as [t|]; [| done].
  destruct (dateLocal t) as [[y m] d].
  by rewrite !lacks_append, !lacks_padStart0, lacks_stringOfZ
    by apply lacks_stringOfZ.
Qed.

(** ** Counting tags *)

Lemma prefix_nil (s : string) : String.prefix "" s = true.
Proof. by destruct s. Qed.

Lemma prefix_settled (needle text rest : string) :
  settled needle text = true ->
  String.prefix needle (text +:+ rest) = String.prefix needle text.
Proof.
  unfold settled. revert text.
  induction needle as [|a needle IH]; intros text; [by rewrite !prefix_nil |].
  destruct text as [|b text].
  - cbn. done.
  - cbn [String.append String.prefix].
    destruct (ascii_dec a b) as [<- | Hne]; [| done].
    destruct (ascii_dec a a); [| done]. apply IH.
Qed.

Lemma count_selfContained (a : ascii) (needle text rest : string) :
  selfContained (String a needle) text = true ->
  count (String a needle) (text +:+ rest)
  = (count (String a needle) text + count (String a needle) rest)%nat.
Proof.
  induction text as [|c text IH]; [done |].
  cbn [selfContained]. intros [Hset Hrest]%andb_true_iff.
  cbn [String.append count].
  change (String c (text +:+ rest)) with (String c text +:+ rest).
  rewrite (prefix_settled (String a needle) (String c text) rest Hset).
  rewrite (IH Hrest). lia.
Qed.

Lemma count_lacks (needle v rest : string) :
  lacks "<" v = true ->
  count (String "<" needle) (v +:+ rest) = count (String "<" needle) rest.
Proof.
  intros Hv. induction v as [|c v IH]; [done |].
  cbn [lacks] in Hv. apply andb_true_iff in Hv as [Hc Hv].
  cbn [String.append count String.prefix].
  destruct (ascii_dec "<" c) as [<- | Hne]; [done |].
  by rewrite IH.
Qed.

(** The count of a text of the template, piece by piece: [acc] is the
    count of the pieces passed. *)
Lemma count_text (a : ascii) (needle p rest : string) (acc acc' total : nat) :
  selfContained (String a needle) p = true ->
  (acc + count (String a needle) p)%nat = acc' ->
  (acc' + count (String a needle) rest)%nat = total ->
  (acc + count (String a needle) (p +:+ rest))%nat = total.
Proof. intros Hp <- <-. rewrite (count_selfContained a needle p rest Hp). lia. Qed.

Lemma count_inserted (needle v rest : string) (acc total : nat) :
  lacks "<" v = true ->
  (acc + count (String "<" needle) rest)%nat = total ->
  (acc + count (String "<" needle) (v +:+ rest))%nat = total.
Proof. intros Hv <-. by rewrite count_lacks. Qed.

Ltac count_step :=
  first
    [ eapply count_inserted; [eassumption |]
    | eapply count_text; [vm_compute; reflexivity | vm_compute; reflexivity |] ].

Ltac each_tag H :=
  unfold countedTags in H;
  repeat (apply elem_of_cons in H as [-> | H]);
  try (exfalso; by apply elem_of_nil in H).

(** The inserted texts add no tag to the head of a voucher, nor to a tax
    entry. *)
Lemma count_voucherHead (needle : string)
    (v1 v2 v3 v4 v5 v6 v7 v8 v9 v10 rest : string) :
  needle ∈ countedTags ->
  lacks "<" v1 = true -> lacks "<" v2 = true -> lacks "<" v3 = true ->
  lacks "<" v4 = true -> lacks "<" v5 = true -> lacks "<" v6 = true ->
  lacks "<" v7 = true -> lacks "<" v8 = true -> lacks "<" v9 = true ->
  lacks "<" v10 = true ->
  count needle (voucherHead v1 v2 v3 v4 v5 v6 v7 v8 v9 v10 +:+ rest)
  = (count needle (voucherHead "" "" "" "" "" "" "" "" "" "") + count needle rest)%nat.
Proof.
  intros Hneedle H1 H2 H3 H4 H5 H6 H7 H8 H9 H10.
  change (count needle (voucherHead v1 v2 v3 v4 v5 v6 v7 v8 v9 v10 +:+ rest))
    with (0 + count needle (voucherHead v1 v2 v3 v4 v5 v6 v7 v8 v9 v10 +:+ rest))%nat.
  unfold voucherHead at 1. rewrite !append_assoc.
  each_tag Hneedle; repeat count_step; reflexivity.
Qed.

Lemma count_taxEntry (needle ledger amount rest : string) :
  needle ∈ countedTags ->
  lacks "<" ledger = true -> lacks "<" amount = true ->
  count needle (taxEntry ledger amount +:+ rest)
  = (count needle (taxEntry "" "") + count needle rest)%nat.
Proof.
  intros Hneedle H1 H2.
  change (count needle (taxEntry ledger amount +:+ rest))
    with (0 + count needle (taxEntry ledger amount +:+ rest))%nat.
  unfold taxEntry at 1. rewrite !append_assoc.
  each_tag Hneedle; repeat count_step; reflexivity.
Qed.

Lemma count_voucherClose (needle rest : string) :
  needle ∈ countedTags ->
  count needle (voucherClose +:+ rest)
  = (count needle voucherClose + count needle rest)%nat.
Proof.
  intros Hneedle.
  each_tag Hneedle; apply count_selfContained; by vm_compute.
Qed.

Section Counting.
Context `{DateEngine}.
Variable ledgerOverrides : gmap string string.

Lemma count_voucher (needle : string) (tx : MarketplaceTransaction.t)
    (rest : string) :
  needle ∈ countedTags ->
  count needle (Spec.voucher ledgerOverrides tx +:+ rest)
  = (tagsIn needle tx + count needle rest)%nat.
Proof.
  intros Hneedle. rewrite voucher_eq, !append_assoc.
  rewrite count_voucherHead;
    try (first [ apply lacks_sanitize | apply lacks_toFixed | apply lacks_toString
               | apply lacks_formatDateForTally ]); [| done].
  assert (Higst : forall s,
             count needle
               ((if gt (MarketplaceTransaction.igst tx) zero
                 then taxEntry (igstLedger ledgerOverrides tx) (igstVal tx)
                 else "") +:+ s)
             = ((if gt (MarketplaceTransaction.igst tx) zero
                 then count needle (taxEntry "" "") else 0) + count needle s)%nat).
  { intros s. destruct (gt (MarketplaceTransaction.igst tx) zero); [| done].
    apply count_taxEntry;
      [done | apply lacks_sanitize | apply lacks_toFixed]. }
  assert (Hcgst : forall s,
             count needle
               ((if gt (MarketplaceTransaction.cgst tx) zero
                 then taxEntry (cgstLedger ledgerOverrides tx) (cgstVal tx)
                      +:+ taxEntry (sgstLedger ledgerOverrides tx) (sgstVal tx)
                 else "") +:+ s)
             = ((if gt (MarketplaceTransaction.cgst tx) zero
                 then 2 * count needle (taxEntry "" "") else 0)
                + count needle s)%nat).
  { intros s. destruct (gt (MarketplaceTransaction.cgst tx) zero); [| done].
    rewrite append_assoc.
    rewrite !count_taxEntry;
      try (first [ done | apply lacks_sanitize | apply lacks_toFixed ]).
    lia. }
  rewrite Higst, Hcgst, count_voucherClose by done.
  unfold tagsIn, entriesOf.
  each_tag Hneedle;
    match goal with
    | |- context [count ?n (voucherHead _ _ _ _ _ _ _ _ _ _)] =>
        let k := eval vm_compute in (count n (voucherHead "" "" "" "" "" "" "" "" "" "")) in
        change (count n (voucherHead "" "" "" "" "" "" "" "" "" "")) with k;
        let j := eval vm_compute in (count n (taxEntry "" "")) in
        change (count n (taxEntry "" "")) with j;
        let c := eval vm_compute in (count n voucherClose) in
        change (count n voucherClose) with c
    end;
    cbn [String.eqb Ascii.eqb Bool.eqb andb];
    destruct (gt (MarketplaceTransaction.igst tx) zero),
      (gt (MarketplaceTransaction.cgst tx) zero); lia.
Qed.

Lemma concat_cons (x : string) (l : list string) :
  String.concat "" (x :: l) = x +:+ String.concat "" l.
Proof. destruct l; cbn; by rewrite ?append_nil_r. Qed.

Lemma concat_app_strings (l1 l2 : list string) :
  String.concat "" (l1 ++ l2) = String.concat "" l1 +:+ String.concat "" l2.
Proof.
  induction l1 as [|x l1 IH]; [done |].
  cbn [app]. by rewrite !concat_cons, IH, append_assoc.
Qed.

Lemma count_vouchers (needle : string) (txs : list MarketplaceTransaction.t)
    (rest : string) :
  needle ∈ countedTags ->
  count needle (String.concat "" (map (Spec.voucher ledgerOverrides) txs) +:+ rest)
  = (sum_list (map (tagsIn needle) txs) + count needle rest)%nat.
Proof.
  intros Hneedle. induction txs as [|tx txs IH]; [done |].
  cbn [map]. rewrite concat_cons, append_assoc, count_voucher, IH by done.
  cbn. lia.
Qed.

Lemma count_generateTallyXml (needle : string)
    (txs : list MarketplaceTransaction.t) :
  needle ∈ countedTags ->
  count needle (generateTallyXml txs ledgerOverrides)
  = sum_list (map (tagsIn needle) txs).
Proof.
  intros Hneedle. rewrite generateTallyXml_eq.
  assert (forall s, count needle (xmlProlog +:+ s) = count needle s) as Hprolog.
  { intros s.
    each_tag Hneedle;
      (rewrite count_selfContained by (by vm_compute));
      replace (count _ xmlProlog) with 0%nat by (by vm_compute); done. }
  rewrite Hprolog, count_vouchers by done.
  assert (count needle xmlEpilog = 0%nat) as ->
    by (each_tag Hneedle; by vm_compute).
  lia.
Qed.

End Counting.

Lemma sum_list_ones {A} (l : list A) :
  sum_list (map (fun _ => 1%nat) l) = List.length l.
Proof. induction l as [|x l IH]; [done |]. cbn. by rewrite IH. Qed.

(** X18. The document is the prolog, the vouchers of the transactions in
    their order and the epilog, and no text of a transaction or of the
    overrides adds a tag to it: it has one VOUCHER element, opened and
    closed, for each transaction, and for each transaction two ledger
    entries, one more when igst > 0 and two more when cgst > 0. *)
Theorem one_voucher_per_transaction `{DateEngine}
    (txs : list MarketplaceTransaction.t) (ledgerOverrides : gmap string string) :
  generateTallyXml txs ledgerOverrides
  = xmlProlog +:+ String.concat "" (map (Spec.voucher ledgerOverrides) txs)
    +:+ xmlEpilog
  /\ count "<VOUCHER " (generateTallyXml txs ledgerOverrides) = List.length txs
  /\ count "</VOUCHER>" (generateTallyXml txs ledgerOverrides) = List.length txs
  /\ count "<ALLLEDGERENTRIES.LIST" (generateTallyXml txs ledgerOverrides)
     = sum_list (map entriesOf txs).
Proof.
  split; [apply generateTallyXml_eq |].
  rewrite !count_generateTallyXml by compute_done.
  unfold tagsIn. cbn [String.eqb Ascii.eqb Bool.eqb andb].
  by rewrite !sum_list_ones.
Qed.

End MarkupProperties.

Section AmountsAndLedgers.
Import Js TallyXmlGenerator App Spec.

(** ** The debit of the party *)

Lemma prefix_append_needle (a b s : string) :
  String.prefix (a +:+ b) s = true -> String.prefix a s = true.
Proof.
  revert s. induction a as [|c a IH]; intros s; [by rewrite prefix_nil |].
  destruct s as [|d s]; [done |]. cbn [String.append String.prefix].
  destruct (ascii_dec c d); [apply IH | done].
Qed.

Lemma occurs_append_needle (a b s : string) :
  Spec.occurs (a +:+ b) s = true -> Spec.occurs a s = true.
Proof.
  induction s as [|d s IH]; cbn [Spec.occurs].
  - rewrite !orb_false_r. apply prefix_append_needle.
  - intros [Hp | Hs]%orb_true_iff.
    + by rewrite (prefix_append_needle a b _ Hp).
    + rewrite (IH Hs). apply orb_true_r.
Qed.

Lemma toFixed_negative (f : nat) (x : number) :
  SFltb x zero = true -> exists digits, toFixed f x = "-" +:+ digits.
Proof.
  destruct x as [[] | [] | | [] m e]; try done; intros _.
  - by exists "Infinity".
  - unfold toFixed. destruct (ratOf m e) as [xn xd] eqn:Hrat.
    case_match; [| by eexists].
    unfold toString. rewrite Hrat.
    destruct (shortest _ _ _ _ _ _) as [[sd n] k]. by eexists.
Qed.

Lemma occurs_debit (amount rest : string) :
  Spec.occurs ("<AMOUNT>-" +:+ amount +:+ "</AMOUNT>")
    ("              <AMOUNT>-" +:+ amount +:+ "</AMOUNT>" +:+ rest) = true.
Proof.
  change "              <AMOUNT>-" with ("              " +:+ "<AMOUNT>-").
  rewrite append_assoc. apply occurs_append_l.
  replace ("<AMOUNT>-" +:+ amount +:+ "</AMOUNT>" +:+ rest)
    with (("<AMOUNT>-" +:+ amount +:+ "</AMOUNT>") +:+ rest)
    by (by rewrite !append_assoc).
  apply occurs_prefix, prefix_append.
Qed.

Ltac find_debit :=
  lazymatch goal with
  | |- Spec.occurs _ ("              <AMOUNT>-" +:+ _) = true => apply occurs_debit
  | |- Spec.occurs _ (_ +:+ _) = true => apply occurs_append_l; find_debit
  end.

(** X19. The amount of the debit of the party is a minus sign followed by
    the total to two decimals, whatever the sign of the total: for a total
    below zero the amount starts with two minus signs. *)
Theorem debit_amount_of_negative_total `{DateEngine}
    (ledgerOverrides : gmap string string) (tx : MarketplaceTransaction.t) :
  Spec.occurs ("<AMOUNT>-" +:+ totalVal tx +:+ "</AMOUNT>")
    (Spec.voucher ledgerOverrides tx) = true
  /\ (SFltb (MarketplaceTransaction.totalAmount tx) zero = true ->
      (exists digits, totalVal tx = "-" +:+ digits)
      /\ Spec.occurs "<AMOUNT>--" (Spec.voucher ledgerOverrides tx) = true).
Proof.
  assert (Hdebit : Spec.occurs ("<AMOUNT>-" +:+ totalVal tx +:+ "</AMOUNT>")
                     (Spec.voucher ledgerOverrides tx) = true).
  { rewrite voucher_eq. unfold voucherHead. rewrite !append_assoc. find_debit. }
  split; [done |]. intros Hneg.
  destruct (toFixed_negative 2 _ Hneg) as [digits Hdigits].
  split; [by exists digits |].
  unfold totalVal in Hdebit. rewrite Hdigits in Hdebit.
  by apply (occurs_append_needle "<AMOUNT>--" (digits +:+ "</AMOUNT>")).
Qed.

Lemma debit_amount_of_negative_total_witness :
  Spec.occurs "<AMOUNT>--"
    (Spec.voucher (H := IsoUtc.engine) ∅ Examples.txRefund) = true.
Proof.
  apply (debit_amount_of_negative_total (H := IsoUtc.engine) ∅ Examples.txRefund).
  reflexivity.
Defined.

(** ** The guide and the export *)

Lemma rate_positive (tx : MarketplaceTransaction.t) :
  gt (MarketplaceTransaction.gstRate tx) zero = true ->
  rate tx = MarketplaceTransaction.gstRate tx.
Proof.
  unfold rate, orNum.
  by intros [-> | (m & e & ->)]%gt_zero_cases.
Qed.

Lemma elem_of_suggestedLedgers (txs : list MarketplaceTransaction.t)
    (ledger : Ledger.t) :
  ledger ∈ suggestedLedgers txs
  <-> exists r,
        (gt r zero = true
         /\ exists t, t ∈ txs /\ MarketplaceTransaction.gstRate t = r)
        /\ ledger ∈ Spec.ledgersFor (Spec.hasIgst txs) (Spec.hasCgstSgst txs) r.
Proof.
  rewrite suggestedLedgers_flat_map, list_elem_of_In, in_flat_map.
  destruct (collectRates_spec txs) as (_ & _ & Hin).
  split; intros (r & Hr & Hl); exists r.
  - split; [| by apply list_elem_of_In].
    apply Hin. rewrite <- (sort_perm (fun a b => sub a b)). by apply list_elem_of_In.
  - split; [| by apply list_elem_of_In].
    apply list_elem_of_In. rewrite (sort_perm (fun a b => sub a b)). by apply Hin.
Qed.

Lemma existsb_elem {A} (p : A -> bool) (l : list A) (x : A) :
  x ∈ l -> p x = true -> existsb p l = true.
Proof.
  intros Hx Hp. apply existsb_exists. exists x. split; [by apply list_elem_of_In | done].
Qed.

(** X20. The guide lists the default name of every ledger that the export
    writes for a transaction with a rate above zero: its sales ledger, its
    IGST ledger when igst > 0, its CGST and SGST ledgers when cgst > 0; so
    each of these names can be given a custom name.  A batch in which every
    rate is zero has an empty guide, while its vouchers name the ledger
    "Sales @ 18%". *)
Theorem guide_lists_exported_ledgers (txs : list MarketplaceTransaction.t)
    (ledgerOverrides : gmap string string) :
  let names := Ledger.name <$> suggestedLedgers txs in
  (forall tx,
     tx ∈ txs ->
     gt (MarketplaceTransaction.gstRate tx) zero = true ->
     let r := MarketplaceTransaction.gstRate tx in
     let sales := "Sales @ " +:+ toString r +:+ "%" in
     let igst := "Output IGST @ " +:+ toString r +:+ "%" in
     let cgst := "Output CGST @ " +:+ toString (div r (ofZ 2)) +:+ "%" in
     let sgst := "Output SGST @ " +:+ toString (div r (ofZ 2)) +:+ "%" in
     salesLedger ledgerOverrides tx = getLedgerName ledgerOverrides sales
     /\ igstLedger ledgerOverrides tx = getLedgerName ledgerOverrides igst
     /\ cgstLedger ledgerOverrides tx = getLedgerName ledgerOverrides cgst
     /\ sgstLedger ledgerOverrides tx = getLedgerName ledgerOverrides sgst
     /\ sales ∈ names
     /\ (gt (MarketplaceTransaction.igst tx) zero = true -> igst ∈ names)
     /\ (gt (MarketplaceTransaction.cgst tx) zero = true ->
         cgst ∈ names /\ sgst ∈ names))
  /\ (Forall (fun tx => Spec.isZero (MarketplaceTransaction.gstRate tx) = true) txs ->
      suggestedLedgers txs = []
      /\ Forall (fun tx => salesLedger ledgerOverrides tx
                           = getLedgerName ledgerOverrides "Sales @ 18%") txs).
Proof.
  cbn zeta. split.
  - intros tx Htx Hrate. cbn zeta.
    set (r := MarketplaceTransaction.gstRate tx).
    unfold salesLedger, igstLedger, cgstLedger, sgstLedger.
    rewrite (rate_positive tx Hrate). fold r.
    do 4 (split; [done |]).
    assert (Hin : forall ledger,
               ledger ∈ Spec.ledgersFor (Spec.hasIgst txs) (Spec.hasCgstSgst txs) r ->
               Ledger.name ledger ∈ Ledger.name <$> suggestedLedgers txs).
    { intros ledger Hl. apply list_elem_of_fmap. exists ledger. split; [done |].
      apply elem_of_suggestedLedgers. exists r. split; [| done].
      split; [done | by exists tx]. }
    split; [| split].
    + apply (Hin (Ledger.mk _ "Sales Ledger" r)).
      unfold Spec.ledgersFor. apply elem_of_app. left. by apply list_elem_of_singleton.
    + intros Higst.
      apply (Hin (Ledger.mk _ "Tax Ledger" r)).
      unfold Spec.ledgersFor, Spec.hasIgst.
      rewrite (existsb_elem _ txs tx Htx Higst).
      apply elem_of_app. right. apply elem_of_app. left.
      by apply list_elem_of_singleton.
    + intros Hcgst.
      assert (Spec.hasCgstSgst txs = true) as Hflag.
      { unfold Spec.hasCgstSgst. apply (existsb_elem _ txs tx Htx).
        by rewrite Hcgst. }
      split.
      * apply (Hin (Ledger.mk ("Output CGST @ " +:+ _) "Tax Ledger" r)).
        unfold Spec.ledgersFor. rewrite Hflag.
        apply elem_of_app. right. apply elem_of_app. right.
        apply elem_of_cons. by left.
      * apply (Hin (Ledger.mk ("Output SGST @ " +:+ _) "Tax Ledger" r)).
        unfold Spec.ledgersFor. rewrite Hflag.
        apply elem_of_app. right. apply elem_of_app. right.
        apply elem_of_cons. right. apply elem_of_cons. by left.
  - intros Hzero. split.
    + destruct (suggestedLedgers txs) as [|ledger rest] eqn:Hs; [done |].
      assert (ledger ∈ suggestedLedgers txs) as Hin
        by (rewrite Hs; apply elem_of_cons; by left).
      apply elem_of_suggestedLedgers in Hin as (r & (Hr & t & Ht & <-) & _).
      rewrite Forall_forall in Hzero. specialize (Hzero t Ht).
      by destruct (MarketplaceTransaction.gstRate t).
    + eapply Forall_impl; [exact Hzero |]. intros tx Hz. cbn beta in Hz.
      unfold salesLedger, rate, orNum.
      by destruct (MarketplaceTransaction.gstRate tx).
Qed.

Lemma guide_lists_exported_ledgers_witness :
  "Output IGST @ 18%"
  ∈ Ledger.name <$> suggestedLedgers [Examples.txIgst; Examples.txCgstSgst].
Proof.
  destruct (guide_lists_exported_ledgers [Examples.txIgst; Examples.txCgstSgst] ∅)
    as [Hlisted _].
  destruct (Hlisted Examples.txIgst) as (_ & _ & _ & _ & _ & Hin & _).
  - apply elem_of_cons. by left.
  - reflexivity.
  - apply Hin. reflexivity.
Defined.

End AmountsAndLedgers.

Section PartyAndState.
Import Js TallyXmlGenerator App Spec.

(** ** The party and its state in the voucher *)

Lemma prefix_split (needle s : string) :
  String.prefix needle s = true -> exists post, s = needle +:+ post.
Proof.
  revert s. induction needle as [|c needle IH]; intros s; [by exists s |].
  destruct s as [|d s]; [done |]. cbn [String.prefix].
  destruct (ascii_dec c d) as [<- | Hne]; [| done].
  intros (post & ->)%IH. by exists post.
Qed.

Lemma occurs_split (needle s : string) :
  Spec.occurs needle s = true -> exists pre post, s = pre +:+ needle +:+ post.
Proof.
  induction s as [|d s IH]; cbn [Spec.occurs].
  - rewrite orb_false_r. intros (post & ->)%prefix_split. by exists "", post.
  - intros [(post & ->)%prefix_split | (pre & post & ->)%IH]%orb_true_iff.
    + by exists "", post.
    + by exists (String d pre), post.
Qed.

(** A text that occurs in a text that occurs in [s] occurs in [s]. *)
Lemma occurs_trans (needle text s : string) :
  Spec.occurs needle text = true -> Spec.occurs text s = true ->
  Spec.occurs needle s = true.
Proof.
  intros (pre' & post' & ->)%occurs_split (pre & post & ->)%occurs_split.
  rewrite !append_assoc, <- (append_assoc pre pre'). apply occurs_append.
Qed.

Lemma occurs_append_r (needle a b : string) :
  Spec.occurs needle a = true -> Spec.occurs needle (a +:+ b) = true.
Proof.
  intros (pre & post & ->)%occurs_split. rewrite !append_assoc. apply occurs_append.
Qed.

Lemma occurs_refl (s : string) : Spec.occurs s s = true.
Proof.
  apply occurs_prefix. rewrite <- (append_nil_r s) at 2. apply prefix_append.
Qed.

Lemma prefix_append_same (a needle s : string) :
  String.prefix needle s = true -> String.prefix (a +:+ needle) (a +:+ s) = true.
Proof.
  intros Hp. induction a as [|c a IH]; [done |].
  cbn [String.append String.prefix]. by destruct (ascii_dec c c).
Qed.

(** The pieces of the needle are the first pieces of the text. *)
Ltac same_pieces :=
  lazymatch goal with
  | |- String.prefix (?a +:+ _) (?a +:+ _) = true =>
      apply prefix_append_same; same_pieces
  | |- String.prefix ?a (?a +:+ _) = true => apply prefix_append
  | |- String.prefix ?a ?a = true =>
      rewrite <- (append_nil_r a) at 2; apply prefix_append
  end.

Ltac find_party :=
  lazymatch goal with
  | |- Spec.occurs _ (nl +:+ "            <PARTYLEDGERNAME>" +:+ _) = true =>
      apply occurs_prefix; same_pieces
  | |- Spec.occurs _ (_ +:+ _) = true => apply occurs_append_l; find_party
  end.

Lemma occurs_partyLines `{DateEngine} (ledgerOverrides : gmap string string)
    (tx : MarketplaceTransaction.t) :
  Spec.occurs (partyLines (partyName tx) (stateName tx) (totalVal tx))
    (Spec.voucher ledgerOverrides tx) = true.
Proof.
  rewrite voucher_eq. unfold voucherHead, partyLines.
  rewrite !append_assoc. find_party.
Qed.

(** The three elements in the lines. *)
Lemma elements_of_partyLines (party state total : string) :
  Spec.occurs ("<PARTYLEDGERNAME>" +:+ party +:+ "</PARTYLEDGERNAME>")
    (partyLines party state total) = true
  /\ Spec.occurs ("<STATENAME>" +:+ state +:+ "</STATENAME>")
       (partyLines party state total) = true
  /\ Spec.occurs
       ("<LEDGERNAME>" +:+ party +:+ "</LEDGERNAME>" +:+ nl +:+
        "              <ISDEEMEDPOSITIVE>Yes</ISDEEMEDPOSITIVE>" +:+ nl +:+
        "              <AMOUNT>-" +:+ total +:+ "</AMOUNT>")
       (partyLines party state total) = true.
Proof.
  unfold partyLines. split; [| split].
  - change "            <PARTYLEDGERNAME>"
      with ("            " +:+ "<PARTYLEDGERNAME>").
    rewrite !append_assoc. do 2 apply occurs_append_l.
    apply occurs_prefix. same_pieces.
  - change "            <STATENAME>" with ("            " +:+ "<STATENAME>").
    rewrite !append_assoc. do 6 apply occurs_append_l.
    apply occurs_prefix. same_pieces.
  - change "              <LEDGERNAME>" with ("              " +:+ "<LEDGERNAME>").
    rewrite !append_assoc. do 20 apply occurs_append_l.
    apply occurs_prefix. same_pieces.
Qed.

Section Claim.
Context `{DateEngine}.

(** C10. In the document that [generateTallyXml] writes, the voucher of a
    transaction holds the lines of the template from PARTYLEDGERNAME to
    the end of the entry that debits the party, with the party name in the
    PARTYLEDGERNAME element and in the LEDGERNAME of that entry and the
    state name in the STATENAME element; the voucher has no other
    PARTYLEDGERNAME or STATENAME element and no other debit entry.  The
    party name is "Cash" for an empty (or missing) customer name and the
    state name "Maharashtra" for an empty (or missing) state; any other
    value is inserted as it is, escaped character by character. *)
Theorem party_and_state_defaults (ledgerOverrides : gmap string string)
    (before after : list MarketplaceTransaction.t)
    (tx : MarketplaceTransaction.t) :
  let document := generateTallyXml (before ++ tx :: after) ledgerOverrides in
  let voucher := Spec.voucher ledgerOverrides tx in
  partyName tx =
    match MarketplaceTransaction.customerName tx with
    | Some (String c s) => replaceEach escape (String c s)
    | _ => "Cash"
    end
  /\ stateName tx =
    match MarketplaceTransaction.state tx with
    | Some (String c s) => replaceEach escape (String c s)
    | _ => "Maharashtra"
    end
  /\ (exists rest,
        voucher =
        voucherHead (voucherDate tx) (invoiceNo tx) (partyName tx) (stateName tx)
          (totalVal tx) (salesLedger ledgerOverrides tx) (taxableVal tx)
          (productName tx)
          (toFixed 2 (div (MarketplaceTransaction.taxableValue tx) (qty tx)))
          (toString (qty tx))
        +:+ rest)
  /\ document
     = xmlProlog
       +:+ String.concat "" (map (Spec.voucher ledgerOverrides) before)
       +:+ voucher
       +:+ String.concat "" (map (Spec.voucher ledgerOverrides) after)
       +:+ xmlEpilog
  /\ Spec.occurs (partyLines (partyName tx) (stateName tx) (totalVal tx)) voucher
     = true
  /\ Spec.occurs ("<PARTYLEDGERNAME>" +:+ partyName tx +:+ "</PARTYLEDGERNAME>")
       document = true
  /\ Spec.occurs ("<STATENAME>" +:+ stateName tx +:+ "</STATENAME>") document
     = true
  /\ Spec.occurs
       ("<LEDGERNAME>" +:+ partyName tx +:+ "</LEDGERNAME>" +:+ nl +:+
        "              <ISDEEMEDPOSITIVE>Yes</ISDEEMEDPOSITIVE>" +:+ nl +:+
        "              <AMOUNT>-" +:+ totalVal tx +:+ "</AMOUNT>")
       document = true
  /\ match MarketplaceTransaction.customerName tx with
     | Some (String _ _) => True
     | _ =>
         Spec.occurs "<PARTYLEDGERNAME>Cash</PARTYLEDGERNAME>" document = true
         /\ Spec.occurs
              ("<LEDGERNAME>Cash</LEDGERNAME>" +:+ nl +:+
               "              <ISDEEMEDPOSITIVE>Yes</ISDEEMEDPOSITIVE>")
              document = true
     end
  /\ match MarketplaceTransaction.state tx with
     | Some (String _ _) => True
     | _ => Spec.occurs "<STATENAME>Maharashtra</STATENAME>" document = true
     end
  /\ count "<PARTYLEDGERNAME>" voucher = 1%nat
  /\ count "<STATENAME>" voucher = 1%nat
  /\ count "<ISDEEMEDPOSITIVE>Yes" voucher = 1%nat
  /\ count "<PARTYLEDGERNAME>" document = List.length (before ++ tx :: after)
  /\ count "<STATENAME>" document = List.length (before ++ tx :: after)
  /\ count "<ISDEEMEDPOSITIVE>Yes" document = List.length (before ++ tx :: after).
Proof.
  cbn zeta.
  assert (Hparty : partyName tx =
                   match MarketplaceTransaction.customerName tx with
                   | Some (String c s) => replaceEach escape (String c s)
                   | _ => "Cash"
                   end)
    by (unfold partyName; by destruct (MarketplaceTransaction.customerName tx) as [[|c s]|]).
  assert (Hstate : stateName tx =
                   match MarketplaceTransaction.state tx with
                   | Some (String c s) => replaceEach escape (String c s)
                   | _ => "Maharashtra"
                   end)
    by (unfold stateName; by destruct (MarketplaceTransaction.state tx) as [[|c s]|]).
  assert (Hdoc : generateTallyXml (before ++ tx :: after) ledgerOverrides
                 = xmlProlog
                   +:+ String.concat "" (map (Spec.voucher ledgerOverrides) before)
                   +:+ Spec.voucher ledgerOverrides tx
                   +:+ String.concat "" (map (Spec.voucher ledgerOverrides) after)
                   +:+ xmlEpilog).
  { rewrite generateTallyXml_eq, map_app, concat_app_strings. cbn [map].
    by rewrite concat_cons, !append_assoc. }
  pose proof (occurs_partyLines ledgerOverrides tx) as Hlines.
  assert (Hin : forall needle,
             Spec.occurs needle
               (partyLines (partyName tx) (stateName tx) (totalVal tx)) = true ->
             Spec.occurs needle
               (generateTallyXml (before ++ tx :: after) ledgerOverrides) = true).
  { intros needle Hneedle. rewrite Hdoc. do 2 apply occurs_append_l.
    apply occurs_append_r. by apply (occurs_trans needle _ _ Hneedle). }
  destruct (elements_of_partyLines (partyName tx) (stateName tx) (totalVal tx))
    as (Hp & Hs & Hl).
  assert (Hone : forall needle,
             needle ∈ countedTags ->
             tagsIn needle tx = 1%nat ->
             count needle "" = 0%nat ->
             count needle (Spec.voucher ledgerOverrides tx) = 1%nat).
  { intros needle Hneedle Htag Hempty.
    rewrite <- (append_nil_r (Spec.voucher ledgerOverrides tx)).
    by rewrite count_voucher, Htag, Hempty by done. }
  assert (Hall : forall needle,
             needle ∈ countedTags ->
             (forall t, tagsIn needle t = 1%nat) ->
             count needle (generateTallyXml (before ++ tx :: after) ledgerOverrides)
             = List.length (before ++ tx :: after)).
  { intros needle Hneedle Htag. rewrite count_generateTallyXml by done.
    rewrite <- sum_list_ones. f_equal. apply map_ext. intros t. apply Htag. }
  split; [done |]. split; [done |]. split; [eexists; apply voucher_eq |].
  split; [done |]. split; [done |].
  split; [by apply Hin |]. split; [by apply Hin |].
  split; [by apply Hin |].
  split.
  { clear Hone Hall. destruct (MarketplaceTransaction.customerName tx) as [[|c s]|];
      [| done |]; rewrite Hparty in Hin, Hp, Hl; (split; [by apply Hin |]);
      apply (occurs_append_needle
               ("<LEDGERNAME>Cash</LEDGERNAME>" +:+ nl +:+
                "              <ISDEEMEDPOSITIVE>Yes</ISDEEMEDPOSITIVE>")
               (nl +:+ "              <AMOUNT>-" +:+ totalVal tx +:+ "</AMOUNT>"));
      apply Hin; exact Hl. }
  split.
  { clear Hone Hall. destruct (MarketplaceTransaction.state tx) as [[|c s]|];
      [| done |]; rewrite Hstate in Hin, Hs; by apply Hin. }
  repeat split; first [ apply Hone | apply Hall ]; try compute_done; done.
Qed.

End Claim.

End PartyAndState.
